(** * kss-node, Twig builder: section templates, sample contexts and pages

    A shallow embedding of [builder/base/twig/kss_builder_base_twig.js]
    (class [KssBuilderBaseTwig], methods [build] and [buildPage]) and the
    properties of its template resolution and rendering pipeline.

    Layout: the JavaScript values the builder handles (strings, JSON data
    living in a store of mutable objects, the Twig registry), the host
    interface (Node's [path], [glob], [require], the Twig engine, the
    KssStyleGuide object), the builder as a state-and-rejection monad,
    then the properties. *)

From Stdlib Require Import String Ascii Lia.
From stdpp Require Import base option list gmap strings fin_maps pretty.

Open Scope string_scope.
Open Scope list_scope.

(** ** Strings *)

Definition LF : ascii := "010"%char.
Definition slash : ascii := "/"%char.

(** The tail of [/^[^\n]+\.twig$/] after its first character: the
    language [[^\n]*\.twig] anchored at the end of the input. *)
Fixpoint twig_suffix_line (s : string) : bool :=
  String.eqb s ".twig" ||
  match s with
  | EmptyString => false
  | String c r => negb (Ascii.eqb c LF) && twig_suffix_line r
  end.

(** [template.markup.match(/^[^\n]+\.twig$/)]: one character other than a
    line feed, then [[^\n]*\.twig] up to the end of the string (no [m]
    flag, so [^] and [$] are the ends of the whole string). *)
Definition markup_is_file (markup : string) : bool :=
  match markup with
  | EmptyString => false
  | String c r => negb (Ascii.eqb c LF) && twig_suffix_line r
  end.

Fixpoint drop_slashes (l : list ascii) : list ascii :=
  match l with
  | c :: r => if Ascii.eqb c slash then drop_slashes r else l
  | [] => []
  end.

Fixpoint until_slash (l : list ascii) : list ascii :=
  match l with
  | c :: r => if Ascii.eqb c slash then [] else c :: until_slash r
  | [] => []
  end.

(** [path.basename(p)] on POSIX paths: trailing slashes are skipped, then
    the characters after the last remaining slash are returned. *)
Definition basename (p : string) : string :=
  string_of_list_ascii
    (rev (until_slash (drop_slashes (rev (list_ascii_of_string p))))).

(** [reference.split(/(?:\.|\ \-\ )/)[0]]: the text before the first
    ["."] or [" - "]. *)
Fixpoint first_token (s : string) : string :=
  match s with
  | EmptyString => EmptyString
  | String c r =>
      if Ascii.eqb c "."%char then EmptyString
      else if String.prefix " - " s then EmptyString
      else String c (first_token r)
  end.

(** The one-character strings of a line feed and of a double quote. *)
Definition nl : string := String LF EmptyString.
Definition dq : string := String "034"%char EmptyString.

(** [lines.join(sep)] *)
Fixpoint join (sep : string) (lines : list string) : string :=
  match lines with
  | [] => EmptyString
  | [x] => x
  | x :: r => x +:+ sep +:+ join sep r
  end.

(** [array.indexOf(x) === -1] on an array of strings. *)
Definition not_in_array (x : string) (l : list string) : bool :=
  forallb (fun y => negb (String.eqb y x)) l.

(** [s] ends in [suffix]. *)
Definition ends_with (suffix s : string) : bool :=
  String.eqb
    (String.substring (String.length s - String.length suffix)
       (String.length suffix) s) suffix
  && (String.length suffix <=? String.length s)%nat.

(** [s] is one line: it has no line feed. *)
Definition single_line (s : string) : bool :=
  forallb (fun c => negb (Ascii.eqb c LF)) (list_ascii_of_string s).

(** The first of [files] whose base name is [name]. *)
Definition first_named (name : string) (files : list string) : option string :=
  List.find (fun file => String.eqb (basename file) name) files.

(** A JavaScript string used as a condition. *)
Definition str_truthy (s : string) : bool := negb (String.eqb s "").

(** ** Twig namespaces *)

(** [namespace.split(':', 2)]: the text before the first colon and,
    when there is a colon, the text between the first and the second
    (or the end); what follows a second colon is dropped. *)
Fixpoint before_colon (s : string) : string :=
  match s with
  | EmptyString => EmptyString
  | String c r => if Ascii.eqb c ":"%char then EmptyString
                  else String c (before_colon r)
  end.

Fixpoint after_colon (s : string) : option string :=
  match s with
  | EmptyString => None
  | String c r => if Ascii.eqb c ":"%char then Some r else after_colon r
  end.

Definition split_colon_2 (s : string) : list string :=
  before_colon s ::
  match after_colon s with
  | Some r => [before_colon r]
  | None => []
  end.

(** [this.namespaces] as [prepare] collects it; [resolve] is
    [path.resolve] of one path. *)
Definition namespaces (resolve : string -> string) (builder : string)
    (namespace : list string) : gmap string string :=
  foldl (fun ns namespace =>
           let tokens := split_colon_2 namespace in
           match tokens !! 1 with
           | Some path =>
               if str_truthy path
               then <[default "" (tokens !! 0) := resolve path]> ns
               else ns
           | None => ns
           end)
    {[ "builderTwig" := resolve builder ]} namespace.

(** ** JSON data in a store of mutable objects

    Objects and arrays are mutable and shared by reference; a store is
    the list of all objects allocated so far and a reference is an index
    into it.  Numbers are IEEE doubles in the engine: the type [num] and
    its truthiness and [ToString] are supplied by the host. *)

Inductive prim (num : Type) : Type :=
  | PStr (s : string)
  | PNum (n : num)
  | PBool (b : bool).
Arguments PStr {num} s.
Arguments PNum {num} n.
Arguments PBool {num} b.

Abbreviation loc := nat.

(** [VMarkup p] is the value [Twig.Markup(p)], opaque to the builder. *)
Inductive val (num : Type) : Type :=
  | VNull
  | VPrim (p : prim num)
  | VMarkup (p : prim num)
  | VRef (l : loc).
Arguments VNull {num}.
Arguments VPrim {num} p.
Arguments VMarkup {num} p.
Arguments VRef {num} l.

(** A plain object is its own enumerable properties in enumeration
    order; an array is its elements plus any named properties set on it. *)
Inductive obj (num : Type) : Type :=
  | OObj (fields : list (string * val num))
  | OArr (elems : list (val num)) (props : list (string * val num)).
Arguments OObj {num} fields.
Arguments OArr {num} elems props.

(** A value followed through the store: what [JSON.stringify] writes and
    what a template sees when it reads its context. *)
#[warnings="-register-all"]
Inductive tree (num : Type) : Type :=
  | TNull
  | TPrim (p : prim num)
  | TMarkup (p : prim num)
  | TArr (elems : list (tree num))
  | TObj (fields : list (string * tree num)).
Arguments TNull {num}.
Arguments TPrim {num} p.
Arguments TMarkup {num} p.
Arguments TArr {num} elems.
Arguments TObj {num} fields.

(** ** Twig templates *)

Inductive source : Type :=
  | FromData (data : string)
  | FromPath (path : string).

Record template : Type := Template { tpl_id : string; tpl_src : source }.

(** The options [twigAsync] compiles a template from: [{id, data}] or
    [{id, path}].  The third shape, [{ref}], fetches a compiled template
    and is [twigAsync_ref] below. *)
Inductive twig_options : Type :=
  | TwigData (id data : string)
  | TwigPath (id path : string).

(** A settled promise. *)
Inductive result (A : Type) : Type :=
  | Ok (a : A)
  | Err (e : string).
Arguments Ok {A} a.
Arguments Err {A} e.

(** [Promise.all] over promises that fulfil with [results]: the promise
    at index [i] fills slot [i] of the result when it settles, and
    [order] lists the indices in the order the promises settle.  The
    array is handed on once every slot is filled. *)
Fixpoint settle {A} (results : list A) (order : list nat)
    (slots : list (option A)) : list (option A) :=
  match order with
  | [] => slots
  | i :: rest =>
      settle results rest
        (match results !! i with
         | Some r => <[i := Some r]> slots
         | None => slots
         end)
  end.

Definition promise_all_values {A} (results : list A) (order : list nat)
    : option (list A) :=
  mapM id (settle results order (replicate (length results) None)).

(** ** The style guide and the builder's records *)

Record KssModifier : Type := {
  m_name : string;
  m_className : string
}.

Record KssSection : Type := {
  s_reference : string;
  s_header : string;
  s_markup : string;
  s_referenceURI : string;
  s_modifiers : list KssModifier
}.

(** The [KssStyleGuide] object as the builder uses it: [sections()],
    [sections(query)] with a wildcard query, [sections(reference)] with
    an exact reference, [hasNumericReferences()] and [meta.files]. *)
Record KssStyleGuide : Type := {
  sg_sections : list KssSection;
  sg_query : string -> list KssSection;
  sg_find : string -> option KssSection;
  sg_hasNumericReferences : bool;
  sg_files : option (list string)
}.

(** [modifier.toJSON()] and [section.toJSON()], with the properties
    [buildPage] adds: [markup] of a modifier, [example] of a section. *)
Record ModifierJSON : Type := {
  mj_name : string;
  mj_className : string;
  mj_markup : option string
}.

Record SectionJSON : Type := {
  j_reference : string;
  j_header : string;
  j_markup : string;
  j_example : option string;
  j_modifiers : list ModifierJSON
}.

(** [this.options], as far as [build] and [buildPage] read it. *)
Record Options : Type := {
  o_source : list string;
  o_destination : string;
  o_builder : string;
  o_homepage : string;
  o_placeholder : string;
  o_verbose : bool;
  o_css : list string;
  o_js : list string
}.

(** The local object [template] of [build]. *)
Record SectionTemplate (num : Type) : Type := {
  t_name : string;
  t_reference : string;
  t_file : string;
  t_markup : string;
  t_context : val num;
  t_exampleName : option string;
  t_exampleFile : string;
  t_exampleContext : val num
}.
Arguments t_name {num} _.
Arguments t_reference {num} _.
Arguments t_file {num} _.
Arguments t_markup {num} _.
Arguments t_context {num} _.
Arguments t_exampleName {num} _.
Arguments t_exampleFile {num} _.
Arguments t_exampleContext {num} _.

(** An entry of [this.userTemplates]; [exampleRef] is [false] or a name. *)
Record TemplateInfo (num : Type) : Type := {
  ti_ref : string;
  ti_context : val num;
  ti_exampleRef : option string;
  ti_exampleContext : val num
}.
Arguments ti_ref {num} _.
Arguments ti_context {num} _.
Arguments ti_exampleRef {num} _.
Arguments ti_exampleContext {num} _.

(** [this.templates]: the page templates, each possibly [undefined]. *)
Record PageTemplates : Type := {
  pt_index : option template;
  pt_section : option template;
  pt_item : option template
}.

(** The context a page template is rendered with. *)
Record PageContext (num menu : Type) : Type := {
  c_templateName : string;
  c_styleGuide : KssStyleGuide;
  c_sections : list SectionJSON;
  c_hasNumericReferences : bool;
  c_userTemplates : gmap string (TemplateInfo num);
  c_options : Options;
  c_styles : string;
  c_scripts : string;
  c_menu : menu;
  c_homepage : option string
}.
Arguments c_templateName {num menu} _.
Arguments c_sections {num menu} _.
Arguments c_homepage {num menu} _.

(** ** The host

    Everything the builder calls and this file does not define: Node's
    [path] module (apart from [basename], above), [glob], [require] of
    a [.json] file, [fs], [marked], the Twig engine, and [createMenu] of
    the base class.  The file system is a snapshot: the functions below
    answer for the files as they are during one build. *)
Record Host : Type := {
  num : Type;
  (** [Boolean(n)] and [String(n)] of a number *)
  num_truthy : num -> bool;
  num_toString : num -> string;
  (** [String(x)] of an object or array, given what it holds *)
  obj_toString : tree num -> string;
  (** [path.dirname], [path.join], [path.resolve], [path.basename(p, ext)] *)
  path_dirname : string -> string;
  path_join : string -> string -> string;
  path_resolve : string -> string -> string;
  path_basename_ext : string -> string -> string;
  (** [glob(pattern)]: the matched paths *)
  glob : string -> list string;
  (** what [require(path)] of a [.json] file evaluates to the first
      time, [None] when it throws *)
  json_file : string -> option (tree num);
  (** [fs.stat(path)] succeeds on a regular file *)
  fs_is_file : string -> bool;
  (** [fs.readFile(path, 'utf8')] *)
  fs_read : string -> option string;
  (** [fs.writeFile(path, data)] succeeds *)
  fs_write_ok : string -> string -> bool;
  (** Twig parses (and, for a path, loads) the source *)
  twig_parses : source -> bool;
  (** [template.render(context)] of a section template: the output, as
      a function of the data the context holds, and what the engine did
      to the store while rendering *)
  render_out : template -> tree num -> option string;
  render_eff : template -> list (obj num) -> val num -> list (obj num);
  (** [this.createMenu(pageReference)], which reads [this.styleGuide] *)
  menu : Type;
  createMenu : KssStyleGuide -> option string -> menu;
  (** [template.render(context)] of a page template *)
  render_page : template -> PageContext num menu -> option string;
  (** [marked(text)] *)
  marked : string -> string
}.

(** ** The builder *)

Section Model.

Context (H : Host).

Abbreviation jsval := (val (num H)).
Abbreviation jsobj := (obj (num H)).
Abbreviation jstree := (tree (num H)).
Abbreviation store := (list (obj (num H))).

(** The state one build runs in: the builder's own properties, Twig's
    registry, the store of JSON objects with Node's module cache, and
    what was logged, written and set on sections.  [compiled] lists the
    templates Twig compiled, oldest first. *)
Record Builder : Type := {
  options : Options;
  templates : option PageTemplates;
  userTemplates : gmap string (TemplateInfo (num H));
  registry : gmap string template;
  compiled : list template;
  heap : store;
  modules : gmap string jsval;
  logged : list string;
  written : list (string * string);
  customs : list (string * string)
}.

(** A promise-returning computation: it runs in a builder state and
    settles as fulfilled or rejected, leaving a state behind. *)
Definition M (A : Type) : Type := Builder -> result A * Builder.

Definition ret {A} (a : A) : M A := fun st => (Ok a, st).
Definition reject {A} (e : string) : M A := fun st => (Err e, st).

(** [p.then(k)] *)
Definition bind {A B} (m : M A) (k : A -> M B) : M B :=
  fun st =>
    match m st with
    | (Ok a, st') => k a st'
    | (Err e, st') => (Err e, st')
    end.

(** [p.catch(k)] *)
Definition catch {A} (m : M A) (k : M A) : M A :=
  fun st =>
    match m st with
    | (Ok a, st') => (Ok a, st')
    | (Err _, st') => k st'
    end.

(** [Promise.all(tasks)]: every task runs, in the order the tasks were
    created; the result is rejected when one of them is. *)
Fixpoint promise_all {A} (tasks : list (M A)) : M (list A) :=
  match tasks with
  | [] => ret []
  | t :: rest =>
      fun st =>
        match t st with
        | (Ok a, st1) =>
            match promise_all rest st1 with
            | (Ok l, st2) => (Ok (a :: l), st2)
            | (Err e, st2) => (Err e, st2)
            end
        | (Err e, st1) => (Err e, snd (promise_all rest st1))
        end
  end.

Definition get : M Builder := fun st => (Ok st, st).
Definition modify (f : Builder -> Builder) : M unit := fun st => (Ok tt, f st).

Notation "x <- m ;; k" := (bind m (fun x => k))
  (at level 100, m at next level, right associativity).
Notation "m ;;; k" := (bind m (fun _ => k))
  (at level 100, right associativity).

Definition set_templates (t : option PageTemplates) (st : Builder) : Builder :=
  {| options := options st; templates := t;
     userTemplates := userTemplates st; registry := registry st;
     compiled := compiled st; heap := heap st; modules := modules st;
     logged := logged st; written := written st; customs := customs st |}.

Definition set_userTemplates (u : gmap string (TemplateInfo (num H)))
    (st : Builder) : Builder :=
  {| options := options st; templates := templates st;
     userTemplates := u; registry := registry st;
     compiled := compiled st; heap := heap st; modules := modules st;
     logged := logged st; written := written st; customs := customs st |}.

Definition set_registry (r : gmap string template) (c : list template)
    (st : Builder) : Builder :=
  {| options := options st; templates := templates st;
     userTemplates := userTemplates st; registry := r;
     compiled := c; heap := heap st; modules := modules st;
     logged := logged st; written := written st; customs := customs st |}.

Definition set_heap (h : store) (st : Builder) : Builder :=
  {| options := options st; templates := templates st;
     userTemplates := userTemplates st; registry := registry st;
     compiled := compiled st; heap := h; modules := modules st;
     logged := logged st; written := written st; customs := customs st |}.

Definition set_modules (m : gmap string jsval) (st : Builder) : Builder :=
  {| options := options st; templates := templates st;
     userTemplates := userTemplates st; registry := registry st;
     compiled := compiled st; heap := heap st; modules := m;
     logged := logged st; written := written st; customs := customs st |}.

Definition set_logged (l : list string) (st : Builder) : Builder :=
  {| options := options st; templates := templates st;
     userTemplates := userTemplates st; registry := registry st;
     compiled := compiled st; heap := heap st; modules := modules st;
     logged := l; written := written st; customs := customs st |}.

Definition set_written (w : list (string * string)) (st : Builder) : Builder :=
  {| options := options st; templates := templates st;
     userTemplates := userTemplates st; registry := registry st;
     compiled := compiled st; heap := heap st; modules := modules st;
     logged := logged st; written := w; customs := customs st |}.

Definition set_customs (c : list (string * string)) (st : Builder) : Builder :=
  {| options := options st; templates := templates st;
     userTemplates := userTemplates st; registry := registry st;
     compiled := compiled st; heap := heap st; modules := modules st;
     logged := logged st; written := written st; customs := c |}.

(** [this.log(line)] *)
Definition log (line : string) : M unit :=
  modify (fun st => set_logged (logged st ++ [line]) st).

(** *** Values in the store *)

Fixpoint get_field (key : string) (fs : list (string * jsval)) : option jsval :=
  match fs with
  | [] => None
  | (k, x) :: r => if String.eqb k key then Some x else get_field key r
  end.

Fixpoint set_field (key : string) (v : jsval) (fs : list (string * jsval))
    : list (string * jsval) :=
  match fs with
  | [] => [(key, v)]
  | (k, x) :: r =>
      if String.eqb k key then (k, v) :: r else (k, x) :: set_field key v r
  end.

(** The value read through the store, [None] when [fuel] nested
    objects do not reach its leaves (a cycle) or a reference dangles. *)
Fixpoint reify (fuel : nat) (h : store) (v : jsval) : option jstree :=
  match fuel with
  | 0 => None
  | S k =>
      match v with
      | VNull => Some TNull
      | VPrim p => Some (TPrim p)
      | VMarkup p => Some (TMarkup p)
      | VRef l =>
          match h !! l with
          | Some (OObj fs) =>
              TObj <$> mapM (fun kv => pair (fst kv) <$> reify k h (snd kv)) fs
          | Some (OArr es _) => TArr <$> mapM (reify k h) es
          | None => None
          end
      end
  end.

(** [JSON.stringify] writes a [Twig.Markup] string as the string. *)
Fixpoint unmark (t : jstree) : jstree :=
  match t with
  | TNull => TNull
  | TPrim p => TPrim p
  | TMarkup p => TPrim p
  | TArr ts => TArr (map unmark ts)
  | TObj fs => TObj (map (fun kv => (fst kv, unmark (snd kv))) fs)
  end.

(** [JSON.stringify(v)]: a cycle is a [TypeError]. *)
Definition JSON_stringify (h : store) (v : jsval) : option jstree :=
  unmark <$> reify (S (length h)) h v.

Definition alloc_list (f : jstree -> store -> store * jsval) :=
  fix go (ts : list jstree) (h : store) : store * list jsval :=
    match ts with
    | [] => (h, [])
    | t :: r =>
        let '(h1, v) := f t h in
        let '(h2, vs) := go r h1 in (h2, v :: vs)
    end.

Definition alloc_fields (f : jstree -> store -> store * jsval) :=
  fix go (fs : list (string * jstree)) (h : store)
      : store * list (string * jsval) :=
    match fs with
    | [] => (h, [])
    | kv :: r =>
        let '(h1, v) := f (snd kv) h in
        let '(h2, vs) := go r h1 in (h2, (fst kv, v) :: vs)
    end.

(** [JSON.parse] of the text of [t]: every array and object of [t] is a
    new object of the store. *)
Fixpoint JSON_parse (t : jstree) (h : store) : store * jsval :=
  match t with
  | TNull => (h, VNull)
  | TPrim p => (h, VPrim p)
  | TMarkup p => (h, VPrim p)
  | TArr ts =>
      let '(h1, vs) := alloc_list JSON_parse ts h in
      (h1 ++ [OArr vs []], VRef (length h1))
  | TObj fs =>
      let '(h1, fvs) := alloc_fields JSON_parse fs h in
      (h1 ++ [OObj fvs], VRef (length h1))
  end.

(** [{}] *)
Definition new_object : M jsval :=
  fun st => (Ok (VRef (length (heap st))), set_heap (heap st ++ [OObj []]) st).

(** [JSON.parse(JSON.stringify(v))] *)
Definition JSON_copy (v : jsval) : M jsval :=
  fun st =>
    match JSON_stringify (heap st) v with
    | Some t =>
        let '(h, w) := JSON_parse t (heap st) in (Ok w, set_heap h st)
    | None => (Err "TypeError: Converting circular structure to JSON", st)
    end.

(** [require(path)] of a [.json] file: Node evaluates the file once
    and hands out the same object afterwards. *)
Definition require_json (path : string) : M jsval :=
  fun st =>
    match modules st !! path with
    | Some v => (Ok v, st)
    | None =>
        match json_file H path with
        | Some t =>
            let '(h, v) := JSON_parse t (heap st) in
            (Ok v, set_modules (<[path := v]> (modules st)) (set_heap h st))
        | None => (Err ("Cannot find module " +:+ path), st)
        end
    end.

(** [Boolean(v)] and [String(v)]; [None] is [undefined]. *)
Definition prim_truthy (p : prim (num H)) : bool :=
  match p with
  | PStr s => str_truthy s
  | PNum n => num_truthy H n
  | PBool b => b
  end.

Definition prim_toString (p : prim (num H)) : string :=
  match p with
  | PStr s => s
  | PNum n => num_toString H n
  | PBool b => if b then "true" else "false"
  end.

Definition js_truthy (v : option jsval) : bool :=
  match v with
  | None | Some VNull => false
  | Some (VPrim p) | Some (VMarkup p) => prim_truthy p
  | Some (VRef _) => true
  end.

Definition js_toString (h : store) (v : option jsval) : string :=
  match v with
  | None => "undefined"
  | Some VNull => "null"
  | Some (VPrim p) | Some (VMarkup p) => prim_toString p
  | Some (VRef l) =>
      match reify (S (length h)) h (VRef l) with
      | Some t => obj_toString H t
      | None => "[object Object]"
      end
  end.

(** [data[key]] for a property name that is not an array index.  On
    [null] it throws; a primitive has no such property. *)
Definition get_prop (data : jsval) (key : string) : M (option jsval) :=
  fun st =>
    match data with
    | VRef l =>
        match heap st !! l with
        | Some (OObj fs) => (Ok (get_field key fs), st)
        | Some (OArr _ ps) => (Ok (get_field key ps), st)
        | None => (Err "dangling reference", st)
        end
    | VNull => (Err "TypeError: Cannot read properties of null", st)
    | VPrim _ => (Ok None, st)
    | VMarkup _ => (Err "property of a Twig.Markup value", st)
    end.

(** [data[key] = v] in strict mode: a primitive cannot take a property. *)
Definition set_prop (data : jsval) (key : string) (v : jsval) : M unit :=
  fun st =>
    match data with
    | VRef l =>
        match heap st !! l with
        | Some (OObj fs) =>
            (Ok tt, set_heap (<[l := OObj (set_field key v fs)]> (heap st)) st)
        | Some (OArr es ps) =>
            (Ok tt, set_heap (<[l := OArr es (set_field key v ps)]> (heap st)) st)
        | None => (Err "dangling reference", st)
        end
    | VNull => (Err "TypeError: Cannot set properties of null", st)
    | VPrim _ => (Err "TypeError: Cannot create property", st)
    | VMarkup _ => (Err "property of a Twig.Markup value", st)
    end.

(** *** [safeMarkup] *)

Fixpoint map_store (f : store -> jsval -> option (store * jsval))
    (h : store) (vs : list jsval) : option (store * list jsval) :=
  match vs with
  | [] => Some (h, [])
  | v :: r =>
      match f h v with
      | Some (h1, w) =>
          match map_store f h1 r with
          | Some (h2, ws) => Some (h2, w :: ws)
          | None => None
          end
      | None => None
      end
  end.

(** [for (let key in input) input[key] = safeMarkup(input[key])] on the
    object at [l]: its properties are taken in enumeration order, from
    the [i]-th on, [n] of them; each is read, marked and written back. *)
Fixpoint mark_fields (f : store -> jsval -> option (store * jsval))
    (l : loc) (i n : nat) (h : store) : option store :=
  match n with
  | 0 => Some h
  | S n' =>
      match h !! l with
      | Some (OObj fs) =>
          match fs !! i with
          | Some (key, x) =>
              match f h x with
              | Some (h1, w) =>
                  match h1 !! l with
                  | Some (OObj fs1) =>
                      mark_fields f l (S i) n'
                        (<[l := OObj (<[i := (key, w)]> fs1)]> h1)
                  | _ => None
                  end
              | None => None
              end
          | None => None
          end
      | _ => None
      end
  end.

(** [safeMarkup(input)]: strings, numbers and booleans become
    [Twig.Markup] values; an array is mapped into a new array; an
    object has its properties replaced in place.  [None] when the
    recursion does not end within [fuel] levels (cyclic data), on a
    dangling reference, and on a value that already is a [Twig.Markup]
    (no call passes one: each call is given a fresh [JSON.parse]
    result). *)
Fixpoint safeMarkup (fuel : nat) (h : store) (input : jsval)
    : option (store * jsval) :=
  match fuel with
  | 0 => None
  | S k =>
      match input with
      | VPrim p => Some (h, VMarkup p)
      | VNull => Some (h, VNull)
      | VMarkup _ => None
      | VRef l =>
          match h !! l with
          | Some (OArr es _) =>
              match map_store (safeMarkup k) h es with
              | Some (h1, ws) => Some (h1 ++ [OArr ws []], VRef (length h1))
              | None => None
              end
          | Some (OObj fs) =>
              match mark_fields (safeMarkup k) l 0 (length fs) h with
              | Some h1 => Some (h1, VRef l)
              | None => None
              end
          | None => None
          end
      end
  end.

(** *** The Twig engine *)

(** [Twig.twig(options)] with an [id]: the id must be free in the
    registry (Twig keeps its cache on), the source must parse, and the
    template is then registered. *)
Definition Twig_twig (t : template) : M template :=
  fun st =>
    match registry st !! tpl_id t with
    | Some _ =>
        (Err ("There is already a template with the ID " +:+ tpl_id t), st)
    | None =>
        if twig_parses H (tpl_src t)
        then (Ok t, set_registry (<[tpl_id t := t]> (registry st))
                      (compiled st ++ [t]) st)
        else (Err "Twig: unable to compile the template", st)
    end.

(** [this.Twig.registryReset()] *)
Definition registryReset : M unit :=
  modify (fun st => set_registry ∅ (compiled st) st).

(** [this.Twig.twigAsync(options)] with [data] or [path].  With an
    empty [data] the test [options.data || options.ref] fails and the
    path branch runs without a path. *)
Definition twigAsync (o : twig_options) : M template :=
  match o with
  | TwigData id data =>
      if str_truthy data then Twig_twig (Template id (FromData data))
      else reject "TypeError: path must be a string"
  | TwigPath id path =>
      if fs_is_file H path then Twig_twig (Template id (FromPath path))
      else reject ("Unable to find template file " +:+ path)
  end.

(** [this.Twig.twigAsync({ref: ref})]: the registered template, or
    [null] ([None]) when the registry has none under [ref]. *)
Definition twigAsync_ref (ref : string) : M (option template) :=
  if str_truthy ref then fun st => (Ok (registry st !! ref), st)
  else reject "TypeError: path must be a string".

(** [template.render(this.safeMarkup(data))] *)
Definition render (t : option template) (data : jsval) : M string :=
  fun st =>
    match t with
    | None => (Err "TypeError: Cannot read properties of null", st)
    | Some t =>
        match safeMarkup (S (length (heap st))) (heap st) data with
        | None => (Err "RangeError: safeMarkup", st)
        | Some (h1, v) =>
            match reify (S (length h1)) h1 v with
            | None => (Err "RangeError: render", set_heap h1 st)
            | Some ctx =>
                match render_out H t ctx with
                | Some out => (Ok out, set_heap (render_eff H t h1 v) st)
                | None => (Err "Twig: unable to render", set_heap h1 st)
                end
            end
        end
    end.

(** *** [buildPage]: rendering the sections of a page *)

Definition toJSON_modifier (m : KssModifier) : ModifierJSON :=
  {| mj_name := m_name m; mj_className := m_className m; mj_markup := None |}.

Definition toJSON (s : KssSection) : SectionJSON :=
  {| j_reference := s_reference s; j_header := s_header s;
     j_markup := s_markup s; j_example := None;
     j_modifiers := map toJSON_modifier (s_modifiers s) |}.

(** [x || ''] *)
Definition or_empty (x : option jsval) : jsval :=
  match x with
  | Some v => if js_truthy x then v else VPrim (PStr "")
  | None => VPrim (PStr "")
  end.

Definition opt_truthy (o : option string) : bool :=
  match o with
  | Some s => str_truthy s
  | None => false
  end.

(** A statement list run to its first exception. *)
Fixpoint forEachM {A B} (f : A -> M B) (l : list A) : M (list B) :=
  match l with
  | [] => ret []
  | a :: r => b <- f a ;; bs <- forEachM f r ;; ret (b :: bs)
  end.

(** The data the markup and the example are rendered with: a copy of
    the stored context whose [modifier_class] is its own value, or the
    empty string, with the placeholder appended when the section has
    modifiers and the placeholder option is set. *)
Definition placeholder_data (context : jsval) (section : SectionJSON)
    : M jsval :=
  data <- JSON_copy context ;;
  mc <- get_prop data "modifier_class" ;;
  set_prop data "modifier_class" (or_empty mc) ;;;
  st <- get ;;
  if negb (Nat.eqb (length (j_modifiers section)) 0)
     && str_truthy (o_placeholder (options st))
  then
    mc <- get_prop data "modifier_class" ;;
    set_prop data "modifier_class"
      (VPrim (PStr (js_toString (heap st) mc
                    +:+ (if js_truthy mc then " " else "")
                    +:+ o_placeholder (options st)))) ;;;
    ret data
  else ret data.

(** The data one modifier is rendered with. *)
Definition modifier_data (templateContext : jsval) (modifier : ModifierJSON)
    : M jsval :=
  data <- JSON_copy templateContext ;;
  mc <- get_prop data "modifier_class" ;;
  st <- get ;;
  set_prop data "modifier_class"
    (VPrim (PStr ((if js_truthy mc then js_toString (heap st) mc +:+ " "
                   else "")
                  +:+ mj_className modifier))) ;;;
  ret data.

Definition set_markup (markup : string) (s : SectionJSON) : SectionJSON :=
  {| j_reference := j_reference s; j_header := j_header s;
     j_markup := markup; j_example := j_example s;
     j_modifiers := j_modifiers s |}.

Definition set_example (example : string) (s : SectionJSON) : SectionJSON :=
  {| j_reference := j_reference s; j_header := j_header s;
     j_markup := j_markup s; j_example := Some example;
     j_modifiers := j_modifiers s |}.

Definition set_modifiers (ms : list ModifierJSON) (s : SectionJSON)
    : SectionJSON :=
  {| j_reference := j_reference s; j_header := j_header s;
     j_markup := j_markup s; j_example := j_example s;
     j_modifiers := ms |}.

Definition render_modifier (template : option template)
    (templateContext : jsval) (modifier : ModifierJSON) : M ModifierJSON :=
  data <- modifier_data templateContext modifier ;;
  out <- render template data ;;
  ret {| mj_name := mj_name modifier; mj_className := mj_className modifier;
         mj_markup := Some out |}.

(** The callback of [context.sections.map] in [buildPage]. *)
Definition render_section (section : SectionJSON) : M SectionJSON :=
  if str_truthy (j_markup section) then
    st <- get ;;
    match userTemplates st !! j_reference section with
    | None => reject "TypeError: Cannot read properties of undefined"
    | Some templateInfo =>
        template <- twigAsync_ref (ti_ref templateInfo) ;;
        data <- placeholder_data (ti_context templateInfo) section ;;
        markup <- render template data ;;
        let section := set_example markup (set_markup markup section) in
        let '(getExampleTemplate, templateContext) :=
          if opt_truthy (ti_exampleRef templateInfo)
          then (twigAsync_ref (default "" (ti_exampleRef templateInfo)),
                ti_exampleContext templateInfo)
          else (ret template, ti_context templateInfo) in
        template <- getExampleTemplate ;;
        section <-
          (if opt_truthy (ti_exampleRef templateInfo) then
             data <- placeholder_data templateContext section ;;
             example <- render template data ;;
             ret (set_example example section)
           else ret section) ;;
        ms <- forEachM (render_modifier template templateContext)
                (j_modifiers section) ;;
        ret (set_modifiers ms section)
    end
  else ret section.

(** *** [build]: the page templates *)

Definition no_templates : PageTemplates :=
  {| pt_index := None; pt_section := None; pt_item := None |}.

Definition the_templates (st : Builder) : PageTemplates :=
  default no_templates (templates st).

Definition set_index (t : option template) : M unit :=
  modify (fun st =>
    set_templates (Some {| pt_index := t;
                           pt_section := pt_section (the_templates st);
                           pt_item := pt_item (the_templates st) |}) st).

Definition set_section (t : option template) : M unit :=
  modify (fun st =>
    set_templates (Some {| pt_index := pt_index (the_templates st);
                           pt_section := t;
                           pt_item := pt_item (the_templates st) |}) st).

Definition set_item (t : option template) : M unit :=
  modify (fun st =>
    set_templates (Some {| pt_index := pt_index (the_templates st);
                           pt_section := pt_section (the_templates st);
                           pt_item := t |}) st).

Definition builder_path (file : string) : M string :=
  fun st => (Ok (path_resolve H (o_builder (options st)) file), st).

(** The promise [loadTask]; [now] is [this.templates] when [build]
    begins, which decides the templates to load. *)
Definition loadTask (now : PageTemplates) : M unit :=
  let loadTask :=
    match pt_index now with
    | None =>
        path <- builder_path "index.twig" ;;
        template <- twigAsync (TwigPath "@builderTwig/index.twig" path) ;;
        set_index (Some template)
    | Some _ => ret tt
    end in
  let loadTask :=
    match pt_section now with
    | None =>
        loadTask ;;;
        catch
          (path <- builder_path "section.twig" ;;
           template <- twigAsync (TwigPath "@builderTwig/section.twig" path) ;;
           set_section (Some template))
          (st <- get ;; set_section (pt_index (the_templates st)))
    | Some _ => loadTask
    end in
  match pt_item now with
  | None =>
      loadTask ;;;
      catch
        (path <- builder_path "item.twig" ;;
         template <- twigAsync (TwigPath "@builderTwig/item.twig" path) ;;
         set_item (Some template))
        (st <- get ;;
         set_item (match pt_section (the_templates st) with
                   | Some t => Some t
                   | None => pt_index (the_templates st)
                   end))
  | Some _ => loadTask
  end.

(** *** [build]: the section templates *)

Abbreviation section_template := (SectionTemplate (num H)).

Definition set_name (name : string) (exampleName : option string) (file : string)
    (t : section_template) : section_template :=
  {| t_name := name; t_reference := t_reference t; t_file := file;
     t_markup := t_markup t; t_context := t_context t;
     t_exampleName := exampleName; t_exampleFile := t_exampleFile t;
     t_exampleContext := t_exampleContext t |}.

Definition set_files (file exampleFile : string) (t : section_template)
    : section_template :=
  {| t_name := t_name t; t_reference := t_reference t; t_file := file;
     t_markup := t_markup t; t_context := t_context t;
     t_exampleName := t_exampleName t; t_exampleFile := exampleFile;
     t_exampleContext := t_exampleContext t |}.

Definition set_template_markup (markup : string) (t : section_template)
    : section_template :=
  {| t_name := t_name t; t_reference := t_reference t; t_file := t_file t;
     t_markup := markup; t_context := t_context t;
     t_exampleName := t_exampleName t; t_exampleFile := t_exampleFile t;
     t_exampleContext := t_exampleContext t |}.

Definition set_context (context : jsval) (t : section_template)
    : section_template :=
  {| t_name := t_name t; t_reference := t_reference t; t_file := t_file t;
     t_markup := t_markup t; t_context := context;
     t_exampleName := t_exampleName t; t_exampleFile := t_exampleFile t;
     t_exampleContext := t_exampleContext t |}.

Definition set_exampleContext (context : jsval) (t : section_template)
    : section_template :=
  {| t_name := t_name t; t_reference := t_reference t; t_file := t_file t;
     t_markup := t_markup t; t_context := t_context t;
     t_exampleName := t_exampleName t; t_exampleFile := t_exampleFile t;
     t_exampleContext := context |}.

(** [compileInline(template)] *)
Definition compileInline (template : section_template) : M section_template :=
  twigAsync (TwigData (t_name template) (t_markup template)) ;;;
  ret template.

(** [saveTemplate(template)] *)
Definition saveTemplate (template : section_template) : M unit :=
  modify (fun st =>
    set_userTemplates
      (<[t_reference template :=
           {| ti_ref := t_name template;
              ti_context := t_context template;
              ti_exampleRef :=
                if str_truthy (t_exampleFile template)
                then t_exampleName template else None;
              ti_exampleContext := t_exampleContext template |}]>
         (userTemplates st)) st).

(** What the loops over [globMatches] keep: the two flags, the two
    paths written into [template], and the pushes to
    [compileTemplates]. *)
Inductive job : Type :=
  | LoadTemplate (file : string)
  | LoadExample (file : string)
  | Inline
  | EmptyTemplate.

Record Search : Type := {
  foundTemplate : bool;
  foundExample : bool;
  found_file : string;
  found_exampleFile : string;
  compileTemplates : list job
}.

(** The body of [for (let file of files)]. *)
Definition visit_file (name exampleName : string) (s : Search) (file : string)
    : Search :=
  let filename := basename file in
  if negb (foundTemplate s) && String.eqb filename name then
    {| foundTemplate := true; foundExample := foundExample s;
       found_file := file; found_exampleFile := found_exampleFile s;
       compileTemplates := compileTemplates s ++ [LoadTemplate file] |}
  else if negb (foundExample s) && String.eqb filename exampleName then
    {| foundTemplate := foundTemplate s; foundExample := true;
       found_file := found_file s; found_exampleFile := file;
       compileTemplates := compileTemplates s ++ [LoadExample file] |}
  else s.

(** The body of [for (let files of globMatches)]. *)
Definition visit_files (name exampleName : string) (s : Search)
    (files : list string) : Search :=
  if negb (foundTemplate s) || negb (foundExample s)
  then foldl (visit_file name exampleName) s files
  else s.

Definition search (name exampleName file : string)
    (globMatches : list (list string)) : Search :=
  foldl (visit_files name exampleName)
    {| foundTemplate := false; foundExample := false;
       found_file := file; found_exampleFile := "";
       compileTemplates := [] |}
    globMatches.

(** [path.join(path.dirname(file), path.basename(name, '.twig') + '.json')] *)
Definition json_path (file name : string) : string :=
  path_join H (path_dirname H file)
    (path_basename_ext H name ".twig" +:+ ".json").

(** One entry of [compileTemplates]; what it does to the object
    [template] when it settles is returned as an update. *)
Definition run_job (template : section_template) (j : job)
    : M (section_template -> section_template) :=
  match j with
  | LoadTemplate file =>
      twigAsync (TwigPath (t_name template) file) ;;;
      context <- catch (require_json (json_path file (t_name template)))
                   new_object ;;
      ret (set_context context)
  | LoadExample file =>
      twigAsync (TwigPath (default "" (t_exampleName template)) file) ;;;
      context <- catch (require_json
                          (json_path file (default "" (t_exampleName template))))
                   new_object ;;
      ret (set_exampleContext context)
  | Inline => compileInline template ;;; ret id
  | EmptyTemplate =>
      twigAsync (TwigData (t_name template)
                   "{# Cannot be an empty string. #}") ;;;
      ret id
  end.

(** The callback given the settled [globMatches]. *)
Definition resolve_file (template : section_template)
    (globMatches : list (list string)) : M section_template :=
  let s := search (t_name template) (default "" (t_exampleName template))
             (t_file template) globMatches in
  let template := set_files (found_file s) (found_exampleFile s) template in
  st <- get ;;
  let verbose := o_verbose (options st) in
  found <-
    (if negb (foundTemplate s) && negb (foundExample s) then
       let template :=
         set_template_markup (t_markup template +:+ " NOT FOUND!") template in
       (if negb verbose
        then log ("WARNING: In section " +:+ t_reference template +:+ ", "
                  +:+ t_markup template)
        else ret tt) ;;;
       ret (template, compileTemplates s ++ [Inline])
     else if negb (foundTemplate s) then
       ret (template, compileTemplates s ++ [EmptyTemplate])
     else ret (template, compileTemplates s)) ;;
  let '(template, jobs) := found in
  (if verbose
   then log (" - " +:+ t_reference template +:+ ": " +:+ t_markup template)
   else ret tt) ;;;
  updates <- promise_all (map (run_job template) jobs) ;;
  ret (foldl (fun t u => u t) template updates).

(** The two searches pushed to [findTemplates] for one source: the
    file, then its example. *)
Definition root_searches (file name source : string) : list (list string) :=
  [glob H (source +:+ "/**/" +:+ file);
   glob H (source +:+ "/**/kss-example-" +:+ name)].

(** What the searches of [findTemplates] fulfil with, source after
    source in the order of [this.options.source]. *)
Definition findTemplates (sources : list string) (file name : string)
    : list (list string) :=
  flat_map (root_searches file name) sources.

(** The first file called [n] that the searches under [source] find. *)
Definition root_first (n file name source : string) : option string :=
  first_named n (concat (root_searches file name source)).

(** Section 4.1 of the design: the first source, in configured order,
    under which a file called [n] is found, with that file. *)
Fixpoint first_root (n file name : string) (sources : list string)
    : option (string * string) :=
  match sources with
  | [] => None
  | source :: rest =>
      match root_first n file name source with
      | Some f => Some (source, f)
      | None => first_root n file name rest
      end
  end.

(** The paths [compileTemplates] loads a template, and an example,
    from. *)
Definition loads_of (jobs : list job) : list string :=
  omap (fun j => match j with LoadTemplate f => Some f | _ => None end) jobs.

Definition examples_of (jobs : list job) : list string :=
  omap (fun j => match j with LoadExample f => Some f | _ => None end) jobs.

(** The body of [sections.forEach]: the root is recorded, and a
    section with markup adds one task to [buildTasks]. *)
Definition start_section (sectionRoots : list string) (section : KssSection)
    : M (list string * list (M unit)) :=
  let currentRoot := first_token (s_reference section) in
  let sectionRoots :=
    if not_in_array currentRoot sectionRoots
    then sectionRoots ++ [currentRoot] else sectionRoots in
  if negb (str_truthy (s_markup section)) then ret (sectionRoots, [])
  else
    context <- new_object ;;
    exampleContext <- new_object ;;
    let template : section_template :=
      {| t_name := s_reference section; t_reference := s_reference section;
         t_file := ""; t_markup := s_markup section; t_context := context;
         t_exampleName := None; t_exampleFile := "";
         t_exampleContext := exampleContext |} in
    st <- get ;;
    if negb (markup_is_file (t_markup template)) then
      (if o_verbose (options st)
       then log (" - " +:+ t_reference template +:+ ": inline markup")
       else ret tt) ;;;
      ret (sectionRoots,
           [template <- compileInline template ;; saveTemplate template])
    else
      modify (fun st =>
        set_customs (customs st ++ [(s_reference section, t_markup template)])
          st) ;;;
      let name := basename (t_markup template) in
      let template :=
        set_name name (Some ("kss-example-" +:+ name)) (t_markup template)
          template in
      let globs := findTemplates (o_source (options st)) (t_file template)
                     (t_name template) in
      ret (sectionRoots,
           [template <- resolve_file template globs ;; saveTemplate template]).

Fixpoint start_sections (sectionRoots : list string)
    (sections : list KssSection) : M (list string * list (M unit)) :=
  match sections with
  | [] => ret (sectionRoots, [])
  | section :: rest =>
      r <- start_section sectionRoots section ;;
      r' <- start_sections (fst r) rest ;;
      ret (fst r', snd r ++ snd r')
  end.

(** *** [buildPage] *)

Abbreviation page_context := (PageContext (num H) (menu H)).

(** [files[0]] of the first non-empty entry of [globMatches]. *)
Fixpoint first_match (globMatches : list (list string)) : option string :=
  match globMatches with
  | [] => None
  | [] :: rest => first_match rest
  | (file :: _) :: _ => Some file
  end.

(** The promise [getHomepageText] of the homepage, with the Markdown
    conversion that follows it. *)
Definition homepage_text : M string :=
  st <- get ;;
  let opts := options st in
  let globMatches :=
    map (fun source => glob H (source +:+ "/**/" +:+ o_homepage opts))
      (o_source opts) in
  text <-
    match first_match globMatches with
    | Some file =>
        match fs_read H file with
        | Some text => ret text
        | None => reject ("ENOENT: " +:+ file)
        end
    | None =>
        (if o_verbose opts
         then log ("   ...no homepage content found in "
                   +:+ o_homepage opts +:+ ".")
         else log ("WARNING: no homepage content found in "
                   +:+ o_homepage opts +:+ ".")) ;;;
        ret ""
    end ;;
  ret (if str_truthy text then marked H text else "").

Definition page_template (templateName : string) (t : PageTemplates)
    : option template :=
  if String.eqb templateName "index" then pt_index t
  else if String.eqb templateName "section" then pt_section t
  else if String.eqb templateName "item" then pt_item t
  else None.

(** [fs.writeFile(path, data)] *)
Definition writeFile (path data : string) : M unit :=
  if fs_write_ok H path data
  then modify (fun st => set_written (written st ++ [(path, data)]) st)
  else reject ("EACCES: " +:+ path).

(** [this.buildPage(templateName, pageReference, sections)], called
    without a [context] as [build] does. *)
Definition buildPage (styleGuide : KssStyleGuide) (templateName : string)
    (pageReference : option string) (sections : list KssSection) : M unit :=
  sections <- promise_all (map render_section (map toJSON sections)) ;;
  st <- get ;;
  let opts := options st in
  let styles :=
    foldl (fun acc href =>
             acc +:+ "<link rel=" +:+ dq +:+ "stylesheet" +:+ dq
                 +:+ " href=" +:+ dq +:+ href +:+ dq +:+ ">" +:+ nl)
      "" (o_css opts) in
  let scripts :=
    foldl (fun acc src =>
             acc +:+ "<script src=" +:+ dq +:+ src +:+ dq
                 +:+ "></script>" +:+ nl)
      "" (o_js opts) in
  let menu := createMenu H styleGuide pageReference in
  uri <-
    (if opt_truthy pageReference then
       match styleGuide.(sg_find) (default "" pageReference) with
       | None => reject "TypeError: rootSection.header is not a function"
       | Some rootSection =>
           (if o_verbose opts
            then log (" - " +:+ templateName +:+ " "
                      +:+ default "" pageReference +:+ " ["
                      +:+ (if str_truthy (s_header rootSection)
                           then s_header rootSection else "Unnamed")
                      +:+ "]")
            else ret tt) ;;;
           ret (Some (s_referenceURI rootSection))
       end
     else
       (if o_verbose opts then log " - homepage" else ret tt) ;;;
       ret pageReference) ;;
  let fileName :=
    templateName +:+ (if opt_truthy uri then "-" +:+ default "" uri else "")
                 +:+ ".html" in
  homepage <-
    (if negb (String.eqb templateName "index") then ret None
     else text <- homepage_text ;; ret (Some text)) ;;
  st <- get ;;
  let context : page_context :=
    {| c_templateName := templateName; c_styleGuide := styleGuide;
       c_sections := sections;
       c_hasNumericReferences := sg_hasNumericReferences styleGuide;
       c_userTemplates := userTemplates st; c_options := opts;
       c_styles := styles; c_scripts := scripts; c_menu := menu;
       c_homepage := homepage |} in
  match page_template templateName (the_templates st) with
  | None => reject "TypeError: Cannot read properties of undefined"
  | Some template =>
      match render_page H template context with
      | Some body => writeFile (path_join H (o_destination opts) fileName) body
      | None => reject "Twig: unable to render the page"
      end
  end.

(** *** [build] *)

(** The calls of [buildPage] that [build] makes: the homepage, one
    page per root reference, and one page per section when an item
    template is there. *)
Definition page_plan (styleGuide : KssStyleGuide) (sectionRoots : list string)
    (t : PageTemplates) : list (string * option string * list KssSection) :=
  ("index", None, [])
  :: map (fun rootReference =>
            ("section", Some rootReference,
             sg_query styleGuide (rootReference +:+ ".*")))
       sectionRoots
  ++ (match pt_item t with
      | Some _ =>
          map (fun section => ("item", Some (s_reference section), [section]))
            (sg_sections styleGuide)
      | None => []
      end).

Definition build (styleGuide : KssStyleGuide) : M KssStyleGuide :=
  modify (set_userTemplates ∅) ;;;
  modify (fun st =>
    match templates st with
    | None => set_templates (Some no_templates) st
    | Some _ => st
    end) ;;;
  registryReset ;;;
  st <- get ;;
  let opts := options st in
  let loadTask := loadTask (the_templates st) in
  let sections := sg_sections styleGuide in
  (match o_verbose opts, sg_files styleGuide with
   | true, Some files =>
       log (join nl (map (fun file => " - " +:+ file) files))
   | _, _ => ret tt
   end) ;;;
  (if o_verbose opts then log "...Determining section markup:" else ret tt) ;;;
  started <- start_sections [] sections ;;
  let '(sectionRoots, tasks) := started in
  promise_all (loadTask :: tasks) ;;;
  (if o_verbose opts then log "...Building style guide pages:" else ret tt) ;;;
  st <- get ;;
  let buildPageTasks :=
    map (fun page => buildPage styleGuide (fst (fst page)) (snd (fst page))
                       (snd page))
      (page_plan styleGuide sectionRoots (the_templates st)) in
  promise_all buildPageTasks ;;;
  ret styleGuide.

(** A computation that leaves [this.templates] as it found it. *)
Definition keeps_templates {A} (m : M A) : Prop :=
  forall st, templates (snd (m st)) = templates st.

(** [this.templates] with its three page templates set. *)
Definition all_loaded (t : option PageTemplates) : Prop :=
  exists index section item,
    t = Some {| pt_index := Some index; pt_section := Some section;
                pt_item := Some item |}.

(** The page templates of the builder directory. *)
Definition index_twig (st : Builder) : template :=
  Template "@builderTwig/index.twig"
    (FromPath (path_resolve H (o_builder (options st)) "index.twig")).

Definition section_twig (st : Builder) : template :=
  Template "@builderTwig/section.twig"
    (FromPath (path_resolve H (o_builder (options st)) "section.twig")).

Definition item_twig (st : Builder) : template :=
  Template "@builderTwig/item.twig"
    (FromPath (path_resolve H (o_builder (options st)) "item.twig")).

(** A page template can be loaded from [path]. *)
Definition loadable (path : string) : bool :=
  fs_is_file H path && twig_parses H (FromPath path).

(** ** Contexts as data

    The same steps on the data a context holds, for stating what a
    template is rendered with. *)

Fixpoint get_tfield (key : string) (fs : list (string * jstree))
    : option jstree :=
  match fs with
  | [] => None
  | (k, x) :: r => if String.eqb k key then Some x else get_tfield key r
  end.

Fixpoint set_tfield (key : string) (v : jstree) (fs : list (string * jstree))
    : list (string * jstree) :=
  match fs with
  | [] => [(key, v)]
  | (k, x) :: r =>
      if String.eqb k key then (k, v) :: r else (k, x) :: set_tfield key v r
  end.

Definition tree_truthy (t : option jstree) : bool :=
  match t with
  | None | Some TNull => false
  | Some (TPrim p) | Some (TMarkup p) => prim_truthy p
  | Some (TArr _) | Some (TObj _) => true
  end.

Definition tree_toString (t : option jstree) : string :=
  match t with
  | None => "undefined"
  | Some TNull => "null"
  | Some (TPrim p) | Some (TMarkup p) => prim_toString p
  | Some t => obj_toString H t
  end.

(** Every string, number and boolean wrapped by [Twig.Markup]. *)
Fixpoint mark (t : jstree) : jstree :=
  match t with
  | TNull => TNull
  | TPrim p => TMarkup p
  | TMarkup p => TMarkup p
  | TArr ts => TArr (map mark ts)
  | TObj fs => TObj (map (fun kv => (fst kv, mark (snd kv))) fs)
  end.

Fixpoint depth (t : jstree) : nat :=
  match t with
  | TArr ts => S (foldr (fun t n => Nat.max (depth t) n) 0 ts)
  | TObj fs => S (foldr (fun kv n => Nat.max (depth (snd kv)) n) 0 fs)
  | _ => 0
  end.

(** The placeholder rule on the fields of an object context. *)
Definition placeholder_fields (fs : list (string * jstree))
    (has_modifiers : bool) (placeholder : string)
    : list (string * jstree) :=
  let mc := get_tfield "modifier_class" fs in
  let mc := if tree_truthy mc then default TNull mc else TPrim (PStr "") in
  let fs := set_tfield "modifier_class" mc fs in
  if has_modifiers && str_truthy placeholder
  then set_tfield "modifier_class"
         (TPrim (PStr (tree_toString (Some mc)
                       +:+ (if tree_truthy (Some mc) then " " else "")
                       +:+ placeholder))) fs
  else fs.

(** The modifier rule on the fields of an object context. *)
Definition modifier_fields (fs : list (string * jstree)) (className : string)
    : list (string * jstree) :=
  let mc := get_tfield "modifier_class" fs in
  set_tfield "modifier_class"
    (TPrim (PStr ((if tree_truthy mc then tree_toString mc +:+ " " else "")
                  +:+ className))) fs.

(** *** The renderer on data

    Section 4.5 of the design, as a function of what the registry and
    the stored contexts hold: the markup is the main template on the
    main context under the placeholder rule; the example is the example
    template on the example context under the same rule, or the markup
    when there is no example; each modifier is the example template
    (else the main one) on the example context (else the main one)
    under the modifier rule. *)

Abbreviation fields := (list (string * jstree)).

Record Resolved : Type := {
  r_template : template;
  r_fields : fields;
  r_example : option (template * fields)
}.

Definition render_as (t : template) (fs : fields) : option string :=
  render_out H t (mark (TObj fs)).

Definition has_modifiers (section : SectionJSON) : bool :=
  negb (Nat.eqb (length (j_modifiers section)) 0).

Definition modifier_spec (t : template) (fs : fields) (m : ModifierJSON)
    : option ModifierJSON :=
  match render_as t (modifier_fields fs (mj_className m)) with
  | Some out =>
      Some {| mj_name := mj_name m; mj_className := mj_className m;
              mj_markup := Some out |}
  | None => None
  end.

Definition renderer (r : Resolved) (placeholder : string)
    (section : SectionJSON) : option SectionJSON :=
  let has := has_modifiers section in
  match render_as (r_template r) (placeholder_fields (r_fields r) has placeholder) with
  | None => None
  | Some markup =>
      let example :=
        match r_example r with
        | Some (te, fe) => render_as te (placeholder_fields fe has placeholder)
        | None => Some markup
        end in
      let '(tm, fm) := default (r_template r, r_fields r) (r_example r) in
      match example, mapM (modifier_spec tm fm) (j_modifiers section) with
      | Some example, Some ms =>
          Some {| j_reference := j_reference section;
                  j_header := j_header section;
                  j_markup := markup; j_example := Some example;
                  j_modifiers := ms |}
      | _, _ => None
      end
  end.

(** The fields of the object a stored context holds. *)
Definition stored_fields (h : store) (context : jsval) : option fields :=
  match JSON_stringify h context with
  | Some (TObj fs) => Some fs
  | _ => None
  end.

(** What a template record resolves to in a builder state. *)
Definition resolved (st : Builder) (info : TemplateInfo (num H))
    : option Resolved :=
  if str_truthy (ti_ref info) then
    match registry st !! ti_ref info, stored_fields (heap st) (ti_context info) with
    | Some t, Some fs =>
        if opt_truthy (ti_exampleRef info) then
          match registry st !! default "" (ti_exampleRef info),
                stored_fields (heap st) (ti_exampleContext info) with
          | Some te, Some fe =>
              Some {| r_template := t; r_fields := fs;
                      r_example := Some (te, fe) |}
          | _, _ => None
          end
        else Some {| r_template := t; r_fields := fs; r_example := None |}
    | _, _ => None
    end
  else None.

(** *** Values that occupy a region of the store *)

Definition all2 {A B} (R : A -> B -> Prop) :=
  fix go (xs : list A) (ys : list B) : Prop :=
    match xs, ys with
    | [], [] => True
    | x :: xs, y :: ys => R x y /\ go xs ys
    | _, _ => False
    end.

Definition chain {A B} (R : A -> B -> nat -> nat -> Prop) :=
  fix go (xs : list A) (ys : list B) (lo hi : nat) : Prop :=
    match xs, ys with
    | [], [] => lo <= hi
    | x :: xs, y :: ys =>
        exists a b, lo <= a /\ a <= b /\ R x y a b /\ go xs ys b hi
    | _, _ => False
    end.

(** [sees P h t v]: followed through the store [h], the value [v] holds
    the data [t], and the objects it is read from are all in [P]. *)
Fixpoint sees (P : loc -> Prop) (h : store) (t : jstree) (v : jsval) : Prop :=
  match t, v with
  | TNull, VNull => True
  | TPrim p, VPrim q => p = q
  | TMarkup p, VMarkup q => p = q
  | TArr ts, VRef l =>
      P l /\ exists es ps, h !! l = Some (OArr es ps) /\ all2 (sees P h) ts es
  | TObj fs, VRef l =>
      P l /\ exists fvs, h !! l = Some (OObj fvs) /\
        all2 (fun ft fv => fst ft = fst fv /\ sees P h (snd ft) (snd fv)) fs fvs
  | _, _ => False
  end.

(** [shape h t v lo hi]: [v] holds the unmarked data [t] as a tree of
    objects of its own, laid out in [[lo, hi)] the way [JSON.parse]
    allocates: the parts of an object one after the other, below it. *)
Fixpoint shape (h : store) (t : jstree) (v : jsval) (lo hi : nat) : Prop :=
  match t, v with
  | TNull, VNull => lo <= hi
  | TPrim p, VPrim q => p = q /\ lo <= hi
  | TArr ts, VRef l =>
      lo <= l < hi /\ exists es ps, h !! l = Some (OArr es ps) /\
        chain (shape h) ts es lo l
  | TObj fs, VRef l =>
      lo <= l < hi /\ exists fvs, h !! l = Some (OObj fvs) /\
        chain (fun ft fv a b => fst ft = fst fv /\ shape h (snd ft) (snd fv) a b)
          fs fvs lo l
  | _, _ => False
  end.

(** The objects a marked context is read from: those of the region
    [[lo, hi)] it was laid out in, and those [safeMarkup] added to a
    store of [n] objects, now of [n']. *)
Definition marked_in (lo hi n n' : nat) (x : loc) : Prop :=
  lo <= x < hi \/ n <= x < n'.

(** What the engine may do to the store while it renders: it leaves
    alone every object that the context it was given does not lead to,
    and it removes none. *)
Definition engine_frame : Prop :=
  forall (t : template) (h : store) (v : jsval) (P : loc -> Prop) (ctx : jstree),
    sees P h ctx v ->
    length h <= length (render_eff H t h v) /\
    forall l, l < length h -> ~ P l -> render_eff H t h v !! l = h !! l.

(** ** What a build leaves behind

    Predicates and functions for stating what whole builds and pages do:
    invariants of the builder state, the section roots, the file of a
    page. *)

(** A computation that keeps the property [I] of the builder state. *)
Definition preserves {A} (I : Builder -> Prop) (m : M A) : Prop :=
  forall st, I st -> I (snd (m st)).

(** A promise that fulfils with values in [P] only. *)
Definition fulfils {A} (m : M A) (P : A -> Prop) : Prop :=
  forall st a st', m st = (Ok a, st') -> P a.

(** An update of the object [template] that leaves its reference, its
    names, its example file and its markup alone. *)
Definition keeps_names
    (u : SectionTemplate (num H) -> SectionTemplate (num H)) : Prop :=
  forall t, t_reference (u t) = t_reference t /\
            t_name (u t) = t_name t /\
            t_exampleName (u t) = t_exampleName t /\
            t_exampleFile (u t) = t_exampleFile t /\
            t_markup (u t) = t_markup t.

(** [sectionRoots] once [sections.forEach] is through. *)
Definition add_root (sectionRoots : list string) (section : KssSection)
    : list string :=
  let currentRoot := first_token (s_reference section) in
  if not_in_array currentRoot sectionRoots
  then sectionRoots ++ [currentRoot] else sectionRoots.

Definition section_roots (sections : list KssSection) : list string :=
  foldl add_root [] sections.

(** [fileName] of [buildPage]. *)
Definition page_fileName (styleGuide : KssStyleGuide) (templateName : string)
    (pageReference : option string) : string :=
  let uri :=
    if opt_truthy pageReference
    then s_referenceURI <$> sg_find styleGuide (default "" pageReference)
    else pageReference in
  templateName +:+ (if opt_truthy uri then "-" +:+ default "" uri else "")
               +:+ ".html".

(** The file [buildPage] writes the page to. *)
Definition page_path (st : Builder) (styleGuide : KssStyleGuide)
    (page : string * option string * list KssSection) : string :=
  path_join H (o_destination (options st))
    (page_fileName styleGuide (fst (fst page)) (snd (fst page))).

(** Since [st0] the options are the same and nothing was written. *)
Definition unwritten (st0 st : Builder) : Prop :=
  options st = options st0 /\ written st = written st0.

(** What a page task started in [st0] may end in: fulfilled with one
    file written, to [path], or rejected with nothing written. *)
Definition one_file (st0 : Builder) (path : string)
    (r : result unit * Builder) : Prop :=
  options (snd r) = options st0 /\
  match fst r with
  | Ok _ => exists body, written (snd r) = written st0 ++ [(path, body)]
  | Err _ => written (snd r) = written st0
  end.

(** A line of the log that is a warning. *)
Definition is_warning (line : string) : bool :=
  String.prefix "WARNING: " line.

(** A section that [build] registers a template for. *)
Definition has_markup (section : KssSection) : bool :=
  str_truthy (s_markup section).

End Model.

(** ** A host and a style guide to run the builder on

    Two source directories [/a] and [/b]: [button.twig] is in both,
    its example only in [/b]; [card.twig] comes with sample data;
    [missing.twig] is nowhere.  The builder directory has [index.twig]
    only.  The engine prints the template id and the [modifier_class]
    it was given, and empties the context object it was rendering. *)
Module Sample.

Definition files : list string :=
  ["/a/button.twig"; "/b/button.twig"; "/b/kss-example-button.twig";
   "/a/ui/card.twig"; "/builder/index.twig"].

Fixpoint split_globstar (pattern : string) : option (string * string) :=
  if String.prefix "/**/" pattern
  then Some (EmptyString, String.substring 4 (String.length pattern - 4) pattern)
  else
    match pattern with
    | EmptyString => None
    | String c r =>
        match split_globstar r with
        | Some (root, name) => Some (String c root, name)
        | None => None
        end
    end.

(** [root/**/name] matches [root/name] and [root/.../name]. *)
Definition glob_files (pattern : string) : list string :=
  match split_globstar pattern with
  | Some (root, name) =>
      filter (fun file =>
                Is_true (String.prefix (root +:+ "/") file
                         && ends_with ("/" +:+ name) file
                         && (String.length root + 1 + String.length name
                             <=? String.length file)%nat))
        files
  | None => []
  end.

Fixpoint from_slash (l : list ascii) : list ascii :=
  match l with
  | c :: r => if Ascii.eqb c slash then l else from_slash r
  | [] => []
  end.

Definition dirname (p : string) : string :=
  string_of_list_ascii
    (rev (drop 1 (from_slash (rev (list_ascii_of_string p))))).

Definition basename_ext (name ext : string) : string :=
  if ends_with ext name
  then String.substring 0 (String.length name - String.length ext) name
  else name.

Definition join_path (a b : string) : string := a +:+ "/" +:+ b.

Definition sample_json (path : string) : option (tree Z) :=
  if String.eqb path "/a/ui/card.json"
  then Some (TObj [("title", TPrim (PStr "Card"));
                   ("modifier_class", TPrim (PStr "card--wide"));
                   ("tags", TArr [TPrim (PStr "new"); TObj [("n", TPrim (PNum 2%Z))]])])
  else None.

Fixpoint lookup_field (key : string) (fs : list (string * tree Z))
    : option (tree Z) :=
  match fs with
  | [] => None
  | (k, x) :: r => if String.eqb k key then Some x else lookup_field key r
  end.

Definition class_of (ctx : tree Z) : string :=
  match ctx with
  | TObj fs =>
      match lookup_field "modifier_class" fs with
      | Some (TMarkup (PStr s)) => s
      | _ => EmptyString
      end
  | _ => EmptyString
  end.

Definition print_class (t : template) (ctx : tree Z) : option string :=
  Some (tpl_id t +:+ "[" +:+ class_of ctx +:+ "]").

Definition wipe_root (t : template) (h : list (obj Z)) (v : val Z)
    : list (obj Z) :=
  match v with
  | VRef l => <[l := OObj []]> h
  | _ => h
  end.

Definition print_page (t : template) (c : PageContext Z unit) : option string :=
  Some (tpl_id t +:+ " " +:+ c_templateName c +:+ ": "
        +:+ join ", " (map j_markup (c_sections c))).

Definition host : Host :=
  {| num := Z;
     num_truthy := fun z => negb (Z.eqb z 0);
     num_toString := fun z => pretty z;
     obj_toString := fun _ => "[object Object]";
     path_dirname := dirname;
     path_join := join_path;
     path_resolve := join_path;
     path_basename_ext := basename_ext;
     glob := glob_files;
     json_file := sample_json;
     fs_is_file := fun path => bool_decide (path ∈ files);
     fs_read := fun _ => None;
     fs_write_ok := fun _ _ => true;
     twig_parses := fun _ => true;
     render_out := print_class;
     render_eff := wipe_root;
     menu := unit;
     createMenu := fun _ _ => tt;
     render_page := print_page;
     marked := fun text => text |}.

Definition primary : KssModifier :=
  {| m_name := ".primary"; m_className := "primary" |}.

Definition tall : KssModifier :=
  {| m_name := ".tall"; m_className := "tall" |}.

Definition buttons : KssSection :=
  {| s_reference := "1"; s_header := "Buttons"; s_markup := "button.twig";
     s_referenceURI := "1"; s_modifiers := [primary] |}.

Definition badge : KssSection :=
  {| s_reference := "1.1"; s_header := "Badge";
     s_markup := "<b class={{ modifier_class }}>new</b>";
     s_referenceURI := "1-1"; s_modifiers := [primary; tall] |}.

Definition lost : KssSection :=
  {| s_reference := "2"; s_header := "Lost"; s_markup := "missing.twig";
     s_referenceURI := "2"; s_modifiers := [] |}.

Definition card : KssSection :=
  {| s_reference := "2.1"; s_header := "Card"; s_markup := "card.twig";
     s_referenceURI := "2-1"; s_modifiers := [tall] |}.

Definition sections : list KssSection := [buttons; badge; lost; card].

Definition styleGuide : KssStyleGuide :=
  {| sg_sections := sections;
     sg_query := fun query =>
       filter (fun s => Is_true (String.eqb (first_token (s_reference s) +:+ ".*")
                                   query))
         sections;
     sg_find := fun reference =>
       List.find (fun s => String.eqb (s_reference s) reference) sections;
     sg_hasNumericReferences := true;
     sg_files := Some ["/a/styles.css"] |}.

Definition the_options (verbose : bool) (placeholder : string) : Options :=
  {| o_source := ["/a"; "/b"]; o_destination := "/out";
     o_builder := "/builder"; o_homepage := "homepage.md";
     o_placeholder := placeholder; o_verbose := verbose;
     o_css := ["kss.css"]; o_js := [] |}.

(** A builder that has not built anything yet. *)
Definition builder (verbose : bool) (placeholder : string) : Builder host :=
  {| options := the_options verbose placeholder; templates := None;
     userTemplates := ∅; registry := ∅; compiled := []; heap := [];
     modules := ∅; logged := []; written := []; customs := [] |}.

Definition builder0 : Builder host := builder false "[modifier class]".

(** The builder after one build of the style guide. *)
Definition built : Builder host := snd (build host styleGuide builder0).

(** The same with the [verbose] option set. *)
Definition built_verbose : Builder host :=
  snd (build host styleGuide (builder true "[modifier class]")).

(** The stored context of the card section, once built. *)
Definition card_context : val Z :=
  match userTemplates host built !! "2.1" with
  | Some info => ti_context info
  | None => VNull
  end.

(** What the build stored for the buttons section, the templates and the
    context data this resolves to, and the section as rendered. *)
Definition buttons_info : TemplateInfo Z :=
  {| ti_ref := "button.twig";
     ti_context := VRef 8;
     ti_exampleRef := Some "kss-example-button.twig";
     ti_exampleContext := VRef 9 |}.

Definition buttons_resolved : Resolved host :=
  {| r_template := Template "button.twig" (FromPath "/a/button.twig");
     r_fields := [];
     r_example :=
       Some (Template "kss-example-button.twig"
               (FromPath "/b/kss-example-button.twig"), []) |}.

Definition buttons_rendered : SectionJSON :=
  {| j_reference := "1";
     j_header := "Buttons";
     j_markup := "button.twig[[modifier class]]";
     j_example := Some "kss-example-button.twig[[modifier class]]";
     j_modifiers :=
       [{| mj_name := ".primary";
           mj_className := "primary";
           mj_markup := Some "kss-example-button.twig[primary]" |}] |}.

(** The same for the card section, which has no example file and whose
    context comes from a sample JSON file. *)
Definition card_info : TemplateInfo Z :=
  {| ti_ref := "card.twig";
     ti_context := VRef 12;
     ti_exampleRef := None;
     ti_exampleContext := VRef 7 |}.

Definition card_fields : list (string * tree (num host)) :=
  [("title", TPrim (PStr "Card"));
   ("modifier_class", TPrim (PStr "card--wide"));
   ("tags", TArr [TPrim (PStr "new"); TObj [("n", TPrim (PNum 2%Z))]])].

Definition card_resolved : Resolved host :=
  {| r_template := Template "card.twig" (FromPath "/a/ui/card.twig");
     r_fields := card_fields;
     r_example := None |}.

Definition card_rendered : SectionJSON :=
  {| j_reference := "2.1";
     j_header := "Card";
     j_markup := "card.twig[card--wide [modifier class]]";
     j_example := Some "card.twig[card--wide [modifier class]]";
     j_modifiers :=
       [{| mj_name := ".tall";
           mj_className := "tall";
           mj_markup := Some "card.twig[card--wide tall]" |}] |}.

(** A builder whose store holds one empty context. *)
Definition with_empty_context : Builder host :=
  set_heap host [OObj []] builder0.

(** A builder whose builder directory has no [index.twig]. *)
Definition builder_without_index : Builder host :=
  {| options :=
       {| o_source := ["/a"; "/b"]; o_destination := "/out";
          o_builder := "/nowhere"; o_homepage := "homepage.md";
          o_placeholder := "[modifier class]"; o_verbose := false;
          o_css := ["kss.css"]; o_js := [] |};
     templates := None; userTemplates := ∅; registry := ∅; compiled := [];
     heap := []; modules := ∅; logged := []; written := []; customs := [] |}.

(** The object [template] of the card section when its searches settle,
    and one for a section whose markup [x/button.twig] is under no root
    while an example for it is. *)
Definition card_template : SectionTemplate Z :=
  {| t_name := "card.twig"; t_reference := "2.1"; t_file := "card.twig";
     t_markup := "card.twig"; t_context := VRef 0;
     t_exampleName := Some "kss-example-card.twig"; t_exampleFile := "";
     t_exampleContext := VRef 1 |}.

Definition orphan_template : SectionTemplate Z :=
  {| t_name := "button.twig"; t_reference := "3"; t_file := "x/button.twig";
     t_markup := "x/button.twig"; t_context := VRef 0;
     t_exampleName := Some "kss-example-button.twig"; t_exampleFile := "";
     t_exampleContext := VRef 1 |}.

End Sample.

(** * Properties *)

(** ** The store: layouts, footprints and deep copies *)

Section StoreShape.
Context (H : Host).
Abbreviation jsval := (val (num H)).
Abbreviation jstree := (tree (num H)).
Abbreviation store := (list (obj (num H))).

Lemma tree_ind' (P : jstree -> Prop) :
  P TNull -> (forall p, P (TPrim p)) -> (forall p, P (TMarkup p)) ->
  (forall ts, Forall P ts -> P (TArr ts)) ->
  (forall fs, Forall (fun kv => P (snd kv)) fs -> P (TObj fs)) ->
  forall t, P t.
Proof.
  intros Hnull Hprim Hmark Harr Hobj.
  fix IH 1. intros [| p | p | ts | fs].
  - exact Hnull.
  - apply Hprim.
  - apply Hmark.
  - apply Harr. induction ts as [| x r IHr]; constructor; [apply IH | exact IHr].
  - apply Hobj. induction fs as [| x r IHr]; constructor; [apply IH | exact IHr].
Qed.

Lemma reify_S fuel (h : store) (v : jsval) :
  reify H (S fuel) h v =
  match v with
  | VNull => Some TNull
  | VPrim p => Some (TPrim p)
  | VMarkup p => Some (TMarkup p)
  | VRef l =>
      match h !! l with
      | Some (OObj fs) =>
          TObj <$> mapM (fun kv => pair (fst kv) <$> reify H fuel h (snd kv)) fs
      | Some (OArr es _) => TArr <$> mapM (reify H fuel h) es
      | None => None
      end
  end.
Proof. reflexivity. Qed.

(** *** Regions *)

Lemma chain_le {A B} (R : A -> B -> nat -> nat -> Prop) xs ys lo hi :
  chain R xs ys lo hi -> lo <= hi.
Proof.
  revert ys lo. induction xs as [| x xs IH]; intros [| y ys] lo; simpl; try tauto.
  intros (a & b & ? & ? & _ & Hr). apply IH in Hr. lia.
Qed.

Lemma chain_weaken {A B} (R : A -> B -> nat -> nat -> Prop) xs ys lo hi lo' hi' :
  chain R xs ys lo hi -> lo' <= lo -> hi <= hi' -> chain R xs ys lo' hi'.
Proof.
  revert ys lo lo'. induction xs as [| x xs IH]; intros [| y ys] lo lo'; simpl;
    try tauto; try lia.
  intros (a & b & ? & ? & HR & Hr) ? ?. exists a, b. repeat split; try lia; auto.
  eapply IH; eauto.
Qed.

Lemma chain_impl {A B} (R R' : A -> B -> nat -> nat -> Prop) xs ys lo hi :
  Forall (fun x => forall y a b, lo <= a -> b <= hi -> R x y a b -> R' x y a b) xs ->
  chain R xs ys lo hi -> chain R' xs ys lo hi.
Proof.
  revert ys lo. induction xs as [| x xs IH]; intros [| y ys] lo HF; simpl; try tauto.
  intros (a & b & ? & ? & HR & Hr).
  apply Forall_cons in HF as [Hx HF].
  pose proof (chain_le _ _ _ _ _ Hr).
  exists a, b. repeat split; auto.
  apply IH; auto. eapply Forall_impl; [exact HF |].
  simpl. intros x' Hx' y' a' b' ? ?. apply Hx'; lia.
Qed.

Lemma shape_le (h : store) t v lo hi : shape H h t v lo hi -> lo <= hi.
Proof.
  destruct t, v; simpl; try tauto; try lia.
Qed.

Lemma shape_weaken (h : store) t v lo hi lo' hi' :
  shape H h t v lo hi -> lo' <= lo -> hi <= hi' -> shape H h t v lo' hi'.
Proof.
  destruct t, v; simpl; try tauto; try lia.
  - intros [? ?] ? ?. split; [auto | lia].
  - intros (? & es & ps & ? & Hc) ? ?. split; [lia |]. exists es, ps. split; auto.
    eapply chain_weaken; eauto.
  - intros (? & fvs & ? & Hc) ? ?. split; [lia |]. exists fvs. split; auto.
    eapply chain_weaken; eauto.
Qed.

Lemma shape_agree (h h' : store) t : forall v lo hi,
  shape H h t v lo hi ->
  (forall x, lo <= x < hi -> h' !! x = h !! x) ->
  shape H h' t v lo hi.
Proof.
  induction t as [| p | p | ts IH | fs IH] using tree_ind'; intros [| q | q | l] lo hi;
    simpl; try tauto.
  - intros (? & es & ps & Hl & Hc) Hag. split; [lia |]. exists es, ps.
    split; [rewrite Hag; [auto | lia] |].
    eapply chain_impl; [| exact Hc].
    eapply Forall_impl; [exact IH |]. simpl.
    intros t Ht y a b ? ? Hs. apply Ht; auto. intros; apply Hag; lia.
  - intros (? & fvs & Hl & Hc) Hag. split; [lia |]. exists fvs.
    split; [rewrite Hag; [auto | lia] |].
    eapply chain_impl; [| exact Hc].
    eapply Forall_impl; [exact IH |]. simpl.
    intros t Ht y a b ? ? [? Hs]. split; auto. apply Ht; auto. intros; apply Hag; lia.
Qed.

Lemma chain_shape_agree (h h' : store) ts vs lo hi :
  chain (shape H h) ts vs lo hi ->
  (forall x, lo <= x < hi -> h' !! x = h !! x) ->
  chain (shape H h') ts vs lo hi.
Proof.
  intros Hc Hag. eapply chain_impl; [| exact Hc].
  apply Forall_forall. intros t _ y a b ? ? Hs.
  eapply shape_agree; eauto. intros; apply Hag; lia.
Qed.

Lemma chain_fshape_agree (h h' : store) (fs : list (string * jstree))
    (fvs : list (string * jsval)) lo hi :
  chain (fun ft fv a b => fst ft = fst fv /\ shape H h (snd ft) (snd fv) a b)
    fs fvs lo hi ->
  (forall x, lo <= x < hi -> h' !! x = h !! x) ->
  chain (fun ft fv a b => fst ft = fst fv /\ shape H h' (snd ft) (snd fv) a b)
    fs fvs lo hi.
Proof.
  intros Hc Hag. eapply chain_impl; [| exact Hc].
  apply Forall_forall. intros t _ y a b ? ? [? Hs]. split; auto.
  eapply shape_agree; eauto. intros; apply Hag; lia.
Qed.

Lemma lookup_app_lt (h ext : store) x : x < length h -> (h ++ ext) !! x = h !! x.
Proof. intros. by apply lookup_app_l. Qed.

Lemma JSON_parse_shape t : forall (h h' : store) v,
  JSON_parse H t h = (h', v) ->
  (exists ext, h' = h ++ ext) /\
  shape H h' (unmark H t) v (length h) (length h').
Proof.
  induction t as [| p | p | ts IH | fs IH] using tree_ind'; intros h h' v; simpl.
  - intros [= <- <-]. split; [exists nil; by rewrite app_nil_r | simpl; lia].
  - intros [= <- <-]. split; [exists nil; by rewrite app_nil_r | simpl; auto].
  - intros [= <- <-]. split; [exists nil; by rewrite app_nil_r | simpl; auto].
  - destruct (alloc_list H (JSON_parse H) ts h) as [h1 vs] eqn:Hal.
    intros [= <- <-].
    assert ((exists ext, h1 = h ++ ext) /\
            chain (shape H h1) (map (unmark H) ts) vs (length h) (length h1))
      as [[ext ->] Hc].
    { clear -IH Hal. revert h h1 vs Hal.
      induction ts as [| t r IHr]; intros h h1 vs; simpl.
      - intros [= <- <-]. split; [exists nil; by rewrite app_nil_r | lia].
      - apply Forall_cons in IH as [Ht Hr].
        destruct (JSON_parse H t h) as [ha v] eqn:Ha.
        destruct (alloc_list H (JSON_parse H) r ha) as [h2 vs'] eqn:Hb.
        intros [= <- <-].
        destruct (Ht _ _ _ Ha) as [[e1 ->] Hs].
        destruct (IHr Hr _ _ _ Hb) as [[e2 ->] Hc].
        split; [exists (e1 ++ e2); by rewrite app_assoc |].
        exists (length h), (length (h ++ e1)). repeat split; auto.
        + rewrite length_app; lia.
        + eapply shape_agree; [exact Hs |]. intros x Hx. apply lookup_app_lt. lia. }
    split; [exists (ext ++ [OArr vs []]); by rewrite app_assoc |].
    simpl. split; [rewrite !length_app; simpl; lia |].
    exists vs, nil. split.
    + rewrite lookup_app_r by lia. by rewrite Nat.sub_diag.
    + eapply chain_shape_agree; [exact Hc |]. intros x Hx. apply lookup_app_lt. lia.
  - destruct (alloc_fields H (JSON_parse H) fs h) as [h1 fvs] eqn:Hal.
    intros [= <- <-].
    assert ((exists ext, h1 = h ++ ext) /\
            chain (fun ft fv a b => fst ft = fst fv /\
                                    shape H h1 (snd ft) (snd fv) a b)
              (map (fun kv => (fst kv, unmark H (snd kv))) fs) fvs
              (length h) (length h1))
      as [[ext ->] Hc].
    { clear -IH Hal. revert h h1 fvs Hal.
      induction fs as [| t r IHr]; intros h h1 vs; simpl.
      - intros [= <- <-]. split; [exists nil; by rewrite app_nil_r | lia].
      - apply Forall_cons in IH as [Ht Hr].
        destruct (JSON_parse H (snd t) h) as [ha v] eqn:Ha.
        destruct (alloc_fields H (JSON_parse H) r ha) as [h2 vs'] eqn:Hb.
        intros [= <- <-].
        destruct (Ht _ _ _ Ha) as [[e1 ->] Hs].
        destruct (IHr Hr _ _ _ Hb) as [[e2 ->] Hc].
        split; [exists (e1 ++ e2); by rewrite app_assoc |].
        exists (length h), (length (h ++ e1)). repeat split; auto.
        + rewrite length_app; lia.
        + eapply shape_agree; [exact Hs |]. intros x Hx. apply lookup_app_lt. lia. }
    split; [exists (ext ++ [OObj fvs]); by rewrite app_assoc |].
    simpl. split; [rewrite !length_app; simpl; lia |].
    exists fvs. split.
    + rewrite lookup_app_r by lia. by rewrite Nat.sub_diag.
    + eapply chain_fshape_agree; [exact Hc |]. intros x Hx. apply lookup_app_lt. lia.
Qed.

Lemma all2_impl {A B} (R R' : A -> B -> Prop) xs ys :
  Forall (fun x => forall y, R x y -> R' x y) xs ->
  all2 R xs ys -> all2 R' xs ys.
Proof.
  revert ys. induction xs as [| x xs IH]; intros [| y ys] HF; simpl; try tauto.
  apply Forall_cons in HF as [Hx HF]. intros [? ?]. split; auto.
Qed.

Lemma all2_Forall2 {A B} (R : A -> B -> Prop) xs ys :
  all2 R xs ys <-> Forall2 R xs ys.
Proof.
  revert ys. induction xs as [| x xs IH]; intros [| y ys]; simpl.
  - split; auto.
  - split; [tauto | inversion 1].
  - split; [tauto | inversion 1].
  - rewrite IH. split; [intros []; by constructor | by inversion 1].
Qed.

Lemma sees_mono (P Q : loc -> Prop) (h : store) t : forall v,
  (forall x, P x -> Q x) -> sees H P h t v -> sees H Q h t v.
Proof.
  induction t as [| p | p | ts IH | fs IH] using tree_ind'; intros [| q | q | l] HPQ;
    simpl; try tauto.
  - intros (? & es & ps & Hl & Ha). split; auto. exists es, ps. split; auto.
    eapply all2_impl; [| exact Ha]. eapply Forall_impl; [exact IH |].
    simpl; intros; auto.
  - intros (? & fvs & Hl & Ha). split; auto. exists fvs. split; auto.
    eapply all2_impl; [| exact Ha]. eapply Forall_impl; [exact IH |].
    simpl. intros t Ht y [? ?]. split; auto.
Qed.

Lemma sees_agree (P : loc -> Prop) (h h' : store) t : forall v,
  (forall x, P x -> h' !! x = h !! x) -> sees H P h t v -> sees H P h' t v.
Proof.
  induction t as [| p | p | ts IH | fs IH] using tree_ind'; intros [| q | q | l] Hag;
    simpl; try tauto.
  - intros (? & es & ps & Hl & Ha). split; auto. exists es, ps.
    split; [by rewrite Hag |].
    eapply all2_impl; [| exact Ha]. eapply Forall_impl; [exact IH |].
    simpl; intros; auto.
  - intros (? & fvs & Hl & Ha). split; auto. exists fvs.
    split; [by rewrite Hag |].
    eapply all2_impl; [| exact Ha]. eapply Forall_impl; [exact IH |].
    simpl. intros t Ht y [? ?]. split; auto.
Qed.

Lemma chain_all2 {A B} (R : A -> B -> nat -> nat -> Prop) (R' : A -> B -> Prop)
    xs ys lo hi :
  Forall (fun x => forall y a b, lo <= a -> b <= hi -> R x y a b -> R' x y) xs ->
  chain R xs ys lo hi -> all2 R' xs ys.
Proof.
  revert ys lo. induction xs as [| x xs IH]; intros [| y ys] lo HF; simpl; try tauto.
  intros (a & b & ? & ? & HR & Hr).
  apply Forall_cons in HF as [Hx HF].
  pose proof (chain_le _ _ _ _ _ Hr).
  split; [eapply Hx; eauto |].
  eapply IH; [| exact Hr]. eapply Forall_impl; [exact HF |].
  simpl. intros x' Hx' y' a' b' ? ?. apply Hx'; lia.
Qed.

Lemma shape_sees (h : store) t : forall v lo hi,
  shape H h t v lo hi -> sees H (fun x => lo <= x < hi) h t v.
Proof.
  induction t as [| p | p | ts IH | fs IH] using tree_ind'; intros [| q | q | l] lo hi;
    simpl; try tauto.
  - intros (? & es & ps & Hl & Hc). split; auto. exists es, ps. split; auto.
    eapply chain_all2; [| exact Hc]. eapply Forall_impl; [exact IH |].
    simpl. intros t Ht y a b ? ? Hs. eapply sees_mono; [| apply Ht; exact Hs].
    simpl. lia.
  - intros (? & fvs & Hl & Hc). split; auto. exists fvs. split; auto.
    eapply chain_all2; [| exact Hc]. eapply Forall_impl; [exact IH |].
    simpl. intros t Ht y a b ? ? [? Hs]. split; auto.
    eapply sees_mono; [| apply Ht; exact Hs]. simpl. lia.
Qed.

Lemma shape_depth (h : store) t : forall v lo hi,
  shape H h t v lo hi -> depth H t <= hi - lo.
Proof.
  induction t as [| p | p | ts IH | fs IH] using tree_ind'; intros [| q | q | l] lo hi;
    simpl; try tauto; try lia.
  - intros (? & es & ps & _ & Hc).
    enough (foldr (fun t n => Nat.max (depth H t) n) 0 ts <= l - lo) by lia.
    clear -IH Hc. revert es lo Hc.
    induction ts as [| t r IHr]; intros [| e es] lo; simpl; try tauto; try lia.
    apply Forall_cons in IH as [Ht Hr].
    intros (a & b & ? & ? & Hs & Hc).
    apply Ht in Hs. pose proof (chain_le _ _ _ _ _ Hc).
    specialize (IHr Hr _ _ Hc). lia.
  - intros (? & fvs & _ & Hc).
    enough (foldr (fun kv n => Nat.max (depth H (snd kv)) n) 0 fs <= l - lo) by lia.
    clear -IH Hc. revert fvs lo Hc.
    induction fs as [| t r IHr]; intros [| e es] lo; simpl; try tauto; try lia.
    apply Forall_cons in IH as [Ht Hr].
    intros (a & b & ? & ? & [_ Hs] & Hc).
    apply Ht in Hs. pose proof (chain_le _ _ _ _ _ Hc).
    specialize (IHr Hr _ _ Hc). lia.
Qed.

Lemma sees_reify (P : loc -> Prop) (h : store) t : forall v fuel,
  sees H P h t v -> depth H t < fuel -> reify H fuel h v = Some t.
Proof.
  induction t as [| p | p | ts IH | fs IH] using tree_ind'; intros [| q | q | l] fuel;
    simpl; try tauto; (destruct fuel as [| k]; [lia |]); simpl;
    try (intros; congruence).
  - intros (_ & es & ps & Hl & Ha) Hd. rewrite Hl.
    enough (mapM (reify H k h) es = Some ts) as -> by done.
    apply mapM_Some. apply all2_Forall2 in Ha.
    assert (Hd' : foldr (fun t n => Nat.max (depth H t) n) 0 ts < k) by lia.
    clear -IH Ha Hd'. induction Ha as [| t e ts es Hte Ha IHa]; [constructor |].
    apply Forall_cons in IH as [Ht Hr]. simpl in Hd'.
    constructor; [apply Ht; [exact Hte | lia] | apply IHa; [exact Hr | lia]].
  - intros (_ & fvs & Hl & Ha) Hd. rewrite Hl.
    enough (mapM (fun kv => pair (fst kv) <$> reify H k h (snd kv)) fvs = Some fs)
      as -> by done.
    apply mapM_Some. apply all2_Forall2 in Ha.
    assert (Hd' : foldr (fun kv n => Nat.max (depth H (snd kv)) n) 0 fs < k) by lia.
    clear -IH Ha Hd'. induction Ha as [| t e ts es [Hk Hte] Ha IHa]; [constructor |].
    apply Forall_cons in IH as [Ht Hr]. simpl in Hd'.
    constructor; [| apply IHa; [exact Hr | lia]].
    rewrite (Ht _ k Hte) by lia. simpl. rewrite <- Hk. by destruct t.
Qed.

Lemma reify_stable fuel : forall (h h' : store) v t fuel',
  reify H fuel h v = Some t ->
  (forall x, x < length h -> h' !! x = h !! x) ->
  fuel <= fuel' ->
  reify H fuel' h' v = Some t.
Proof.
  induction fuel as [| k IH]; intros h h' v t fuel' Hr Hag Hf; [discriminate |].
  destruct fuel' as [| k']; [lia |].
  rewrite reify_S in Hr. rewrite reify_S. destruct v as [| p | p | l]; auto.
  destruct (h !! l) as [o |] eqn:Hl; [| discriminate].
  rewrite Hag by (eapply lookup_lt_Some; eauto). rewrite Hl.
  destruct o as [fs | es ps].
  - destruct (mapM _ fs) as [ts |] eqn:Hm; [| discriminate].
    simpl in Hr. injection Hr as <-.
    enough (mapM (fun kv => pair (fst kv) <$> reify H k' h' (snd kv)) fs = Some ts)
      as -> by done.
    apply mapM_Some. apply mapM_Some in Hm.
    eapply Forall2_impl; [exact Hm |]. simpl. intros kv y Hy.
    destruct (reify H k h (snd kv)) as [t' |] eqn:Ht; [| discriminate].
    erewrite IH; eauto. lia.
  - destruct (mapM _ es) as [ts |] eqn:Hm; [| discriminate].
    simpl in Hr. injection Hr as <-.
    enough (mapM (reify H k' h') es = Some ts) as -> by done.
    apply mapM_Some. apply mapM_Some in Hm.
    eapply Forall2_impl; [exact Hm |]. simpl. intros e y Hy.
    eapply IH; eauto. lia.
Qed.

Lemma safeMarkup_S fuel (h : store) (input : jsval) :
  safeMarkup H (S fuel) h input =
  match input with
  | VPrim p => Some (h, VMarkup p)
  | VNull => Some (h, VNull)
  | VMarkup _ => None
  | VRef l =>
      match h !! l with
      | Some (OArr es _) =>
          match map_store H (safeMarkup H fuel) h es with
          | Some (h1, ws) => Some (h1 ++ [OArr ws []], VRef (length h1))
          | None => None
          end
      | Some (OObj fs) =>
          match mark_fields H (safeMarkup H fuel) l 0 (length fs) h with
          | Some h1 => Some (h1, VRef l)
          | None => None
          end
      | None => None
      end
  end.
Proof. reflexivity. Qed.

Lemma chain_length {A B} (R : A -> B -> nat -> nat -> Prop) xs ys lo hi :
  chain R xs ys lo hi -> length xs = length ys.
Proof.
  revert ys lo. induction xs as [| x xs IH]; intros [| y ys] lo; simpl; try tauto.
  intros (a & b & _ & _ & _ & Hr). f_equal. eauto.
Qed.

(** [safeMarkup] on elements laid out in [[a, l)]. *)
Lemma map_store_shape k l (ts : list jstree) :
  Forall (fun t => forall (h : store) v lo hi,
            shape H h t v lo hi -> hi <= length h -> depth H t < k ->
            exists h' v', safeMarkup H k h v = Some (h', v') /\
              length h <= length h' /\
              (forall x, x < length h -> ~ (lo <= x < hi) -> h' !! x = h !! x) /\
              sees H (marked_in lo hi (length h) (length h')) h' (mark H t) v') ts ->
  forall (es : list jsval) (h : store) a,
    chain (shape H h) ts es a l -> l <= length h ->
    foldr (fun t n => Nat.max (depth H t) n) 0 ts < k ->
    exists h1 ws, map_store H (safeMarkup H k) h es = Some (h1, ws) /\
      length h <= length h1 /\
      (forall x, x < length h -> ~ (a <= x < l) -> h1 !! x = h !! x) /\
      all2 (sees H (marked_in a l (length h) (length h1)) h1) (map (mark H) ts) ws.
Proof.
  induction ts as [| t r IHr]; intros IH [| e es] h a; simpl; try tauto.
  - intros _ _ _. exists h, nil. repeat split; auto.
  - apply Forall_cons in IH as [Ht Hr].
    intros (a1 & b1 & Ha1 & Hab & Hs & Hc) Hl Hd.
    pose proof (chain_le _ _ _ _ _ Hc) as Hb1.
    destruct (Ht h e a1 b1 Hs ltac:(lia) ltac:(lia))
      as (h2 & w & -> & Hlen2 & Hfr2 & Hsee2).
    assert (Hc2 : chain (shape H h2) r es b1 l).
    { eapply chain_shape_agree; [exact Hc |]. intros x Hx. apply Hfr2; lia. }
    destruct (IHr Hr es h2 b1 Hc2 ltac:(lia) ltac:(lia))
      as (h3 & ws & -> & Hlen3 & Hfr3 & Hsee3).
    exists h3, (w :: ws). repeat split; try lia.
    + intros x Hx Hn. rewrite Hfr3 by lia. apply Hfr2; lia.
    + eapply sees_mono; [| eapply sees_agree; [| exact Hsee2]].
      * unfold marked_in. lia.
      * unfold marked_in. intros x Hx. apply Hfr3; lia.
    + eapply all2_impl; [| exact Hsee3]. apply Forall_forall.
      intros t' _ y. apply sees_mono. unfold marked_in. lia.
Qed.

Lemma insert_middle {A} (l1 l2 : list A) x y :
  <[length l1 := y]> (l1 ++ x :: l2) = l1 ++ y :: l2.
Proof. induction l1 as [| a l1 IH]; simpl; [done | by rewrite IH]. Qed.

(** [safeMarkup] on the properties of the object at [l], laid out in
    [[a, l)], the properties before them being [done]. *)
Lemma mark_fields_shape k l (fs : list (string * jstree)) :
  Forall (fun kv => forall (h : store) v lo hi,
            shape H h (snd kv) v lo hi -> hi <= length h -> depth H (snd kv) < k ->
            exists h' v', safeMarkup H k h v = Some (h', v') /\
              length h <= length h' /\
              (forall x, x < length h -> ~ (lo <= x < hi) -> h' !! x = h !! x) /\
              sees H (marked_in lo hi (length h) (length h')) h' (mark H (snd kv)) v')
    fs ->
  forall (fvs done : list (string * jsval)) (h : store) a,
    h !! l = Some (OObj (done ++ fvs)) ->
    chain (fun ft fv a b => fst ft = fst fv /\ shape H h (snd ft) (snd fv) a b)
      fs fvs a l ->
    foldr (fun kv n => Nat.max (depth H (snd kv)) n) 0 fs < k ->
    exists h1 ws,
      mark_fields H (safeMarkup H k) l (length done) (length fvs) h = Some h1 /\
      length h <= length h1 /\
      (forall x, x < length h -> ~ (a <= x < l) -> x <> l -> h1 !! x = h !! x) /\
      h1 !! l = Some (OObj (done ++ ws)) /\
      all2 (fun ft fv => fst ft = fst fv /\
              sees H (marked_in a l (length h) (length h1)) h1 (snd ft) (snd fv))
        (map (fun kv => (fst kv, mark H (snd kv))) fs) ws.
Proof.
  induction fs as [| ft r IHr]; intros IH [| fv fvr] done h a; simpl; try tauto.
  - intros Hl _ _. exists h, nil. repeat split; auto.
  - apply Forall_cons in IH as [Ht Hr].
    intros Hl (a1 & b1 & Ha1 & Hab & [Hk Hs] & Hc) Hd.
    pose proof (chain_le _ _ _ _ _ Hc) as Hb1.
    pose proof (lookup_lt_Some _ _ _ Hl) as Hlt.
    rewrite Hl. rewrite list_lookup_middle by done.
    destruct fv as [key x]. simpl in *.
    destruct (Ht h x a1 b1 Hs ltac:(lia) ltac:(lia))
      as (h2 & w & -> & Hlen2 & Hfr2 & Hsee2).
    rewrite Hfr2 by lia. rewrite Hl. rewrite insert_middle.
    set (h3 := <[l := OObj (done ++ (key, w) :: fvr)]> h2).
    assert (Hlen3 : length h3 = length h2) by apply length_insert.
    assert (Hl3 : h3 !! l = Some (OObj ((done ++ [(key, w)]) ++ fvr))).
    { unfold h3. rewrite list_lookup_insert_eq by lia. by rewrite <- app_assoc. }
    assert (Hag3 : forall y, y <> l -> h3 !! y = h2 !! y).
    { intros y Hy. unfold h3. by rewrite list_lookup_insert_ne. }
    assert (Hc3 : chain (fun ft fv a b => fst ft = fst fv /\
                           shape H h3 (snd ft) (snd fv) a b) r fvr b1 l).
    { eapply chain_fshape_agree; [exact Hc |]. intros y Hy.
      rewrite Hag3 by lia. apply Hfr2; lia. }
    destruct (IHr Hr fvr (done ++ [(key, w)]) h3 b1 Hl3 Hc3 ltac:(lia))
      as (h4 & ws & Hm & Hlen4 & Hfr4 & Hl4 & Hsee4).
    rewrite length_app in Hm. simpl in Hm.
    replace (length done + 1) with (S (length done)) in Hm by lia.
    exists h4, ((key, w) :: ws). repeat split.
    + exact Hm.
    + lia.
    + intros y Hy Hn Hne. rewrite Hfr4 by lia. rewrite Hag3 by done.
      apply Hfr2; lia.
    + rewrite Hl4. by rewrite <- app_assoc.
    + exact Hk.
    + eapply sees_mono; [| eapply sees_agree; [| eapply sees_agree; [| exact Hsee2]]].
      * unfold marked_in. lia.
      * unfold marked_in. intros y Hy. apply Hfr4; lia.
      * unfold marked_in. intros y Hy. apply Hag3. lia.
    + eapply all2_impl; [| exact Hsee4]. apply Forall_forall.
      intros t' _ y [? ?]. split; auto.
      eapply sees_mono; [| eassumption]. unfold marked_in. lia.
Qed.

Lemma safeMarkup_shape t : forall fuel (h : store) v lo hi,
  shape H h t v lo hi -> hi <= length h -> depth H t < fuel ->
  exists h' v', safeMarkup H fuel h v = Some (h', v') /\
    length h <= length h' /\
    (forall x, x < length h -> ~ (lo <= x < hi) -> h' !! x = h !! x) /\
    sees H (marked_in lo hi (length h) (length h')) h' (mark H t) v'.
Proof.
  induction t as [| p | p | ts IH | fs IH] using tree_ind';
    intros fuel h [| q | q | l] lo hi; simpl; try tauto;
    (destruct fuel as [| k]; [lia |]); rewrite safeMarkup_S.
  - intros _ _ _. exists h, VNull. repeat split; auto.
  - intros [-> _] _ _. exists h, (VMarkup q). repeat split; auto.
  - intros (Hlo & es & ps & Hl & Hc) Hhi Hd. rewrite Hl.
    destruct (map_store_shape k l ts) with (es := es) (h := h) (a := lo)
      as (h1 & ws & -> & Hlen & Hfr & Hsee); auto; try lia.
    { eapply Forall_impl; [exact IH |]. simpl. intros t Ht. intros; eapply Ht; eauto. }
    exists (h1 ++ [OArr ws []]), (VRef (length h1)). repeat split.
    + rewrite length_app. lia.
    + intros x Hx Hn. rewrite lookup_app_l by lia. apply Hfr; lia.
    + unfold marked_in. rewrite length_app. simpl. lia.
    + exists ws, nil. split.
      * rewrite lookup_app_r by lia. by rewrite Nat.sub_diag.
      * eapply all2_impl; [| exact Hsee]. apply Forall_forall.
        intros t' _ y Hy.
        eapply sees_mono; [| eapply sees_agree; [| exact Hy]].
        -- unfold marked_in. rewrite length_app. simpl. lia.
        -- unfold marked_in. intros x Hx. apply lookup_app_l. lia.
  - intros (Hlo & fvs & Hl & Hc) Hhi Hd. rewrite Hl.
    destruct (mark_fields_shape k l fs) with (fvs := fvs) (done := @nil (string * jsval))
      (h := h) (a := lo) as (h1 & ws & Hm & Hlen & Hfr & Hl1 & Hsee); auto; try lia.
    { eapply Forall_impl; [exact IH |]. simpl. intros t Ht. intros; eapply Ht; eauto. }
    simpl in Hm. rewrite Hm.
    exists h1, (VRef l). repeat split.
    + lia.
    + intros x Hx Hn. apply Hfr; lia.
    + unfold marked_in. lia.
    + exists ws. split; [exact Hl1 |].
      eapply all2_impl; [| exact Hsee]. apply Forall_forall.
      intros t' _ y [? Hy]. split; auto.
      eapply sees_mono; [| exact Hy]. unfold marked_in. lia.
Qed.

End StoreShape.

(** ** Fields of a context, in the store and as data *)

Section ContextFields.
Context (H : Host).
Abbreviation jsval := (val (num H)).
Abbreviation jstree := (tree (num H)).
Abbreviation store := (list (obj (num H))).
Abbreviation fshape h := (fun (ft : string * jstree) (fv : string * jsval) a b =>
   fst ft = fst fv /\ shape H h (snd ft) (snd fv) a b).

Lemma unmark_idem (t : jstree) : unmark H (unmark H t) = unmark H t.
Proof.
  induction t as [| p | p | ts IH | fs IH] using tree_ind'; simpl; auto.
  - f_equal. rewrite map_map. apply map_ext_Forall. exact IH.
  - f_equal. rewrite map_map. apply map_ext_Forall.
    eapply Forall_impl; [exact IH |]. simpl. intros kv ->. done.
Qed.

Lemma depth_mark (t : jstree) : depth H (mark H t) = depth H t.
Proof.
  induction t as [| p | p | ts IH | fs IH] using tree_ind'; simpl; auto.
  - f_equal. induction IH as [| t r Ht _ IHr]; simpl; [done | by rewrite Ht, IHr].
  - f_equal. induction IH as [| t r Ht _ IHr]; simpl; [done | by rewrite Ht, IHr].
Qed.

Lemma get_field_set_field key (x : jsval) fvs :
  get_field H key (set_field H key x fvs) = Some x.
Proof.
  induction fvs as [| [k y] r IH]; simpl.
  - by rewrite String.eqb_refl.
  - destruct (String.eqb k key) eqn:E; simpl; rewrite E; auto.
Qed.

Lemma get_tfield_set_tfield key (x : jstree) fs :
  get_tfield H key (set_tfield H key x fs) = Some x.
Proof.
  induction fs as [| [k y] r IH]; simpl.
  - by rewrite String.eqb_refl.
  - destruct (String.eqb k key) eqn:E; simpl; rewrite E; auto.
Qed.

Lemma set_field_same key (x : jsval) fvs :
  get_field H key fvs = Some x -> set_field H key x fvs = fvs.
Proof.
  induction fvs as [| [k y] r IH]; simpl; [discriminate |].
  destruct (String.eqb k key) eqn:E.
  - by intros [= ->].
  - intros Hg. by rewrite IH.
Qed.

Lemma set_tfield_same key (x : jstree) fs :
  get_tfield H key fs = Some x -> set_tfield H key x fs = fs.
Proof.
  induction fs as [| [k y] r IH]; simpl; [discriminate |].
  destruct (String.eqb k key) eqn:E.
  - by intros [= ->].
  - intros Hg. by rewrite IH.
Qed.

(** Reading a property of an object laid out in a region. *)
Lemma chain_get (h : store) key fs fvs lo hi :
  chain (fshape h) fs fvs lo hi ->
  match get_tfield H key fs, get_field H key fvs with
  | Some t, Some x => exists a b, lo <= a /\ a <= b /\ b <= hi /\ shape H h t x a b
  | None, None => True
  | _, _ => False
  end.
Proof.
  revert fvs lo. induction fs as [| [k t] r IH]; intros [| [k' x] fvr] lo; simpl;
    try tauto.
  intros (a & b & ? & ? & [Hk Hs] & Hc). simpl in Hk. subst k'.
  pose proof (chain_le _ _ _ _ _ Hc).
  destruct (String.eqb k key).
  - exists a, b. auto.
  - specialize (IH _ _ Hc).
    destruct (get_tfield H key r), (get_field H key fvr); try tauto.
    destruct IH as (a' & b' & ? & ? & ? & ?). exists a', b'. repeat split; auto. lia.
Qed.

(** Writing a property that fits anywhere in the region. *)
Lemma chain_set (h : store) key t x fs fvs lo hi :
  chain (fshape h) fs fvs lo hi ->
  (forall a b, a <= b -> shape H h t x a b) ->
  chain (fshape h) (set_tfield H key t fs) (set_field H key x fvs) lo hi.
Proof.
  intros Hc Hleaf. revert fvs lo Hc.
  induction fs as [| [k t0] r IH]; intros [| [k' x0] fvr] lo; simpl; try tauto.
  - intros Hle. exists lo, lo. repeat split; auto.
  - intros (a & b & ? & ? & [Hk Hs] & Hc). simpl in Hk. subst k'.
    destruct (String.eqb k key); simpl.
    + exists a, b. repeat split; auto.
    + exists a, b. repeat split; auto.
Qed.

Lemma shape_truthy (h : store) t x a b :
  shape H h t x a b -> js_truthy H (Some x) = tree_truthy H (Some t).
Proof.
  destruct t, x; simpl; try tauto.
  - by intros [-> _].
Qed.

Lemma shape_toString (h : store) t x a b :
  shape H h t x a b -> b <= length h ->
  js_toString H h (Some x) = tree_toString H (Some t).
Proof.
  intros Hs Hb.
  pose proof (shape_depth H _ _ _ _ _ Hs) as Hd.
  pose proof (shape_sees H _ _ _ _ _ Hs) as Hsee.
  pose proof (shape_le H _ _ _ _ _ Hs).
  destruct t, x; simpl in Hs; try tauto.
  - by destruct Hs as [-> _].
  - unfold js_toString. erewrite sees_reify; [| exact Hsee | lia]. done.
  - unfold js_toString. erewrite sees_reify; [| exact Hsee | lia]. done.
Qed.

End ContextFields.

(** ** The contexts a template is rendered with *)

Section Contexts.
Context (H : Host).
Abbreviation jsval := (val (num H)).
Abbreviation jstree := (tree (num H)).
Abbreviation store := (list (obj (num H))).
Abbreviation fshape h := (fun (ft : string * jstree) (fv : string * jsval) a b =>
   fst ft = fst fv /\ shape H h (snd ft) (snd fv) a b).

Lemma set_heap_set_heap (h1 h2 : store) (st : Builder H) :
  set_heap H h2 (set_heap H h1 st) = set_heap H h2 st.
Proof. reflexivity. Qed.

Lemma set_heap_id (st : Builder H) : set_heap H (heap H st) st = st.
Proof. by destruct st. Qed.

Lemma JSON_copy_spec ctx (st : Builder H) t :
  JSON_stringify H (heap H st) ctx = Some t ->
  exists h1 w, JSON_copy H ctx st = (Ok w, set_heap H h1 st) /\
    (exists ext, h1 = heap H st ++ ext) /\
    shape H h1 t w (length (heap H st)) (length h1).
Proof.
  intros Hs. unfold JSON_copy. rewrite Hs.
  destruct (JSON_parse H t (heap H st)) as [h1 w] eqn:Hp.
  exists h1, w. split; [done |].
  apply JSON_parse_shape in Hp as [Hext Hsh]. split; [done |].
  unfold JSON_stringify in Hs.
  destruct (reify H _ _ ctx) as [t0 |]; [| discriminate].
  simpl in Hs. injection Hs as <-. by rewrite unmark_idem in Hsh.
Qed.

(** The object a region holds, after one of its properties is set to a
    string. *)
Lemma shape_set_string (h : store) l fs fvs lo hi key s :
  h !! l = Some (OObj fvs) ->
  shape H h (TObj fs) (VRef l) lo hi ->
  shape H (<[l := OObj (set_field H key (VPrim (PStr s)) fvs)]> h)
    (TObj (set_tfield H key (TPrim (PStr s)) fs)) (VRef l) lo hi.
Proof.
  intros Hl. simpl. intros (Hlo & fvs' & Hl' & Hc).
  rewrite Hl in Hl'. injection Hl' as <-.
  split; [done |]. eexists. split.
  - apply list_lookup_insert_eq. eapply lookup_lt_Some; eauto.
  - eapply chain_fshape_agree.
    + eapply chain_set; [exact Hc |]. intros a b Hab. simpl. auto.
    + intros x Hx. apply list_lookup_insert_ne. lia.
Qed.

Lemma agree_prefix (h h' : store) :
  length h <= length h' -> (forall x, x < length h -> h' !! x = h !! x) ->
  exists ext, h' = h ++ ext.
Proof.
  intros Hlen Hag. exists (drop (length h) h').
  rewrite <- (take_drop (length h) h') at 1. f_equal.
  apply list_eq. intros i. destruct (decide (i < length h)) as [Hi | Hi].
  - rewrite lookup_take_lt by done. by apply Hag.
  - rewrite lookup_take_ge by lia. symmetry. apply lookup_ge_None. lia.
Qed.

Lemma prefix_insert_ge (h ext : store) l o :
  length h <= l -> exists ext', <[l := o]> (h ++ ext) = h ++ ext'.
Proof.
  intros Hl. exists (<[l - length h := o]> ext). by apply insert_app_r_alt.
Qed.

Lemma placeholder_data_spec ctx section (st : Builder H) fs :
  stored_fields H (heap H st) ctx = Some fs ->
  exists h1 l,
    placeholder_data H ctx section st = (Ok (VRef l), set_heap H h1 st) /\
    (exists ext, h1 = heap H st ++ ext) /\
    shape H h1
      (TObj (placeholder_fields H fs (has_modifiers section)
               (o_placeholder (options H st))))
      (VRef l) (length (heap H st)) (length h1).
Proof.
  unfold stored_fields. intros Hs.
  destruct (JSON_stringify H (heap H st) ctx) as [[| | | |fs0] |] eqn:Hj;
    try discriminate. injection Hs as ->.
  destruct (JSON_copy_spec _ _ _ Hj) as (h1 & w & Hcopy & [ext Hext] & Hsh).
  destruct w as [| | | l]; simpl in Hsh; try tauto.
  destruct Hsh as (Hlo & fvs & Hl & Hc).
  pose proof (chain_get H h1 "modifier_class" _ _ _ _ Hc) as Hget.
  (* the first assignment *)
  set (t1 := if tree_truthy H (get_tfield H "modifier_class" fs)
             then default TNull (get_tfield H "modifier_class" fs)
             else TPrim (PStr "")).
  assert (Hor : exists h2 fvs2,
    h2 !! l = Some (OObj fvs2) /\ length h2 = length h1 /\
    (exists ext2, h2 = heap H st ++ ext2) /\
    <[l := OObj (set_field H "modifier_class"
                   (or_empty H (get_field H "modifier_class" fvs)) fvs)]> h1 = h2 /\
    chain (fshape h2) (set_tfield H "modifier_class" t1 fs) fvs2
      (length (heap H st)) l /\
    exists x1 a b, get_field H "modifier_class" fvs2 = Some x1 /\ a <= b /\ b <= l /\
      shape H h2 t1 x1 a b).
  { assert (Hleaf : exists h2 fvs2,
      h2 !! l = Some (OObj fvs2) /\ length h2 = length h1 /\
      (exists ext2, h2 = heap H st ++ ext2) /\
      <[l := OObj (set_field H "modifier_class" (VPrim (PStr "")) fvs)]> h1 = h2 /\
      chain (fshape h2) (set_tfield H "modifier_class" (TPrim (PStr "")) fs) fvs2
        (length (heap H st)) l /\
      exists x1 a b, get_field H "modifier_class" fvs2 = Some x1 /\ a <= b /\ b <= l /\
        shape H h2 (TPrim (PStr "")) x1 a b).
    { eexists _, _. split; [apply list_lookup_insert_eq; eapply lookup_lt_Some; eauto |].
      split; [apply length_insert |].
      split; [rewrite Hext; apply prefix_insert_ge; lia |].
      split; [done |]. split.
      - eapply chain_fshape_agree.
        + eapply chain_set; [exact Hc |]. intros; simpl; auto.
        + intros y Hy. apply list_lookup_insert_ne. lia.
      - exists (VPrim (PStr "")), 0, 0. rewrite get_field_set_field.
        repeat split; auto. lia. }
    unfold t1.
    destruct (get_tfield H "modifier_class" fs) as [t |] eqn:Emc,
             (get_field H "modifier_class" fvs) as [x |] eqn:Emcv; try tauto.
    destruct Hget as (a & b & ? & ? & ? & Hsx).
    unfold or_empty. rewrite (shape_truthy H _ _ _ _ _ Hsx).
    destruct (tree_truthy H (Some t)) eqn:Etr; simpl; [| exact Hleaf].
    rewrite (set_field_same H _ _ _ Emcv), (set_tfield_same H _ _ _ Emc).
    rewrite list_insert_id by done.
    exists h1, fvs. repeat split; eauto. exists x, a, b. auto. }
  destruct Hor as (h2 & fvs2 & Hl2 & Hlen2 & [ext2 Hext2] & Hins & Hc2
                   & x1 & a & b & Hg2 & Hab & Hbl & Hs1).
  unfold placeholder_data.
  unfold bind at 1. rewrite Hcopy.
  unfold bind at 1. unfold get_prop at 1. simpl heap. rewrite Hl.
  unfold bind at 1. unfold set_prop at 1. simpl heap. rewrite Hl.
  rewrite Hins. rewrite set_heap_set_heap.
  unfold bind at 1. unfold get at 1. cbn [options heap set_heap].
  fold (has_modifiers section).
  unfold placeholder_fields. fold t1.
  destruct (has_modifiers section && str_truthy (o_placeholder (options H st))) eqn:Econd.
  - unfold bind at 1. unfold get_prop at 1. cbn [options heap set_heap]. rewrite Hl2.
    unfold bind at 1. unfold set_prop at 1. cbn [options heap set_heap]. rewrite Hl2.
    rewrite Hg2. unfold ret. rewrite set_heap_set_heap.
    rewrite (shape_truthy H _ _ _ _ _ Hs1).
    rewrite (shape_toString H _ _ _ _ _ Hs1) by lia.
    eexists _, l. split; [reflexivity |].
    split; [rewrite Hext2; apply prefix_insert_ge; lia |].
    rewrite length_insert, Hlen2.
    apply shape_set_string; [done |]. simpl. split; [done |].
    exists fvs2. split; auto.
  - exists h2, l. split; [reflexivity |]. split; [eauto |].
    simpl. rewrite Hlen2. split; [done |]. exists fvs2. split; auto.
Qed.

Lemma modifier_data_spec ctx modifier (st : Builder H) fs :
  stored_fields H (heap H st) ctx = Some fs ->
  exists h1 l,
    modifier_data H ctx modifier st = (Ok (VRef l), set_heap H h1 st) /\
    (exists ext, h1 = heap H st ++ ext) /\
    shape H h1 (TObj (modifier_fields H fs (mj_className modifier)))
      (VRef l) (length (heap H st)) (length h1).
Proof.
  unfold stored_fields. intros Hs.
  destruct (JSON_stringify H (heap H st) ctx) as [[| | | |fs0] |] eqn:Hj;
    try discriminate. injection Hs as ->.
  destruct (JSON_copy_spec _ _ _ Hj) as (h1 & w & Hcopy & [ext Hext] & Hsh).
  destruct w as [| | | l]; simpl in Hsh; try tauto.
  pose proof Hsh as (Hlo & fvs & Hl & Hc).
  pose proof (chain_get H h1 "modifier_class" _ _ _ _ Hc) as Hget.
  unfold modifier_data.
  unfold bind at 1. rewrite Hcopy.
  unfold bind at 1. unfold get_prop at 1. cbn [options heap set_heap]. rewrite Hl.
  unfold bind at 1. unfold get at 1.
  unfold bind at 1. unfold set_prop at 1. cbn [options heap set_heap]. rewrite Hl.
  unfold ret. rewrite set_heap_set_heap.
  eexists _, l. split; [reflexivity |].
  split; [rewrite Hext; apply prefix_insert_ge; lia |].
  unfold modifier_fields.
  assert (Heq : (if js_truthy H (get_field H "modifier_class" fvs)
                 then js_toString H h1 (get_field H "modifier_class" fvs) +:+ " "
                 else "") =
                (if tree_truthy H (get_tfield H "modifier_class" fs)
                 then tree_toString H (get_tfield H "modifier_class" fs) +:+ " "
                 else "")).
  { destruct (get_tfield H "modifier_class" fs) as [t |],
             (get_field H "modifier_class" fvs) as [x |]; try tauto.
    destruct Hget as (a & b & ? & ? & ? & Hsx).
    rewrite (shape_truthy H _ _ _ _ _ Hsx).
    rewrite (shape_toString H _ _ _ _ _ Hsx) by lia. done. }
  rewrite Heq. rewrite length_insert.
  by apply shape_set_string.
Qed.

Lemma render_spec (tpl : template) v (st : Builder H) t lo out :
  engine_frame H ->
  shape H (heap H st) t v lo (length (heap H st)) ->
  render_out H tpl (mark H t) = Some out ->
  exists h', render H (Some tpl) v st = (Ok out, set_heap H h' st) /\
    length (heap H st) <= length h' /\
    forall x, x < lo -> h' !! x = heap H st !! x.
Proof.
  intros Hframe Hsh Hout.
  pose proof (shape_depth H _ _ _ _ _ Hsh) as Hd.
  destruct (safeMarkup_shape H t (S (length (heap H st))) (heap H st) v lo
              (length (heap H st)) Hsh ltac:(lia) ltac:(lia))
    as (h1 & w & Hsafe & Hlen & Hfr & Hsee).
  unfold render. rewrite Hsafe.
  erewrite sees_reify; [| exact Hsee | rewrite depth_mark; lia].
  rewrite Hout.
  destruct (Hframe tpl h1 w _ _ Hsee) as [Hlen' Hfr'].
  eexists. split; [reflexivity |]. split; [lia |].
  intros x Hx. pose proof (shape_le H _ _ _ _ _ Hsh).
  rewrite Hfr'; [apply Hfr; lia | lia | unfold marked_in; lia].
Qed.

Lemma stored_fields_grows (h ext : store) ctx fs :
  stored_fields H h ctx = Some fs -> stored_fields H (h ++ ext) ctx = Some fs.
Proof.
  unfold stored_fields, JSON_stringify. intros Hs.
  destruct (reify H (S (length h)) h ctx) as [t |] eqn:Hr; [| discriminate].
  erewrite reify_stable; [exact Hs | exact Hr | | rewrite length_app; lia].
  intros x Hx. by apply lookup_app_l.
Qed.

(** A copy of a stored context, made, filled in and rendered. *)
Lemma render_placeholder ctx section (st : Builder H) fs tpl out :
  engine_frame H ->
  stored_fields H (heap H st) ctx = Some fs ->
  render_as H tpl (placeholder_fields H fs (has_modifiers section)
                     (o_placeholder (options H st))) = Some out ->
  exists h',
    bind H (placeholder_data H ctx section)
      (fun data => render H (Some tpl) data) st
    = (Ok out, set_heap H h' st) /\
    exists ext, h' = heap H st ++ ext.
Proof.
  intros Hframe Hs Hout.
  destruct (placeholder_data_spec ctx section st fs Hs)
    as (h1 & l & Hp & [ext ->] & Hsh).
  unfold bind. rewrite Hp.
  destruct (render_spec tpl (VRef l) (set_heap H (heap H st ++ ext) st) _ _ out
              Hframe Hsh Hout) as (h' & Hr & Hlen & Hfr).
  rewrite Hr. exists h'. split; [done |].
  cbn [heap set_heap] in *. apply agree_prefix.
  - rewrite length_app in Hlen. lia.
  - intros x Hx. rewrite Hfr by done. by apply lookup_app_l.
Qed.

Lemma render_modifier_spec ctx m m' (st : Builder H) fs tpl :
  engine_frame H ->
  stored_fields H (heap H st) ctx = Some fs ->
  modifier_spec H tpl fs m = Some m' ->
  exists h',
    render_modifier H (Some tpl) ctx m st = (Ok m', set_heap H h' st) /\
    exists ext, h' = heap H st ++ ext.
Proof.
  intros Hframe Hs Hm. unfold modifier_spec in Hm.
  destruct (render_as H tpl _) as [out |] eqn:Hout; [| discriminate].
  injection Hm as <-.
  destruct (modifier_data_spec ctx m st fs Hs) as (h1 & l & Hp & [ext ->] & Hsh).
  unfold render_modifier, bind. rewrite Hp.
  destruct (render_spec tpl (VRef l) (set_heap H (heap H st ++ ext) st) _ _ out
              Hframe Hsh Hout) as (h' & Hr & Hlen & Hfr).
  rewrite Hr. exists h'. split; [done |].
  cbn [heap set_heap] in *. apply agree_prefix.
  - rewrite length_app in Hlen. lia.
  - intros x Hx. rewrite Hfr by done. by apply lookup_app_l.
Qed.

Lemma render_modifiers_spec ctx ms : forall ms' (st : Builder H) fs tpl,
  engine_frame H ->
  stored_fields H (heap H st) ctx = Some fs ->
  mapM (modifier_spec H tpl fs) ms = Some ms' ->
  exists h',
    forEachM H (render_modifier H (Some tpl) ctx) ms st = (Ok ms', set_heap H h' st) /\
    exists ext, h' = heap H st ++ ext.
Proof.
  induction ms as [| m r IH]; intros ms' st fs tpl Hframe Hs Hm.
  - injection Hm as <-. exists (heap H st). simpl. unfold ret.
    rewrite set_heap_id. split; [done |]. exists nil. by rewrite app_nil_r.
  - simpl in Hm. destruct (modifier_spec H tpl fs m) as [m' |] eqn:Em; [| discriminate].
    simpl in Hm. destruct (mapM _ r) as [r' |] eqn:Er; [| discriminate].
    injection Hm as <-.
    destruct (render_modifier_spec ctx m m' st fs tpl Hframe Hs Em)
      as (h1 & Hr1 & [e1 ->]).
    destruct (IH r' (set_heap H (heap H st ++ e1) st) fs tpl Hframe) as (h2 & Hr2 & [e2 He2]).
    { cbn [heap set_heap]. by apply stored_fields_grows. }
    { done. }
    simpl. unfold bind. rewrite Hr1. rewrite Hr2. unfold ret.
    rewrite set_heap_set_heap. exists h2. split; [done |].
    cbn [heap set_heap] in He2. exists (e1 ++ e2). by rewrite app_assoc.
Qed.

End Contexts.

(** ** [render_section] against the renderer on data *)

Section Renderer.
Context (H : Host).
Abbreviation jsval := (val (num H)).
Abbreviation jstree := (tree (num H)).
Abbreviation store := (list (obj (num H))).

Lemma render_section_refines section (st : Builder H) info r s' :
  engine_frame H ->
  str_truthy (j_markup section) = true ->
  userTemplates H st !! j_reference section = Some info ->
  resolved H st info = Some r ->
  renderer H r (o_placeholder (options H st)) section = Some s' ->
  exists h', render_section H section st = (Ok s', set_heap H h' st) /\
    exists ext, h' = heap H st ++ ext.
Proof.
  intros Hframe Hmk Hinfo Hres Hspec.
  unfold resolved in Hres.
  destruct (str_truthy (ti_ref info)) eqn:Eref; [| discriminate].
  destruct (registry H st !! ti_ref info) as [t |] eqn:Et; [| discriminate].
  destruct (stored_fields H (heap H st) (ti_context info)) as [fs |] eqn:Efs;
    [| discriminate].
  unfold renderer in Hspec.
  unfold render_section. rewrite Hmk.
  unfold bind at 1. unfold get at 1. rewrite Hinfo.
  unfold bind at 1. unfold twigAsync_ref at 1. rewrite Eref. rewrite Et.
  destruct (opt_truthy (ti_exampleRef info)) eqn:Eex.
  - destruct (registry H st !! default "" (ti_exampleRef info)) as [te |] eqn:Ete;
      [| discriminate].
    destruct (stored_fields H (heap H st) (ti_exampleContext info)) as [fe |] eqn:Efe;
      [| discriminate].
    injection Hres as <-. cbn [r_template r_fields r_example default] in *.
    destruct (render_as H t _) as [markup |] eqn:Emarkup; [| discriminate].
    destruct (render_as H te _) as [example |] eqn:Eexample; [| discriminate].
    cbv beta iota delta [id] in Hspec.
    destruct (mapM (modifier_spec H te fe) (j_modifiers section)) as [ms |] eqn:Ems;
      [| discriminate].
    injection Hspec as <-.
    destruct (render_placeholder H _ section st fs t markup Hframe Efs Emarkup)
      as (h1 & Hr1 & [e1 ->]).
    unfold bind in Hr1. unfold bind at 1.
    destruct (placeholder_data H (ti_context info) section st) as [[d |] st1] eqn:Epd;
      [| discriminate].
    unfold bind at 1. rewrite Hr1.
    unfold bind at 1. unfold twigAsync_ref at 1.
    assert (Etr : str_truthy (default "" (ti_exampleRef info)) = true).
    { destruct (ti_exampleRef info); simpl in *; [done | discriminate]. }
    rewrite Etr. cbn [registry set_heap]. rewrite Ete.
    set (st1' := set_heap H (heap H st ++ e1) st).
    set (section1 := set_example markup (set_markup markup section)).
    destruct (render_placeholder H (ti_exampleContext info) section1 st1' fe te example
                Hframe) as (h2 & Hr2 & [e2 He2]).
    { by apply stored_fields_grows. }
    { exact Eexample. }
    unfold bind at 1. unfold bind at 1.
    unfold bind in Hr2.
    destruct (placeholder_data H (ti_exampleContext info) section1 st1')
      as [[d2 |] st2] eqn:Epd2; [| discriminate].
    unfold bind at 1. rewrite Hr2. unfold ret at 1.
    destruct (render_modifiers_spec H (ti_exampleContext info) (j_modifiers section) ms
                (set_heap H h2 st1') fe te Hframe) as (h3 & Hr3 & [e3 He3]).
    { cbn [heap set_heap]. rewrite He2. unfold st1'. cbn [heap set_heap].
      by do 2 apply stored_fields_grows. }
    { exact Ems. }
    unfold bind at 1. unfold section1. cbn [j_modifiers set_example set_markup].
    rewrite Hr3. unfold ret. exists h3. split; [done |].
    unfold st1' in *. cbn [heap set_heap] in *. subst.
    exists (e1 ++ e2 ++ e3). by rewrite !app_assoc.
  - injection Hres as <-. cbn [r_template r_fields r_example default] in *.
    destruct (render_as H t _) as [markup |] eqn:Emarkup; [| discriminate].
    cbv beta iota delta [id] in Hspec.
    destruct (mapM (modifier_spec H t fs) (j_modifiers section)) as [ms |] eqn:Ems;
      [| discriminate].
    injection Hspec as <-.
    destruct (render_placeholder H _ section st fs t markup Hframe Efs Emarkup)
      as (h1 & Hr1 & [e1 ->]).
    unfold bind in Hr1. unfold bind at 1.
    destruct (placeholder_data H (ti_context info) section st) as [[d |] st1] eqn:Epd;
      [| discriminate].
    unfold bind at 1. rewrite Hr1.
    unfold bind at 1. unfold ret at 1.
    unfold bind at 1. unfold ret at 1.
    set (st1' := set_heap H (heap H st ++ e1) st).
    destruct (render_modifiers_spec H (ti_context info) (j_modifiers section) ms
                st1' fs t Hframe) as (h3 & Hr3 & [e3 He3]).
    { by apply stored_fields_grows. }
    { exact Ems. }
    unfold bind at 1. cbn [j_modifiers set_example set_markup].
    rewrite Hr3. unfold ret. exists h3. split; [done |].
    unfold st1' in *. cbn [heap set_heap] in *. subst.
    exists (e1 ++ e3). by rewrite !app_assoc.
Qed.

End Renderer.

(** ** The template locator *)

(** *** [Promise.all] and the order promises settle in *)

Lemma settle_length {A} (results : list A) order : forall slots,
  length (settle results order slots) = length slots.
Proof.
  induction order as [| i rest IH]; intros slots; simpl; [done |].
  rewrite IH. destruct (results !! i); [apply length_insert | done].
Qed.

Lemma settle_lookup {A} (results : list A) order : forall slots i,
  length slots = length results ->
  i < length results ->
  settle results order slots !! i =
    if decide (i ∈ order) then Some (results !! i) else slots !! i.
Proof.
  induction order as [| j rest IH]; intros slots i Hlen Hi.
  - simpl settle. case_decide as Hin; [by apply elem_of_nil in Hin | done].
  - simpl settle. destruct (results !! j) as [r |] eqn:Hj.
    + rewrite IH by (rewrite ?length_insert; done).
      destruct (decide (i ∈ rest)) as [Hin | Hnin].
      { rewrite decide_True; [done | by right]. }
      destruct (decide (i = j)) as [-> | Hne].
      * rewrite decide_True by left.
        rewrite list_lookup_insert_eq by lia. by rewrite Hj.
      * rewrite decide_False by (rewrite elem_of_cons; tauto).
        by rewrite list_lookup_insert_ne.
    + rewrite IH by done.
      assert (i <> j).
      { intros ->. apply lookup_ge_None in Hj. lia. }
      destruct (decide (i ∈ rest)) as [Hin | Hnin].
      * rewrite decide_True; [done | by right].
      * rewrite decide_False; [done | rewrite elem_of_cons; tauto].
Qed.

(** Whatever order the promises settle in, [Promise.all] fulfils with
    their values in the order of the array of promises. *)
Lemma promise_all_values_order {A} (results : list A) order :
  order ≡ₚ seq 0 (length results) ->
  promise_all_values results order = Some results.
Proof.
  intros Hperm. unfold promise_all_values. apply mapM_Some.
  apply Forall2_same_length_lookup. split.
  - by rewrite settle_length, length_replicate.
  - intros i x y Hx Hy.
    assert (Hi : i < length results) by (eapply lookup_lt_Some; eauto).
    rewrite settle_lookup in Hx by (rewrite ?length_replicate; done).
    case_decide as Hin.
    + injection Hx as Hx. unfold id. by rewrite <- Hx.
    + exfalso. apply Hin. rewrite Hperm. apply elem_of_seq. lia.
Qed.

(** *** The loops over [globMatches] *)

Lemma length_append (s1 s2 : string) :
  String.length (s1 +:+ s2) = String.length s1 + String.length s2.
Proof. induction s1 as [| c s1 IH]; simpl; [done | by rewrite IH]. Qed.

Lemma kss_example_neq (name : string) : name <> "kss-example-" +:+ name.
Proof.
  intros Heq. apply (f_equal String.length) in Heq.
  rewrite length_append in Heq. simpl in Heq. lia.
Qed.

Lemma visit_files_foldl name exampleName s files :
  visit_files name exampleName s files = foldl (visit_file name exampleName) s files.
Proof.
  unfold visit_files.
  destruct (foundTemplate s) eqn:Et, (foundExample s) eqn:Ee; simpl; try done.
  induction files as [| f r IH]; simpl; [done |].
  unfold visit_file at 2. rewrite Et, Ee. simpl. exact IH.
Qed.

Lemma search_concat name exampleName file globMatches :
  search name exampleName file globMatches =
  foldl (visit_file name exampleName)
    {| foundTemplate := false; foundExample := false; found_file := file;
       found_exampleFile := ""; compileTemplates := [] |}
    (concat globMatches).
Proof.
  unfold search. generalize (Build_Search false false file "" []) as s.
  induction globMatches as [| files rest IH]; intros s; simpl; [done |].
  rewrite IH, visit_files_foldl. by rewrite foldl_app.
Qed.

Lemma omap_snoc {A B} (f : A -> option B) l x :
  omap f (l ++ [x]) = omap f l ++ match f x with Some y => [y] | None => [] end.
Proof. rewrite omap_app. simpl. by destruct (f x). Qed.

Lemma first_named_cons name f r :
  first_named name (f :: r) =
  if String.eqb (basename f) name then Some f else first_named name r.
Proof. reflexivity. Qed.

Lemma visit_file_template_keep name exampleName s f :
  foundTemplate s = true \/ String.eqb (basename f) name = false ->
  let s1 := visit_file name exampleName s f in
  foundTemplate s1 = foundTemplate s /\ found_file s1 = found_file s /\
  loads_of (compileTemplates s1) = loads_of (compileTemplates s).
Proof.
  intros Hk. unfold visit_file.
  assert (negb (foundTemplate s) && String.eqb (basename f) name = false) as ->.
  { destruct Hk as [-> | ->]; [done | apply andb_false_r]. }
  destruct (negb (foundExample s) && String.eqb (basename f) exampleName); simpl;
    [| done].
  unfold loads_of. rewrite omap_snoc. simpl. by rewrite app_nil_r.
Qed.

Lemma visit_file_template_take name exampleName s f :
  foundTemplate s = false -> String.eqb (basename f) name = true ->
  let s1 := visit_file name exampleName s f in
  foundTemplate s1 = true /\ found_file s1 = f /\
  loads_of (compileTemplates s1) = loads_of (compileTemplates s) ++ [f].
Proof.
  intros Hf Hn. unfold visit_file. rewrite Hf, Hn. simpl.
  unfold loads_of. by rewrite omap_snoc.
Qed.

(** The template is the first file called [name], whatever is found for
    the example. *)
Lemma visit_template name exampleName files : forall s,
  let s' := foldl (visit_file name exampleName) s files in
  if foundTemplate s then
    foundTemplate s' = true /\ found_file s' = found_file s /\
    loads_of (compileTemplates s') = loads_of (compileTemplates s)
  else
    match first_named name files with
    | Some f => foundTemplate s' = true /\ found_file s' = f /\
        loads_of (compileTemplates s') = loads_of (compileTemplates s) ++ [f]
    | None => foundTemplate s' = false /\ found_file s' = found_file s /\
        loads_of (compileTemplates s') = loads_of (compileTemplates s)
    end.
Proof.
  induction files as [| f r IH]; intros s.
  - simpl. by destruct (foundTemplate s).
  - specialize (IH (visit_file name exampleName s f)). cbn [foldl].
    rewrite first_named_cons. cbv zeta in *.
    destruct (foundTemplate s) eqn:Et.
    + destruct (visit_file_template_keep name exampleName s f) as (E1 & E2 & E3);
        [by left |].
      rewrite E1, Et, E2, E3 in IH. exact IH.
    + destruct (String.eqb (basename f) name) eqn:En.
      * destruct (visit_file_template_take name exampleName s f Et En)
          as (E1 & E2 & E3).
        rewrite E1, E2, E3 in IH. exact IH.
      * destruct (visit_file_template_keep name exampleName s f) as (E1 & E2 & E3);
          [by right |].
        rewrite E1, Et, E2, E3 in IH. exact IH.
Qed.

Lemma visit_file_example_keep name exampleName s f :
  foundExample s = true \/ String.eqb (basename f) exampleName = false ->
  let s1 := visit_file name exampleName s f in
  foundExample s1 = foundExample s /\
  found_exampleFile s1 = found_exampleFile s /\
  examples_of (compileTemplates s1) = examples_of (compileTemplates s).
Proof.
  intros Hk. unfold visit_file.
  assert (negb (foundExample s) && String.eqb (basename f) exampleName = false) as ->.
  { destruct Hk as [-> | ->]; [done | apply andb_false_r]. }
  destruct (negb (foundTemplate s) && String.eqb (basename f) name); simpl;
    [| done].
  unfold examples_of. rewrite omap_snoc. simpl. by rewrite app_nil_r.
Qed.

Lemma visit_file_example_take name exampleName s f :
  name <> exampleName ->
  foundExample s = false -> String.eqb (basename f) exampleName = true ->
  let s1 := visit_file name exampleName s f in
  foundExample s1 = true /\ found_exampleFile s1 = f /\
  examples_of (compileTemplates s1) = examples_of (compileTemplates s) ++ [f].
Proof.
  intros Hne Hf Hn. unfold visit_file.
  assert (String.eqb (basename f) name = false) as ->.
  { apply String.eqb_eq in Hn. apply String.eqb_neq. congruence. }
  rewrite andb_false_r, Hf, Hn. simpl.
  unfold examples_of. by rewrite omap_snoc.
Qed.

(** The example is the first file called [exampleName], whatever is
    found for the template. *)
Lemma visit_example name exampleName files : forall s,
  name <> exampleName ->
  let s' := foldl (visit_file name exampleName) s files in
  if foundExample s then
    foundExample s' = true /\ found_exampleFile s' = found_exampleFile s /\
    examples_of (compileTemplates s') = examples_of (compileTemplates s)
  else
    match first_named exampleName files with
    | Some f => foundExample s' = true /\ found_exampleFile s' = f /\
        examples_of (compileTemplates s') = examples_of (compileTemplates s) ++ [f]
    | None => foundExample s' = false /\ found_exampleFile s' = found_exampleFile s /\
        examples_of (compileTemplates s') = examples_of (compileTemplates s)
    end.
Proof.
  induction files as [| f r IH]; intros s Hne.
  - simpl. by destruct (foundExample s).
  - specialize (IH (visit_file name exampleName s f) Hne). cbn [foldl].
    rewrite first_named_cons. cbv zeta in *.
    destruct (foundExample s) eqn:Et.
    + destruct (visit_file_example_keep name exampleName s f) as (E1 & E2 & E3);
        [by left |].
      rewrite E1, Et, E2, E3 in IH. exact IH.
    + destruct (String.eqb (basename f) exampleName) eqn:En.
      * destruct (visit_file_example_take name exampleName s f Hne Et En)
          as (E1 & E2 & E3).
        rewrite E1, E2, E3 in IH. exact IH.
      * destruct (visit_file_example_keep name exampleName s f) as (E1 & E2 & E3);
          [by right |].
        rewrite E1, Et, E2, E3 in IH. exact IH.
Qed.

Section Locator.
Context (H : Host).

Lemma first_named_app name l1 l2 :
  first_named name (l1 ++ l2) =
  match first_named name l1 with
  | Some f => Some f
  | None => first_named name l2
  end.
Proof.
  induction l1 as [| f r IH]; [done |].
  rewrite <- app_comm_cons, !first_named_cons.
  by destruct (String.eqb (basename f) name).
Qed.

Lemma first_named_findTemplates n file name sources :
  first_named n (concat (findTemplates H sources file name)) =
  snd <$> first_root H n file name sources.
Proof.
  unfold findTemplates.
  induction sources as [| r rest IH]; [done |].
  change (flat_map (root_searches H file name) (r :: rest))
    with (root_searches H file name r ++ flat_map (root_searches H file name) rest).
  rewrite concat_app, first_named_app. simpl first_root.
  fold (root_first H n file name r).
  destruct (root_first H n file name r); [done | exact IH].
Qed.

(** The first root is first by rank: no source listed before it has
    the file. *)
Lemma first_root_rank n file name sources r f :
  first_root H n file name sources = Some (r, f) ->
  exists pre post, sources = pre ++ r :: post /\
    Forall (fun r' => root_first H n file name r' = None) pre /\
    root_first H n file name r = Some f.
Proof.
  induction sources as [| r0 rest IH]; [done |]. simpl.
  destruct (root_first H n file name r0) as [f0 |] eqn:E0.
  - intros [= <- <-]. exists nil, rest. auto.
  - intros Hr. destruct (IH Hr) as (pre & post & -> & Hpre & Hf).
    exists (r0 :: pre), post. repeat split; auto.
Qed.

Lemma search_template file sources :
  let name := basename file in
  let s := search name ("kss-example-" +:+ name) file
             (findTemplates H sources file name) in
  match first_root H name file name sources with
  | Some (_, f) => foundTemplate s = true /\ found_file s = f /\
      loads_of (compileTemplates s) = [f]
  | None => foundTemplate s = false /\ found_file s = file /\
      loads_of (compileTemplates s) = []
  end.
Proof.
  intros name s. unfold s. rewrite search_concat.
  pose proof (visit_template name ("kss-example-" +:+ name)
                (concat (findTemplates H sources file name))
                (Build_Search false false file "" [])) as Hv.
  cbv zeta in Hv. cbn [foundTemplate found_file compileTemplates] in Hv.
  rewrite first_named_findTemplates in Hv.
  destruct (first_root H name file name sources) as [[r f] |]; exact Hv.
Qed.

Lemma search_example file sources :
  let name := basename file in
  let exampleName := "kss-example-" +:+ name in
  let s := search name exampleName file (findTemplates H sources file name) in
  match first_root H exampleName file name sources with
  | Some (_, e) => foundExample s = true /\ found_exampleFile s = e /\
      examples_of (compileTemplates s) = [e]
  | None => foundExample s = false /\ found_exampleFile s = "" /\
      examples_of (compileTemplates s) = []
  end.
Proof.
  intros name exampleName s. unfold s. rewrite search_concat.
  pose proof (visit_example name exampleName
                (concat (findTemplates H sources file name))
                (Build_Search false false file "" [])
                (kss_example_neq name)) as Hv.
  cbv zeta in Hv. cbn [foundExample found_exampleFile compileTemplates] in Hv.
  rewrite first_named_findTemplates in Hv.
  destruct (first_root H exampleName file name sources) as [[r f] |]; exact Hv.
Qed.



End Locator.

(** *** The test for a file reference *)

Lemma twig_suffix_line_eq s :
  twig_suffix_line s =
  String.eqb s ".twig" ||
  match s with
  | EmptyString => false
  | String c r => negb (Ascii.eqb c LF) && twig_suffix_line r
  end.
Proof. by destruct s. Qed.

Lemma single_line_cons c s :
  single_line (String c s) = negb (Ascii.eqb c LF) && single_line s.
Proof. reflexivity. Qed.

Lemma append_cons c a b : String c a +:+ b = String c (a +:+ b).
Proof. reflexivity. Qed.

Lemma single_line_append a b :
  single_line (a +:+ b) = single_line a && single_line b.
Proof.
  induction a as [| c a IH]; [done |].
  rewrite append_cons, !single_line_cons, IH. by rewrite andb_assoc.
Qed.

Lemma twig_suffix_line_spec r :
  twig_suffix_line r = true <->
  exists pre, r = pre +:+ ".twig" /\ single_line pre = true.
Proof.
  split.
  - induction r as [| c r IH]; rewrite twig_suffix_line_eq.
    + discriminate.
    + intros [Heq | Hrest]%orb_true_iff.
      * apply String.eqb_eq in Heq. exists "". by rewrite Heq.
      * apply andb_true_iff in Hrest as [Hc Hr].
        destruct (IH Hr) as (pre & -> & Hpre).
        exists (String c pre). split; [done |].
        rewrite single_line_cons. by rewrite Hc, Hpre.
  - intros (pre & -> & Hpre). induction pre as [| c pre IH].
    + done.
    + rewrite single_line_cons in Hpre.
      apply andb_true_iff in Hpre as [Hc Hpre].
      rewrite append_cons, twig_suffix_line_eq. rewrite Hc, (IH Hpre).
      apply orb_true_r.
Qed.

(** The test, in words. *)
Lemma markup_is_file_spec markup :
  markup_is_file markup = true <->
  single_line markup = true /\
  exists pre, pre <> "" /\ markup = pre +:+ ".twig".
Proof.
  split.
  - destruct markup as [| c r]; [discriminate |]. unfold markup_is_file.
    intros [Hc Hr]%andb_true_iff.
    apply twig_suffix_line_spec in Hr as (pre & -> & Hpre).
    split.
    + rewrite single_line_cons, single_line_append, Hc, Hpre. done.
    + exists (String c pre). done.
  - intros (Hline & pre & Hne & ->).
    destruct pre as [| c pre]; [done |].
    rewrite append_cons in *. rewrite single_line_cons, single_line_append in Hline.
    apply andb_true_iff in Hline as [Hc [Hpre _]%andb_true_iff].
    unfold markup_is_file. rewrite Hc. simpl.
    apply twig_suffix_line_spec. by exists pre.
Qed.

Lemma search_none name exampleName files : forall s,
  first_named name files = None -> first_named exampleName files = None ->
  foldl (visit_file name exampleName) s files = s.
Proof.
  induction files as [| f r IH]; intros s; [done |].
  rewrite !first_named_cons.
  destruct (String.eqb (basename f) name) eqn:En; [discriminate |].
  destruct (String.eqb (basename f) exampleName) eqn:Ex; [discriminate |].
  intros Hn Hx. cbn [foldl]. unfold visit_file at 2. rewrite En, Ex.
  rewrite !andb_false_r. by apply IH.
Qed.

(** ** What the task of a section does *)

Section Resolver.
Context (H : Host).
Abbreviation jsval := (val (num H)).
Abbreviation store := (list (obj (num H))).

Lemma twigAsync_data id data (st : Builder H) :
  str_truthy data = true ->
  registry H st !! id = None ->
  twig_parses H (FromData data) = true ->
  twigAsync H (TwigData id data) st =
  (Ok (Template id (FromData data)),
   set_registry H (<[id := Template id (FromData data)]> (registry H st))
     (compiled H st ++ [Template id (FromData data)]) st).
Proof.
  intros Hd Hr Hp. unfold twigAsync. rewrite Hd. unfold Twig_twig. simpl.
  by rewrite Hr, Hp.
Qed.

(** An inline section: one task, two fresh contexts. *)
Lemma inline_section section roots (st : Builder H) :
  str_truthy (s_markup section) = true ->
  markup_is_file (s_markup section) = false ->
  let reference := s_reference section in
  let info := {| ti_ref := reference;
                 ti_context := VRef (length (heap H st));
                 ti_exampleRef := None;
                 ti_exampleContext := VRef (S (length (heap H st))) |} in
  exists roots' task st1,
    start_section H roots section st = (Ok (roots', [task]), st1) /\
    heap H st1 = heap H st ++ [OObj []; OObj []] /\
    forall st2 : Builder H,
      registry H st2 !! reference = None ->
      twig_parses H (FromData (s_markup section)) = true ->
      exists st3,
        task st2 = (Ok tt, st3) /\
        registry H st3 =
          <[reference := Template reference (FromData (s_markup section))]>
            (registry H st2) /\
        userTemplates H st3 = <[reference := info]> (userTemplates H st2) /\
        heap H st3 = heap H st2.
Proof.
  intros Hm Hf. cbv zeta.
  unfold start_section, bind, new_object, get, log, modify, ret.
  cbn [t_markup t_reference t_name heap set_heap options set_logged].
  rewrite Hm, Hf. cbn [negb].
  destruct (o_verbose (options H st)).
  - eexists _, _, _. split; [reflexivity |]. split.
    + cbn. by rewrite <- app_assoc.
    + intros st2 Hreg Hparse. unfold compileInline, bind.
      cbn [t_name t_markup].
      rewrite (twigAsync_data _ _ _ Hm Hreg Hparse).
      unfold ret, saveTemplate, modify. eexists. split; [reflexivity |].
      cbn. rewrite length_app. simpl.
      replace (length (heap H st) + 1) with (S (length (heap H st))) by lia.
      done.
  - eexists _, _, _. split; [reflexivity |]. split.
    + cbn. by rewrite <- app_assoc.
    + intros st2 Hreg Hparse. unfold compileInline, bind.
      cbn [t_name t_markup].
      rewrite (twigAsync_data _ _ _ Hm Hreg Hparse).
      unfold ret, saveTemplate, modify. eexists. split; [reflexivity |].
      cbn. rewrite length_app. simpl.
      replace (length (heap H st) + 1) with (S (length (heap H st))) by lia.
      done.
Qed.

Lemma not_found_truthy markup : str_truthy (markup +:+ " NOT FOUND!") = true.
Proof. by destruct markup. Qed.

Lemma search_not_found file sources :
  let name := basename file in
  let exampleName := "kss-example-" +:+ name in
  first_root H name file name sources = None ->
  first_root H exampleName file name sources = None ->
  search name exampleName file (findTemplates H sources file name) =
  {| foundTemplate := false; foundExample := false; found_file := file;
     found_exampleFile := ""; compileTemplates := [] |}.
Proof.
  intros name exampleName Hn He. rewrite search_concat. apply search_none.
  - rewrite (first_named_findTemplates H). by rewrite Hn.
  - rewrite (first_named_findTemplates H). by rewrite He.
Qed.

(** The task of a section whose file is found nowhere. *)
Lemma resolve_missing (template : SectionTemplate (num H)) sources (st : Builder H) :
  let name := t_name template in
  let file := t_file template in
  let marked := t_markup template +:+ " NOT FOUND!" in
  name = basename file ->
  t_exampleName template = Some ("kss-example-" +:+ name) ->
  first_root H name file name sources = None ->
  first_root H ("kss-example-" +:+ name) file name sources = None ->
  registry H st !! name = None ->
  twig_parses H (FromData marked) = true ->
  resolve_file H template (findTemplates H sources file name) st =
  (Ok (set_template_markup H marked (set_files H file "" template)),
   set_registry H (<[name := Template name (FromData marked)]> (registry H st))
     (compiled H st ++ [Template name (FromData marked)])
     (set_logged H
        (logged H st ++
         [if o_verbose (options H st)
          then " - " +:+ t_reference template +:+ ": " +:+ marked
          else "WARNING: In section " +:+ t_reference template +:+ ", " +:+ marked])
        st)).
Proof.
  intros name file marked Hname Hex Hn He Hreg Hparse.
  assert (Hs : search name ("kss-example-" +:+ name) file
                 (findTemplates H sources file name) =
               Build_Search false false file "" []).
  { rewrite Hname in *. by apply search_not_found. }
  unfold resolve_file. rewrite Hex. cbn [default]. unfold id. fold name file.
  rewrite Hs.
  cbn [foundTemplate foundExample found_file found_exampleFile compileTemplates
       negb andb app].
  unfold bind at 1, get at 1.
  destruct (o_verbose (options H st)) eqn:Ev; cbn [negb].
  - unfold bind, ret, log, modify, promise_all, run_job, compileInline, map.
    cbn [t_name t_markup set_template_markup set_files t_reference].
    unfold bind. fold name marked.
    rewrite twigAsync_data; [| apply not_found_truthy | done | done].
    unfold ret. cbn. done.
  - unfold bind, ret, log, modify, promise_all, run_job, compileInline, map.
    cbn [t_name t_markup set_template_markup set_files t_reference].
    unfold bind. fold name marked.
    rewrite twigAsync_data; [| apply not_found_truthy | done | done].
    unfold ret. cbn. done.
Qed.

(** Every section has its item page once an item template is set. *)
Lemma item_page_planned sg roots t section :
  pt_item t <> None -> section ∈ sg_sections sg ->
  ("item", Some (s_reference section), [section]) ∈ page_plan sg roots t.
Proof.
  intros Hitem Hin. unfold page_plan. right. apply elem_of_app. right.
  destruct (pt_item t); [| done].
  apply list_elem_of_fmap. by exists section.
Qed.

End Resolver.

(** ** What leaves the page templates alone *)

Create HintDb keeps.

Section Keeps.
Context (H : Host).
Abbreviation keeps := (keeps_templates H).

Lemma keeps_ret {A} (a : A) : keeps (ret H a).
Proof. by intros st. Qed.

Lemma keeps_reject {A} e : keeps (@reject H A e).
Proof. by intros st. Qed.

Lemma keeps_get : keeps (get H).
Proof. by intros st. Qed.

Lemma keeps_bind {A B} (m : M H A) (k : A -> M H B) :
  keeps m -> (forall a, keeps (k a)) -> keeps (bind H m k).
Proof.
  intros Hm Hk st. unfold bind. specialize (Hm st).
  destruct (m st) as [[a | e] st1]; simpl in *; [| done].
  by rewrite Hk.
Qed.

Lemma keeps_catch {A} (m k : M H A) :
  keeps m -> keeps k -> keeps (catch H m k).
Proof.
  intros Hm Hk st. unfold catch. specialize (Hm st).
  destruct (m st) as [[a | e] st1]; simpl in *; [done |].
  by rewrite Hk.
Qed.

Lemma keeps_promise_all {A} (tasks : list (M H A)) :
  Forall keeps tasks -> keeps (promise_all H tasks).
Proof.
  induction 1 as [| t rest Ht _ IH]; [by intros st |].
  intros st. simpl. specialize (Ht st).
  destruct (t st) as [[a | e] st1]; simpl in *.
  - specialize (IH st1). destruct (promise_all H rest st1) as [[l | e] st2];
      simpl in *; congruence.
  - rewrite IH. done.
Qed.

Lemma keeps_forEachM {A B} (f : A -> M H B) l :
  (forall a, keeps (f a)) -> keeps (forEachM H f l).
Proof.
  intros Hf. induction l as [| a r IH]; simpl; [apply keeps_ret |].
  apply keeps_bind; [done |]. intros b.
  apply keeps_bind; [done |]. intros bs. apply keeps_ret.
Qed.

Lemma keeps_modify (f : Builder H -> Builder H) :
  (forall st, templates H (f st) = templates H st) -> keeps (modify H f).
Proof. intros Hf st. apply Hf. Qed.

Lemma keeps_if {A} (b : bool) (m1 m2 : M H A) :
  keeps m1 -> keeps m2 -> keeps (if b then m1 else m2).
Proof. by destruct b. Qed.

Ltac keeps_prim :=
  intros ?; repeat (simpl; try done; case_match).

Lemma keeps_log line : keeps (log H line).
Proof. by intros st. Qed.

Lemma keeps_new_object : keeps (new_object H).
Proof. by intros st. Qed.

Lemma keeps_JSON_copy v : keeps (JSON_copy H v).
Proof. intros st. unfold JSON_copy. by repeat case_match. Qed.

Lemma keeps_require_json path : keeps (require_json H path).
Proof. intros st. unfold require_json. by repeat case_match. Qed.

Lemma keeps_get_prop data key : keeps (get_prop H data key).
Proof. intros st. unfold get_prop. by repeat case_match. Qed.

Lemma keeps_set_prop data key v : keeps (set_prop H data key v).
Proof. intros st. unfold set_prop. by repeat case_match. Qed.

Lemma keeps_Twig_twig t : keeps (Twig_twig H t).
Proof. intros st. unfold Twig_twig. by repeat case_match. Qed.

Lemma keeps_registryReset : keeps (registryReset H).
Proof. by intros st. Qed.

Lemma keeps_twigAsync o : keeps (twigAsync H o).
Proof.
  destruct o; unfold twigAsync; apply keeps_if;
    auto using keeps_Twig_twig, keeps_reject.
Qed.

Lemma keeps_twigAsync_ref ref : keeps (twigAsync_ref H ref).
Proof. unfold twigAsync_ref. apply keeps_if; [by intros st | apply keeps_reject]. Qed.

Lemma keeps_render t data : keeps (render H t data).
Proof. intros st. unfold render. by repeat case_match. Qed.

Lemma keeps_saveTemplate t : keeps (saveTemplate H t).
Proof. by intros st. Qed.

Lemma keeps_writeFile path data : keeps (writeFile H path data).
Proof. unfold writeFile. apply keeps_if; [by intros st | apply keeps_reject]. Qed.

End Keeps.

#[export] Hint Resolve keeps_ret keeps_reject keeps_get keeps_log keeps_new_object
  keeps_JSON_copy keeps_require_json keeps_get_prop keeps_set_prop keeps_Twig_twig
  keeps_registryReset keeps_twigAsync keeps_twigAsync_ref keeps_render
  keeps_saveTemplate keeps_writeFile : keeps.

Ltac keeps_step :=
  first
    [ apply keeps_bind; [| intros ?]
    | apply keeps_catch
    | apply keeps_if
    | apply keeps_forEachM; intros ?
    | solve [eauto with keeps]
    | match goal with
      | |- keeps_templates _ (match (if ?b then _ else _) with _ => _ end) =>
          destruct b
      | |- keeps_templates _ (match ?x with _ => _ end) => destruct x
      | |- keeps_templates _ (let '(_, _) := ?x in _) => destruct x
      end ].

Ltac solve_keeps := repeat keeps_step.

Section KeepsBuilder.
Context (H : Host).
Abbreviation keeps := (keeps_templates H).

Lemma keeps_placeholder_data ctx section : keeps (placeholder_data H ctx section).
Proof. unfold placeholder_data. solve_keeps. Qed.

Lemma keeps_modifier_data ctx m : keeps (modifier_data H ctx m).
Proof. unfold modifier_data. solve_keeps. Qed.

Lemma keeps_render_modifier t ctx m : keeps (render_modifier H t ctx m).
Proof. unfold render_modifier. solve_keeps. Qed.

Lemma keeps_map {A B} (f : A -> M H B) l :
  (forall a, keeps (f a)) -> Forall keeps (map f l).
Proof. intros Hf. induction l; constructor; auto. Qed.

Lemma keeps_app {A} (l1 l2 : list (M H A)) :
  Forall keeps l1 -> Forall keeps l2 -> Forall keeps (l1 ++ l2).
Proof. induction 1; simpl; [done | by constructor; auto]. Qed.

Lemma keeps_render_section section : keeps (render_section H section).
Proof. unfold render_section. solve_keeps. Qed.

Lemma keeps_homepage_text : keeps (homepage_text H).
Proof. unfold homepage_text. solve_keeps. Qed.

Lemma keeps_buildPage sg name ref sections : keeps (buildPage H sg name ref sections).
Proof.
  unfold buildPage. apply keeps_bind.
  - apply keeps_promise_all, keeps_map, keeps_render_section.
  - intros rendered. solve_keeps.
Qed.

Lemma keeps_run_job t j : keeps (run_job H t j).
Proof. destruct j; unfold run_job, compileInline; solve_keeps. Qed.

Lemma keeps_resolve_file t globMatches : keeps (resolve_file H t globMatches).
Proof.
  unfold resolve_file. solve_keeps.
  apply keeps_promise_all, keeps_map, keeps_run_job.
Qed.

(** The synchronous part of [sections.forEach] keeps the templates, and
    so does every task it creates. *)
Lemma start_section_keeps roots section (st : Builder H) :
  templates H (snd (start_section H roots section st)) = templates H st /\
  match fst (start_section H roots section st) with
  | Ok r => Forall keeps (snd r)
  | Err _ => True
  end.
Proof.
  unfold start_section, bind, new_object, get, log, modify, ret, compileInline.
  repeat (case_match; simpl in *; simplify_eq); split; try done;
    repeat constructor; solve_keeps;
    apply keeps_promise_all, keeps_map, keeps_run_job.
Qed.

Lemma start_sections_keeps sections : forall roots (st : Builder H),
  templates H (snd (start_sections H roots sections st)) = templates H st /\
  match fst (start_sections H roots sections st) with
  | Ok r => Forall keeps (snd r)
  | Err _ => True
  end.
Proof.
  induction sections as [| s rest IH]; intros roots st; simpl.
  - split; [done | constructor].
  - unfold bind.
    pose proof (start_section_keeps roots s st) as [Ht Hk].
    destruct (start_section H roots s st) as [[r | e] st1]; simpl in *; [| done].
    pose proof (IH (fst r) st1) as [Ht' Hk'].
    destruct (start_sections H (fst r) rest st1) as [[r' | e] st2]; simpl in *.
    + split; [congruence |]. by apply keeps_app.
    + split; [congruence | done].
Qed.

End KeepsBuilder.

(** ** Page templates *)

Section PageTemplates.
Context (H : Host).
Abbreviation keeps := (keeps_templates H).

Lemma bind_ok {A B} (m : M H A) (k : A -> M H B) st a st1 :
  m st = (Ok a, st1) -> bind H m k st = k a st1.
Proof. intros Hm. unfold bind. by rewrite Hm. Qed.

Lemma bind_err {A B} (m : M H A) (k : A -> M H B) st e st1 :
  m st = (Err e, st1) -> bind H m k st = (Err e, st1).
Proof. intros Hm. unfold bind. by rewrite Hm. Qed.

Lemma bind_inv {A B} (m : M H A) (k : A -> M H B) st b st2 :
  bind H m k st = (Ok b, st2) ->
  exists a st1, m st = (Ok a, st1) /\ k a st1 = (Ok b, st2).
Proof.
  unfold bind. destruct (m st) as [[a | e] st1]; [eauto | discriminate].
Qed.

Lemma promise_all_cons_inv {A} (t : M H A) rest st l st2 :
  promise_all H (t :: rest) st = (Ok l, st2) ->
  exists a st1 l', t st = (Ok a, st1) /\ promise_all H rest st1 = (Ok l', st2).
Proof.
  simpl. destruct (t st) as [[a | e] st1]; [| discriminate].
  destruct (promise_all H rest st1) as [[l' | e] st2'] eqn:E; [| discriminate].
  intros [= <- <-]. eauto.
Qed.

(** With the three page templates set, the load task is the resolved
    promise: nothing is loaded. *)
Lemma loadTask_loaded (st : Builder H) :
  all_loaded (templates H st) -> loadTask H (the_templates H st) = ret H tt.
Proof.
  intros (i & s & it & Ht). unfold the_templates. rewrite Ht. reflexivity.
Qed.

Lemma twigAsync_path_free id path (st : Builder H) :
  registry H st !! id = None ->
  twigAsync H (TwigPath id path) st =
  if loadable H path
  then (Ok (Template id (FromPath path)),
        set_registry H (<[id := Template id (FromPath path)]> (registry H st))
          (compiled H st ++ [Template id (FromPath path)]) st)
  else (fst (twigAsync H (TwigPath id path) st), st).
Proof.
  intros Hfree. unfold twigAsync, loadable, Twig_twig, reject.
  destruct (fs_is_file H path); simpl; [| done].
  rewrite Hfree. by destruct (twig_parses H (FromPath path)).
Qed.

Lemma twigAsync_path_err id path (st : Builder H) :
  registry H st !! id = None -> loadable H path = false ->
  exists e, twigAsync H (TwigPath id path) st = (Err e, st).
Proof.
  intros Hfree. unfold twigAsync, loadable, Twig_twig, reject.
  destruct (fs_is_file H path); simpl; [| eauto].
  rewrite Hfree. destruct (twig_parses H (FromPath path)); [done | eauto].
Qed.

(** C5. Page templates fall back in the order item, section, index: on
    a first build, when the index template loads, the load task succeeds
    whatever happens to [section.twig] and [item.twig]; the section
    template is [section.twig] when it loads and the index template when
    it does not; the item template is [item.twig] when it loads and the
    section template (itself possibly the index template) when it does
    not. *)
Theorem page_template_fallback (st : Builder H) :
  the_templates H st = no_templates ->
  registry H st = ∅ ->
  let path file := path_resolve H (o_builder (options H st)) file in
  loadable H (path "index.twig") = true ->
  let section :=
    if loadable H (path "section.twig") then section_twig H st else index_twig H st in
  let item :=
    if loadable H (path "item.twig") then item_twig H st else section in
  exists st',
    loadTask H (the_templates H st) st = (Ok tt, st') /\
    templates H st' = Some {| pt_index := Some (index_twig H st);
                              pt_section := Some section;
                              pt_item := Some item |}.
Proof.
  intros Hnow Hreg. cbv zeta. intros Hindex. rewrite Hnow.
  unfold index_twig, section_twig, item_twig in *.
  set (pi := path_resolve H (o_builder (options H st)) "index.twig") in *.
  set (ps := path_resolve H (o_builder (options H st)) "section.twig") in *.
  set (pt := path_resolve H (o_builder (options H st)) "item.twig") in *.
  unfold loadTask. cbn [pt_index pt_section pt_item no_templates].
  unfold bind, catch, builder_path, set_index, set_section, set_item, modify, get, ret.
  fold pi. rewrite twigAsync_path_free by (rewrite Hreg; apply lookup_empty).
  rewrite Hindex.
  unfold the_templates in *.
  cbn [templates set_templates set_registry options registry].
  rewrite Hnow. cbn [pt_section pt_item no_templates default]. fold ps.
  destruct (loadable H ps) eqn:Es.
  - rewrite twigAsync_path_free
      by (cbn; rewrite lookup_insert_ne by done; rewrite Hreg; apply lookup_empty).
    rewrite Es. cbn [templates set_templates set_registry options registry default
                     pt_index pt_section pt_item]. fold pt.
    destruct (loadable H pt) eqn:Ei.
    + rewrite twigAsync_path_free
        by (cbn; rewrite !lookup_insert_ne by done; rewrite Hreg; apply lookup_empty).
      rewrite Ei. eexists. split; reflexivity.
    + edestruct (twigAsync_path_err "@builderTwig/item.twig" pt)
        as [e He]; [| exact Ei | rewrite He].
      { cbn. rewrite !lookup_insert_ne by done. rewrite Hreg. apply lookup_empty. }
      eexists. split; reflexivity.
  - edestruct (twigAsync_path_err "@builderTwig/section.twig" ps)
      as [e He]; [| exact Es | rewrite He].
    { cbn. rewrite !lookup_insert_ne by done. rewrite Hreg. apply lookup_empty. }
    cbn [templates set_templates set_registry options registry default
         pt_index pt_section pt_item]. fold pt.
    destruct (loadable H pt) eqn:Ei.
    + rewrite twigAsync_path_free
        by (cbn; rewrite !lookup_insert_ne by done; rewrite Hreg; apply lookup_empty).
      rewrite Ei. eexists. split; reflexivity.
    + edestruct (twigAsync_path_err "@builderTwig/item.twig" pt)
        as [e' He']; [| exact Ei | rewrite He'].
      { cbn. rewrite !lookup_insert_ne by done. rewrite Hreg. apply lookup_empty. }
      eexists. split; reflexivity.
Qed.

Ltac split_twigAsync :=
  match goal with
  | Hyp : context [twigAsync H ?o ?s] |- _ =>
      let K := fresh "K" in
      pose proof (keeps_twigAsync H o s) as K;
      destruct (twigAsync H o s) as [[? | ?] ?];
      cbn -[twigAsync] in *
  end.

(** A load task that is fulfilled leaves the three page templates set. *)
Lemma loadTask_ok_all_loaded (st st' : Builder H) :
  loadTask H (the_templates H st) st = (Ok tt, st') -> all_loaded (templates H st').
Proof.
  unfold loadTask, bind, catch, builder_path, set_index, set_section, set_item,
    modify, get, ret, all_loaded, the_templates.
  destruct (templates H st) as [[[i |] [s |] [it |]] |] eqn:Et;
    cbn -[twigAsync]; intros Hl;
    repeat (split_twigAsync; try discriminate;
            repeat match goal with
                   | K : templates H _ = _ |- _ => rewrite K in *; clear K
                   end;
            cbn -[twigAsync] in * );
    simplify_eq; cbn; eauto.
Qed.

Lemma keeps_bind_post {A B} (m : M H A) (k : A -> M H B) (P : A -> Prop) :
  (forall st, templates H (snd (m st)) = templates H st /\
              match fst (m st) with Ok a => P a | Err _ => True end) ->
  (forall a, P a -> keeps (k a)) -> keeps (bind H m k).
Proof.
  intros Hm Hk st. unfold bind. destruct (Hm st) as [Ht HP].
  destruct (m st) as [[a | e] st1]; simpl in *; [| done].
  rewrite Hk; done.
Qed.

Lemma keeps_pages sg plan :
  keeps (promise_all H
           (map (fun page : string * option string * list KssSection =>
                   buildPage H sg (fst (fst page)) (snd (fst page)) (snd page))
              plan)).
Proof. apply keeps_promise_all, keeps_map. intros page. apply keeps_buildPage. Qed.

(** Once the page templates are set, a build leaves them as they are. *)
Lemma build_keeps_loaded sg (st : Builder H) :
  all_loaded (templates H st) ->
  templates H (snd (build H sg st)) = templates H st.
Proof.
  intros Hall. pose proof Hall as (i & s & it & Ht).
  unfold build.
  unfold bind at 1, modify at 1. unfold bind at 1, modify at 1.
  unfold bind at 1, registryReset, modify at 1.
  unfold bind at 1, get at 1.
  cbn [templates set_userTemplates].
  replace (match templates H st with
           | Some _ => set_userTemplates H ∅ st
           | None => set_templates H (Some no_templates) (set_userTemplates H ∅ st)
           end) with (set_userTemplates H ∅ st) by (by rewrite Ht).
  set (st_a := set_registry H ∅ _ _).
  assert (Ha : templates H st_a = templates H st) by done.
  rewrite <- Ha.
  assert (Hload : loadTask H (the_templates H st_a) = ret H tt).
  { apply loadTask_loaded. by rewrite Ha. }
  rewrite Hload.
  match goal with |- templates H (snd (?m st_a)) = _ => enough (keeps m) as Hk by apply Hk end.
  apply keeps_bind; [solve_keeps |]. intros _.
  apply keeps_bind; [solve_keeps |]. intros _.
  eapply keeps_bind_post; [intros st0; apply start_sections_keeps |].
  intros [roots tasks] Htasks. cbn [fst snd] in *.
  apply keeps_bind.
  { apply keeps_promise_all. constructor; [apply keeps_ret | done]. }
  intros _. solve_keeps. apply keeps_pages.
Qed.

Lemma keeps_run {A} (m : M H A) st r st1 :
  keeps m -> m st = (r, st1) -> templates H st1 = templates H st.
Proof. intros Hk Hm. specialize (Hk st). by rewrite Hm in Hk. Qed.

(** A build that is fulfilled leaves the three page templates set. *)
Lemma build_ok_all_loaded sg (st st1 : Builder H) r :
  build H sg st = (Ok r, st1) -> all_loaded (templates H st1).
Proof.
  unfold build.
  unfold bind at 1, modify at 1. unfold bind at 1, modify at 1.
  unfold bind at 1, registryReset, modify at 1.
  unfold bind at 1, get at 1.
  set (st_a := set_registry H ∅ _ _).
  intros Hb.
  apply bind_inv in Hb as (? & st_l1 & Hl1 & Hb).
  apply bind_inv in Hb as (? & st_l2 & Hl2 & Hb).
  apply bind_inv in Hb as ([roots tasks] & st_b & Hstart & Hb).
  apply bind_inv in Hb as (? & st_c & Hall & Hb).
  apply promise_all_cons_inv in Hall as ([] & st_b' & l' & Hload & Htasks).
  assert (K1 : templates H st_l1 = templates H st_a).
  { eapply keeps_run; [| exact Hl1]. solve_keeps. }
  assert (K2 : templates H st_l2 = templates H st_l1).
  { eapply keeps_run; [| exact Hl2]. solve_keeps. }
  pose proof (start_sections_keeps H (sg_sections sg) [] st_l2) as [K3 Hk].
  rewrite Hstart in K3, Hk. cbn [fst snd] in K3, Hk.
  assert (Hnow : the_templates H st_a = the_templates H st_b).
  { unfold the_templates. by rewrite K3, K2, K1. }
  rewrite Hnow in Hload. apply loadTask_ok_all_loaded in Hload.
  assert (K4 : templates H st_c = templates H st_b').
  { eapply keeps_run; [| exact Htasks]. by apply keeps_promise_all. }
  assert (K5 : templates H st1 = templates H st_c).
  { eapply keeps_run; [| exact Hb]. solve_keeps. apply keeps_pages. }
  by rewrite K5, K4.
Qed.


End PageTemplates.

(** ** Rendering a section *)

Section Rendering.
Context (H : Host).
Abbreviation jsval := (val (num H)).
Abbreviation jstree := (tree (num H)).
Abbreviation store := (list (obj (num H))).

(** Data laid out by [JSON.parse] holds no [Twig.Markup] value. *)
Lemma shape_unmark (h : store) t : forall v lo hi,
  shape H h t v lo hi -> unmark H t = t.
Proof.
  induction t as [| p | p | ts IH | fs IH] using (tree_ind' H);
    intros [| q | q | l] lo hi; simpl; try tauto.
  - intros (_ & es & ps & _ & Hc). f_equal.
    clear -IH Hc. revert es lo Hc.
    induction ts as [| t r IHr]; intros [| e es] lo; simpl; try tauto.
    apply Forall_cons in IH as [Ht Hr]. intros (a & b & _ & _ & Hs & Hc).
    rewrite (Ht _ _ _ Hs). f_equal. eauto.
  - intros (_ & fvs & _ & Hc). f_equal.
    clear -IH Hc. revert fvs lo Hc.
    induction fs as [| [k t] r IHr]; intros [| e es] lo; simpl; try tauto.
    apply Forall_cons in IH as [Ht Hr]. intros (a & b & _ & _ & [_ Hs] & Hc).
    simpl in *. rewrite (Ht _ _ _ Hs). f_equal. eauto.
Qed.

(** What a laid-out object followed through the store gives back. *)
Lemma shape_stored_fields (h : store) fs l lo :
  shape H h (TObj fs) (VRef l) lo (length h) ->
  stored_fields H h (VRef l) = Some fs.
Proof.
  intros Hs. unfold stored_fields, JSON_stringify.
  pose proof (shape_depth H _ _ _ _ _ Hs) as Hd.
  erewrite sees_reify; [| apply shape_sees; exact Hs | lia].
  change (unmark H <$> Some (TObj fs)) with (Some (unmark H (TObj fs))).
  by rewrite (shape_unmark _ _ _ _ _ Hs).
Qed.

Lemma resolved_grows (st : Builder H) info r ext :
  resolved H st info = Some r ->
  resolved H (set_heap H (heap H st ++ ext) st) info = Some r.
Proof.
  unfold resolved. cbn [registry heap set_heap].
  destruct (str_truthy (ti_ref info)); [| done].
  destruct (registry H st !! ti_ref info); [| done].
  destruct (stored_fields H (heap H st) (ti_context info)) as [fs |] eqn:Efs; [| done].
  rewrite (stored_fields_grows H _ ext _ _ Efs).
  destruct (opt_truthy (ti_exampleRef info)); [| done].
  destruct (registry H st !! default "" (ti_exampleRef info)); [| done].
  destruct (stored_fields H (heap H st) (ti_exampleContext info)) as [fe |] eqn:Efe;
    [| done].
  by rewrite (stored_fields_grows H _ ext _ _ Efe).
Qed.

(** C4. Rendering never mutates the stored sample contexts: every
    rendering works on its own deep copy, allocated behind the existing
    store. Rendering a section leaves what its template record resolves
    to unchanged, rendering it a second time gives the same section, the
    markup and the example are the templates rendered on the stored data
    under the placeholder rule, and no rendering of modifiers changes
    the markup and example strings already computed. *)
Theorem contexts_never_mutated section (st : Builder H) info r s' :
  engine_frame H ->
  str_truthy (j_markup section) = true ->
  userTemplates H st !! j_reference section = Some info ->
  resolved H st info = Some r ->
  renderer H r (o_placeholder (options H st)) section = Some s' ->
  exists st1 st2,
    render_section H section st = (Ok s', st1) /\
    (exists ext, heap H st1 = heap H st ++ ext) /\
    resolved H st1 info = Some r /\
    render_section H section st1 = (Ok s', st2) /\
    render_as H (r_template H r)
      (placeholder_fields H (r_fields H r) (has_modifiers section)
         (o_placeholder (options H st))) = Some (j_markup s') /\
    j_example s' =
      match r_example H r with
      | Some (te, fe) =>
          render_as H te
            (placeholder_fields H fe (has_modifiers section)
               (o_placeholder (options H st)))
      | None => Some (j_markup s')
      end /\
    (forall ms, j_markup (set_modifiers ms s') = j_markup s' /\
                j_example (set_modifiers ms s') = j_example s').
Proof.
  intros Hframe Hmk Hinfo Hres Hspec.
  destruct (render_section_refines H section st info r s' Hframe Hmk Hinfo Hres Hspec)
    as (h1 & Hr1 & [ext ->]).
  pose proof (resolved_grows st info r ext Hres) as Hres1.
  destruct (render_section_refines H section (set_heap H (heap H st ++ ext) st)
              info r s' Hframe Hmk Hinfo Hres1 Hspec) as (h2 & Hr2 & _).
  exists (set_heap H (heap H st ++ ext) st),
    (set_heap H h2 (set_heap H (heap H st ++ ext) st)).
  split; [exact Hr1 |]. split; [by exists ext |]. split; [exact Hres1 |].
  split; [exact Hr2 |].
  unfold renderer in Hspec.
  destruct (render_as H (r_template H r) _) as [markup |]; [| done].
  destruct (default _ (r_example H r)) as [tm fm].
  repeat case_match; simplify_eq; done.
Qed.

(** C6. When the template record of a section names no example template,
    the example of the rendered section is its rendered markup, the very
    same string. *)
Theorem example_is_markup section (st : Builder H) info r s' :
  engine_frame H ->
  str_truthy (j_markup section) = true ->
  userTemplates H st !! j_reference section = Some info ->
  opt_truthy (ti_exampleRef info) = false ->
  resolved H st info = Some r ->
  renderer H r (o_placeholder (options H st)) section = Some s' ->
  exists st1,
    render_section H section st = (Ok s', st1) /\
    r_example H r = None /\
    j_example s' = Some (j_markup s').
Proof.
  intros Hframe Hmk Hinfo Hex Hres Hspec.
  destruct (render_section_refines H section st info r s' Hframe Hmk Hinfo Hres Hspec)
    as (h1 & Hr1 & _).
  exists (set_heap H h1 st). split; [done |].
  assert (Hnone : r_example H r = None).
  { unfold resolved in Hres. rewrite Hex in Hres. repeat case_match; by simplify_eq. }
  split; [done |].
  unfold renderer in Hspec. rewrite Hnone in Hspec.
  repeat case_match; by simplify_eq.
Qed.

(** C7, amended. Each modifier of a rendered section is rendered with the
    example template on a deep copy of the example context (the main
    template and the main context when there is no example), whose
    [modifier_class] is set to the class name of the modifier, preceded
    by the existing value and a space only when the existing value is
    truthy; the placeholder is not used. *)
Theorem modifier_rendering section (st : Builder H) info r s' :
  engine_frame H ->
  str_truthy (j_markup section) = true ->
  userTemplates H st !! j_reference section = Some info ->
  resolved H st info = Some r ->
  renderer H r (o_placeholder (options H st)) section = Some s' ->
  let tm := fst (default (r_template H r, r_fields H r) (r_example H r)) in
  let fm := snd (default (r_template H r, r_fields H r) (r_example H r)) in
  let existing := get_tfield H "modifier_class" fm in
  exists st1,
    render_section H section st = (Ok s', st1) /\
    (exists ext, heap H st1 = heap H st ++ ext) /\
    Forall2 (fun m m' =>
               mj_className m' = mj_className m /\
               exists out,
                 mj_markup m' = Some out /\
                 render_as H tm (modifier_fields H fm (mj_className m)) = Some out /\
                 get_tfield H "modifier_class" (modifier_fields H fm (mj_className m))
                 = Some (TPrim (PStr ((if tree_truthy H existing
                                       then tree_toString H existing +:+ " "
                                       else "")
                                      +:+ mj_className m))))
      (j_modifiers section) (j_modifiers s').
Proof.
  intros Hframe Hmk Hinfo Hres Hspec tm fm existing.
  destruct (render_section_refines H section st info r s' Hframe Hmk Hinfo Hres Hspec)
    as (h1 & Hr1 & Hext).
  exists (set_heap H h1 st). split; [done |]. split; [done |].
  unfold renderer in Hspec.
  destruct (render_as H (r_template H r) _) as [markup |]; [| done].
  subst tm fm existing.
  destruct (default _ (r_example H r)) as [tm fm]. cbn [fst snd].
  destruct (match r_example H r with Some _ => _ | None => _ end); [| done].
  destruct (mapM (modifier_spec H tm fm) (j_modifiers section)) as [ms |] eqn:Ems;
    [| done].
  injection Hspec as <-. cbn [j_modifiers].
  apply mapM_Some in Ems. eapply Forall2_impl; [exact Ems |].
  intros m m' Hm. unfold modifier_spec in Hm.
  destruct (render_as H tm _) as [out |] eqn:Eout; [| done].
  injection Hm as <-. cbn. split; [done |]. exists out.
  split; [done |]. split; [done |].
  unfold modifier_fields. by rewrite get_tfield_set_tfield.
Qed.

(** C9. The placeholder is appended to the [modifier_class] of a
    rendering context only when the section has a modifier and the
    [placeholder] option is a truthy string; otherwise the field keeps
    its existing value, the empty string when that is absent or falsy. *)
Theorem placeholder_rule ctx section (st : Builder H) fs :
  stored_fields H (heap H st) ctx = Some fs ->
  let placeholder := o_placeholder (options H st) in
  let existing :=
    if tree_truthy H (get_tfield H "modifier_class" fs)
    then default TNull (get_tfield H "modifier_class" fs)
    else TPrim (PStr "") in
  exists data st1 fs',
    placeholder_data H ctx section st = (Ok data, st1) /\
    (exists ext, heap H st1 = heap H st ++ ext) /\
    stored_fields H (heap H st1) data = Some fs' /\
    fs' = placeholder_fields H fs (has_modifiers section) placeholder /\
    get_tfield H "modifier_class" fs' =
      Some (if has_modifiers section && str_truthy placeholder
            then TPrim (PStr (tree_toString H (Some existing)
                              +:+ (if tree_truthy H (Some existing) then " " else "")
                              +:+ placeholder))
            else existing).
Proof.
  intros Hs placeholder existing.
  destruct (placeholder_data_spec H ctx section st fs Hs) as (h1 & l & Hp & Hext & Hsh).
  exists (VRef l), (set_heap H h1 st),
    (placeholder_fields H fs (has_modifiers section) placeholder).
  split; [exact Hp |].
  split; [exact Hext |]. cbn [heap set_heap].
  split; [eapply shape_stored_fields; exact Hsh |]. split; [done |].
  unfold placeholder_fields. fold existing placeholder.
  destruct (has_modifiers section && str_truthy placeholder);
    by rewrite get_tfield_set_tfield.
Qed.

End Rendering.

(** ** Inline markup and missing files *)

Section SectionTemplates.
Context (H : Host).

(** C8, amended. The markup of a section, when not empty, is a file
    reference exactly when it has no line feed and is at least one
    character followed by [.twig]. Otherwise the task of the section, run
    where the reference is not registered yet and the engine accepts the
    text, compiles the markup as an inline template whose identity is the
    reference of the section, and stores it with no example and two
    fresh empty contexts. *)
Theorem file_reference_or_inline section roots (st : Builder H) :
  str_truthy (s_markup section) = true ->
  let markup := s_markup section in
  let reference := s_reference section in
  (markup_is_file markup = true <->
   single_line markup = true /\ exists pre, pre <> "" /\ markup = pre +:+ ".twig") /\
  (markup_is_file markup = false ->
   exists roots' task st1,
     start_section H roots section st = (Ok (roots', [task]), st1) /\
     heap H st1 = heap H st ++ [OObj []; OObj []] /\
     forall st2 : Builder H,
       registry H st2 !! reference = None ->
       twig_parses H (FromData markup) = true ->
       exists st3,
         task st2 = (Ok tt, st3) /\
         registry H st3 =
           <[reference := Template reference (FromData markup)]> (registry H st2) /\
         userTemplates H st3 =
           <[reference := {| ti_ref := reference;
                             ti_context := VRef (length (heap H st));
                             ti_exampleRef := None;
                             ti_exampleContext := VRef (S (length (heap H st))) |}]>
             (userTemplates H st2) /\
         heap H st3 = heap H st2).
Proof.
  intros Hm markup reference. split.
  - apply markup_is_file_spec.
  - intros Hf. by apply inline_section.
Qed.


End SectionTemplates.

(** * The sample style guide

    The properties above at a concrete style guide: two source roots,
    [/a] and [/b], a section with a template under both roots and an
    example under the second, an inline section, a section whose file is
    missing and one with a sample JSON file. *)

(** The sample engine writes to the object it is handed and to nothing
    else. *)
Lemma sample_engine_frame : engine_frame Sample.host.
Proof.
  intros t h v P ctx Hsee. simpl. unfold Sample.wipe_root.
  destruct v as [| p | p | l]; try (split; [lia | done]).
  split; [by rewrite length_insert |].
  intros x Hx HP. apply list_lookup_insert_ne. intros <-. apply HP.
  destruct ctx; simpl in Hsee; tauto.
Qed.


(** The template comes from [/a], the example from [/b]. *)
Lemma example_from_another_root :
  let s := search "button.twig" "kss-example-button.twig" "button.twig"
             (findTemplates Sample.host ["/a"; "/b"] "button.twig" "button.twig") in
  first_root Sample.host "button.twig" "button.twig" "button.twig" ["/a"; "/b"]
    = Some ("/a", "/a/button.twig") /\
  first_root Sample.host "kss-example-button.twig" "button.twig" "button.twig"
    ["/a"; "/b"] = Some ("/b", "/b/kss-example-button.twig") /\
  found_file s = "/a/button.twig" /\
  found_exampleFile s = "/b/kss-example-button.twig".
Proof. vm_compute. repeat split. Qed.



(** The buttons section, rendered twice. *)
Lemma contexts_never_mutated_witness :
  engine_frame Sample.host /\
  str_truthy (j_markup (toJSON Sample.buttons)) = true /\
  userTemplates Sample.host Sample.built !! "1" = Some Sample.buttons_info /\
  resolved Sample.host Sample.built Sample.buttons_info = Some Sample.buttons_resolved /\
  renderer Sample.host Sample.buttons_resolved "[modifier class]" (toJSON Sample.buttons)
    = Some Sample.buttons_rendered /\
  exists st1 st2,
    render_section Sample.host (toJSON Sample.buttons) Sample.built
      = (Ok Sample.buttons_rendered, st1) /\
    render_section Sample.host (toJSON Sample.buttons) st1
      = (Ok Sample.buttons_rendered, st2) /\
    exists ext, heap Sample.host st1 = heap Sample.host Sample.built ++ ext.
Proof.
  assert (Hinfo : userTemplates Sample.host Sample.built !! "1"
                  = Some Sample.buttons_info) by (vm_compute; reflexivity).
  assert (Hres : resolved Sample.host Sample.built Sample.buttons_info
                 = Some Sample.buttons_resolved) by reflexivity.
  assert (Hout : renderer Sample.host Sample.buttons_resolved "[modifier class]"
                   (toJSON Sample.buttons)
                 = Some Sample.buttons_rendered) by (vm_compute; reflexivity).
  split; [exact sample_engine_frame |].
  split; [reflexivity |].
  do 3 (split; [assumption |]).
  destruct (contexts_never_mutated Sample.host (toJSON Sample.buttons) Sample.built
              Sample.buttons_info Sample.buttons_resolved Sample.buttons_rendered
              sample_engine_frame eq_refl Hinfo Hres Hout)
    as (st1 & st2 & Hfirst & Hext & _ & Hsecond & _).
  exists st1, st2. split; [exact Hfirst |]. split; [exact Hsecond | exact Hext].
Defined.

(** The sample builder directory holds [index.twig] only: section and
    item pages use it. *)
Lemma page_template_fallback_witness :
  the_templates Sample.host Sample.builder0 = no_templates /\
  registry Sample.host Sample.builder0 = ∅ /\
  loadable Sample.host "/builder/index.twig" = true /\
  loadable Sample.host "/builder/section.twig" = false /\
  loadable Sample.host "/builder/item.twig" = false /\
  exists st',
    loadTask Sample.host no_templates Sample.builder0 = (Ok tt, st') /\
    templates Sample.host st'
    = Some {| pt_index := Some (index_twig Sample.host Sample.builder0);
              pt_section := Some (index_twig Sample.host Sample.builder0);
              pt_item := Some (index_twig Sample.host Sample.builder0) |}.
Proof.
  do 2 (split; [reflexivity |]).
  do 3 (split; [vm_compute; reflexivity |]).
  destruct (page_template_fallback Sample.host Sample.builder0)
    as (st' & Hrun & Hst').
  - reflexivity.
  - reflexivity.
  - vm_compute; reflexivity.
  - exists st'. split; [exact Hrun | exact Hst'].
Defined.

(** The card section has no example file. *)
Lemma example_is_markup_witness :
  engine_frame Sample.host /\
  str_truthy (j_markup (toJSON Sample.card)) = true /\
  userTemplates Sample.host Sample.built !! "2.1" = Some Sample.card_info /\
  opt_truthy (ti_exampleRef Sample.card_info) = false /\
  resolved Sample.host Sample.built Sample.card_info = Some Sample.card_resolved /\
  renderer Sample.host Sample.card_resolved "[modifier class]" (toJSON Sample.card)
    = Some Sample.card_rendered /\
  (exists st1,
     render_section Sample.host (toJSON Sample.card) Sample.built
     = (Ok Sample.card_rendered, st1)) /\
  j_example Sample.card_rendered = Some (j_markup Sample.card_rendered).
Proof.
  assert (Hinfo : userTemplates Sample.host Sample.built !! "2.1"
                  = Some Sample.card_info) by (vm_compute; reflexivity).
  assert (Hres : resolved Sample.host Sample.built Sample.card_info
                 = Some Sample.card_resolved) by reflexivity.
  assert (Hout : renderer Sample.host Sample.card_resolved "[modifier class]"
                   (toJSON Sample.card)
                 = Some Sample.card_rendered) by (vm_compute; reflexivity).
  split; [exact sample_engine_frame |].
  split; [reflexivity |].
  split; [exact Hinfo |]. split; [reflexivity |].
  split; [exact Hres |]. split; [exact Hout |].
  destruct (example_is_markup Sample.host (toJSON Sample.card) Sample.built
              Sample.card_info Sample.card_resolved Sample.card_rendered
              sample_engine_frame eq_refl Hinfo eq_refl Hres Hout)
    as (st1 & Hrun & _ & Hexample).
  split; [by exists st1 | exact Hexample].
Defined.

(** Against C7 as stated: on an empty context the class of a modifier is
    its class name alone, which is no string followed by a space and the
    class name; the inline badge section renders its modifiers so. *)
Lemma modifier_class_without_space :
  let modifier := {| mj_name := ".primary"; mj_className := "primary";
                     mj_markup := None |} in
  let run := modifier_data Sample.host (VRef 0) modifier Sample.with_empty_context in
  stored_fields Sample.host (heap Sample.host Sample.with_empty_context) (VRef 0)
    = Some [] /\
  fst run = Ok (VRef 1) /\
  stored_fields Sample.host (heap Sample.host (snd run)) (VRef 1)
    = Some [("modifier_class", TPrim (PStr "primary"))] /\
  (forall existing : string, "primary" <> existing +:+ " " +:+ "primary") /\
  fst (render_section Sample.host (toJSON Sample.badge) Sample.built)
    = Ok {| j_reference := "1.1";
            j_header := "Badge";
            j_markup := "1.1[[modifier class]]";
            j_example := Some "1.1[[modifier class]]";
            j_modifiers :=
              [{| mj_name := ".primary"; mj_className := "primary";
                  mj_markup := Some "1.1[primary]" |};
               {| mj_name := ".tall"; mj_className := "tall";
                  mj_markup := Some "1.1[tall]" |}] |}.
Proof.
  cbv zeta.
  split; [vm_compute; reflexivity |].
  split; [vm_compute; reflexivity |].
  split; [vm_compute; reflexivity |].
  split; [| vm_compute; reflexivity].
  intros existing Heq. apply (f_equal String.length) in Heq.
  rewrite !length_append in Heq. simpl in Heq. lia.
Qed.

(** The card context has the class [card--wide]: the modifier [tall] is
    rendered with [card--wide tall]. *)
Lemma modifier_rendering_witness :
  engine_frame Sample.host /\
  str_truthy (j_markup (toJSON Sample.card)) = true /\
  userTemplates Sample.host Sample.built !! "2.1" = Some Sample.card_info /\
  resolved Sample.host Sample.built Sample.card_info = Some Sample.card_resolved /\
  renderer Sample.host Sample.card_resolved "[modifier class]" (toJSON Sample.card)
    = Some Sample.card_rendered /\
  Forall2 (fun m m' =>
             mj_className m' = mj_className m /\
             exists out,
               mj_markup m' = Some out /\
               render_as Sample.host (r_template Sample.host Sample.card_resolved)
                 (modifier_fields Sample.host Sample.card_fields (mj_className m))
               = Some out /\
               get_tfield Sample.host "modifier_class"
                 (modifier_fields Sample.host Sample.card_fields (mj_className m))
               = Some (TPrim (PStr ("card--wide " +:+ mj_className m))))
    (j_modifiers (toJSON Sample.card)) (j_modifiers Sample.card_rendered).
Proof.
  assert (Hinfo : userTemplates Sample.host Sample.built !! "2.1"
                  = Some Sample.card_info) by (vm_compute; reflexivity).
  assert (Hres : resolved Sample.host Sample.built Sample.card_info
                 = Some Sample.card_resolved) by reflexivity.
  assert (Hout : renderer Sample.host Sample.card_resolved "[modifier class]"
                   (toJSON Sample.card)
                 = Some Sample.card_rendered) by (vm_compute; reflexivity).
  split; [exact sample_engine_frame |].
  split; [reflexivity |].
  split; [exact Hinfo |]. split; [exact Hres |]. split; [exact Hout |].
  destruct (modifier_rendering Sample.host (toJSON Sample.card) Sample.built
              Sample.card_info Sample.card_resolved Sample.card_rendered
              sample_engine_frame eq_refl Hinfo Hres Hout)
    as (st1 & _ & _ & Hall).
  exact Hall.
Defined.

(** Against C8 as stated: [.twig] is one line and ends in [.twig], and is
    not a file reference. *)
Lemma dot_twig_is_inline :
  single_line ".twig" = true /\
  ends_with ".twig" ".twig" = true /\
  markup_is_file ".twig" = false /\
  ~ (markup_is_file ".twig" = true <->
     single_line ".twig" = true /\ ends_with ".twig" ".twig" = true).
Proof.
  split; [reflexivity |]. split; [reflexivity |]. split; [reflexivity |].
  intros [_ Hback]. specialize (Hback (conj eq_refl eq_refl)). discriminate.
Qed.

Lemma file_reference_or_inline_witness :
  str_truthy (s_markup Sample.badge) = true /\
  markup_is_file (s_markup Sample.badge) = false /\
  markup_is_file (s_markup Sample.buttons) = true /\
  exists roots' task st1,
    start_section Sample.host [] Sample.badge Sample.builder0
    = (Ok (roots', [task]), st1) /\
    heap Sample.host st1 = heap Sample.host Sample.builder0 ++ [OObj []; OObj []].
Proof.
  do 3 (split; [vm_compute; reflexivity |]).
  destruct (file_reference_or_inline Sample.host Sample.badge [] Sample.builder0)
    as [_ Hinline].
  - vm_compute; reflexivity.
  - destruct Hinline as (roots' & task & st1 & Hstart & Hheap & _).
    + vm_compute; reflexivity.
    + exists roots', task, st1. split; [exact Hstart | exact Hheap].
Defined.

(** The card section has a modifier and the placeholder is set. *)
Lemma placeholder_rule_witness :
  stored_fields Sample.host (heap Sample.host Sample.built) Sample.card_context
    = Some Sample.card_fields /\
  exists data st1 fs',
    placeholder_data Sample.host Sample.card_context (toJSON Sample.card) Sample.built
      = (Ok data, st1) /\
    stored_fields Sample.host (heap Sample.host st1) data = Some fs' /\
    get_tfield Sample.host "modifier_class" fs'
      = Some (TPrim (PStr "card--wide [modifier class]")).
Proof.
  assert (Hfs : stored_fields Sample.host (heap Sample.host Sample.built)
                  Sample.card_context = Some Sample.card_fields)
    by (vm_compute; reflexivity).
  split; [exact Hfs |].
  destruct (placeholder_rule Sample.host Sample.card_context (toJSON Sample.card)
              Sample.built Sample.card_fields Hfs)
    as (data & st1 & fs' & Hrun & _ & Hstored & _ & Hclass).
  exists data, st1, fs'. split; [exact Hrun |]. split; [exact Hstored | exact Hclass].
Defined.


(** * Further properties of the builder *)

(** ** What tasks fulfil with *)

Section Fulfilment.
Context (H : Host).

Lemma fulfils_bind {A B} (m : M H A) (k : A -> M H B) (P : B -> Prop) :
  (forall a, fulfils H (k a) P) -> fulfils H (bind H m k) P.
Proof.
  intros Hk st b st' Hb. apply bind_inv in Hb as (a & st1 & _ & Hb).
  exact (Hk a st1 b st' Hb).
Qed.

Lemma fulfils_ret {A} (a : A) (P : A -> Prop) : P a -> fulfils H (ret H a) P.
Proof. intros Ha st b st' Hb. unfold ret in Hb. by simplify_eq. Qed.

Lemma promise_all_fulfils {A} (P : A -> Prop) (tasks : list (M H A)) :
  Forall (fun t => fulfils H t P) tasks ->
  fulfils H (promise_all H tasks) (Forall P).
Proof.
  induction 1 as [| t rest Ht _ IH]; intros st l st' Hall.
  - unfold promise_all, ret in Hall. simplify_eq. constructor.
  - simpl in Hall. destruct (t st) as [[a | e] st1] eqn:Et.
    + destruct (promise_all H rest st1) as [[l' | e] st2] eqn:Er; simplify_eq.
      constructor; [exact (Ht st a st1 Et) | exact (IH st1 l' st' Er)].
    + simplify_eq.
Qed.

Lemma fulfils_map {A B} (P : B -> Prop) (f : A -> M H B) l :
  (forall a, fulfils H (f a) P) -> Forall (fun t => fulfils H t P) (map f l).
Proof. intros Hf. induction l; constructor; auto. Qed.

Lemma run_job_reference (template : SectionTemplate (num H)) j :
  fulfils H (run_job H template j)
    (keeps_names H).
Proof.
  destruct j; unfold run_job.
  - apply fulfils_bind. intros _. apply fulfils_bind. intros c.
    by apply fulfils_ret.
  - apply fulfils_bind. intros _. apply fulfils_bind. intros c.
    by apply fulfils_ret.
  - apply fulfils_bind. intros _. by apply fulfils_ret.
  - apply fulfils_bind. intros _. by apply fulfils_ret.
Qed.

Lemma foldl_updates (updates : list (SectionTemplate (num H) -> SectionTemplate (num H)))
    (t : SectionTemplate (num H)) :
  Forall (keeps_names H) updates ->
  let t' := foldl (fun t u => u t) t updates in
  t_reference t' = t_reference t /\ t_name t' = t_name t /\
  t_exampleName t' = t_exampleName t /\ t_exampleFile t' = t_exampleFile t /\
  t_markup t' = t_markup t.
Proof.
  intros Hall. revert t. induction Hall as [| u us Hu _ IH]; intros t; simpl; [done |].
  destruct (IH (u t)) as (-> & -> & -> & -> & ->). apply Hu.
Qed.

Lemma resolve_file_reference (template : SectionTemplate (num H)) globMatches :
  fulfils H (resolve_file H template globMatches)
    (fun t' => t_reference t' = t_reference template /\
               t_name t' = t_name template /\
               t_exampleName t' = t_exampleName template).
Proof.
  unfold resolve_file. apply fulfils_bind. intros st0.
  intros st t' st' Hrun.
  apply bind_inv in Hrun as ([t1 jobs] & st1 & Hfound & Hrun).
  apply bind_inv in Hrun as (? & st2 & _ & Hrun).
  apply bind_inv in Hrun as (updates & st3 & Hall & Hrun).
  unfold ret in Hrun. simplify_eq.
  eapply (promise_all_fulfils (keeps_names H)) in Hall;
    [| apply fulfils_map; intros j; apply run_job_reference].
  destruct (foldl_updates updates t1 Hall) as (-> & -> & -> & _).
  repeat case_match; apply bind_inv in Hfound as (? & ? & _ & Hf) || idtac;
    unfold ret in *; simplify_eq; done.
Qed.

End Fulfilment.

(** ** Invariants of a build *)

Section Invariant.
Context (H : Host) (opts : Options) (I : Builder H -> Prop).
Context (ok_ref : string -> Prop).

(** What the invariant is assumed to be closed under: it fixes the
    options, and survives a change of the store, of the module cache, of
    the registry and of the custom properties, a line of the log that is
    verbose output or a warning, a page template being set, and a record
    saved under an accepted reference. *)
Hypothesis I_opts : forall st, I st -> options H st = opts.
Hypothesis I_heap : forall h st, I st -> I (set_heap H h st).
Hypothesis I_modules : forall m st, I st -> I (set_modules H m st).
Hypothesis I_registry : forall r c st, I st -> I (set_registry H r c st).
Hypothesis I_customs : forall c st, I st -> I (set_customs H c st).
Hypothesis I_templates : forall t st, I st -> I (set_templates H t st).
Hypothesis I_log : forall line st,
  I st -> o_verbose opts = true \/ is_warning line = true ->
  I (set_logged H (logged H st ++ [line]) st).
Hypothesis I_save : forall (t : SectionTemplate (num H)) st,
  I st -> ok_ref (t_reference t) -> I (snd (saveTemplate H t st)).
Hypothesis I_written : forall w st, I st -> I (set_written H w st).

Abbreviation pres := (preserves H I).

Lemma preserves_ret {A} (a : A) : pres (ret H a).
Proof. by intros st. Qed.

Lemma preserves_reject {A} e : pres (@reject H A e).
Proof. by intros st. Qed.

Lemma preserves_get : pres (get H).
Proof. by intros st. Qed.

Lemma preserves_bind {A B} (m : M H A) (k : A -> M H B) :
  pres m -> (forall a, pres (k a)) -> pres (bind H m k).
Proof.
  intros Hm Hk st HI. unfold bind. specialize (Hm st HI).
  destruct (m st) as [[a | e] st1]; simpl in *; [by apply Hk | done].
Qed.

Lemma preserves_get_bind {B} (k : Builder H -> M H B) :
  (forall st, I st -> pres (k st)) -> pres (bind H (get H) k).
Proof. intros Hk st HI. unfold bind, get. by apply Hk. Qed.

Lemma preserves_catch {A} (m k : M H A) : pres m -> pres k -> pres (catch H m k).
Proof.
  intros Hm Hk st HI. unfold catch. specialize (Hm st HI).
  destruct (m st) as [[a | e] st1]; simpl in *; [done | by apply Hk].
Qed.

Lemma preserves_promise_all {A} (tasks : list (M H A)) :
  Forall pres tasks -> pres (promise_all H tasks).
Proof.
  induction 1 as [| t rest Ht _ IH]; [by intros st |].
  intros st HI. simpl. specialize (Ht st HI).
  destruct (t st) as [[a | e] st1]; simpl in *.
  - specialize (IH st1 Ht). by destruct (promise_all H rest st1) as [[l | e] st2].
  - by apply IH.
Qed.

Lemma preserves_forEachM {A B} (f : A -> M H B) l :
  (forall a, pres (f a)) -> pres (forEachM H f l).
Proof.
  intros Hf. induction l as [| a l IH]; simpl; [apply preserves_ret |].
  apply preserves_bind; [apply Hf |]. intros b.
  apply preserves_bind; [apply IH |]. intros bs. apply preserves_ret.
Qed.

Lemma preserves_map {A B} (f : A -> M H B) l :
  (forall a, pres (f a)) -> Forall pres (map f l).
Proof. intros Hf. induction l; constructor; auto. Qed.

Lemma preserves_app {A} (l1 l2 : list (M H A)) :
  Forall pres l1 -> Forall pres l2 -> Forall pres (l1 ++ l2).
Proof. induction 1; simpl; [done | by constructor; auto]. Qed.

Lemma preserves_if {A} (b : bool) (m1 m2 : M H A) :
  pres m1 -> pres m2 -> pres (if b then m1 else m2).
Proof. by destruct b. Qed.

Lemma preserves_log_verbose line :
  o_verbose opts = true -> pres (log H line).
Proof. intros Hv st HI. apply I_log; auto. Qed.

Lemma preserves_log_warning line :
  is_warning line = true -> pres (log H line).
Proof. intros Hw st HI. apply I_log; auto. Qed.

Lemma preserves_when_verbose line :
  pres (if o_verbose opts then log H line else ret H tt).
Proof.
  generalize (preserves_log_verbose line).
  destruct (o_verbose opts); intros Hl; [by apply Hl | apply preserves_ret].
Qed.

Lemma preserves_new_object : pres (new_object H).
Proof. intros st HI. by apply I_heap. Qed.

Lemma preserves_JSON_copy v : pres (JSON_copy H v).
Proof.
  intros st HI. unfold JSON_copy. repeat case_match; simpl; auto.
Qed.

Lemma preserves_require_json path : pres (require_json H path).
Proof.
  intros st HI. unfold require_json. repeat case_match; simpl; auto.
Qed.

Lemma preserves_get_prop data key : pres (get_prop H data key).
Proof. intros st HI. unfold get_prop. by repeat case_match. Qed.

Lemma preserves_set_prop data key v : pres (set_prop H data key v).
Proof. intros st HI. unfold set_prop. repeat case_match; simpl; auto. Qed.

Lemma preserves_Twig_twig t : pres (Twig_twig H t).
Proof. intros st HI. unfold Twig_twig. repeat case_match; simpl; auto. Qed.

Lemma preserves_registryReset : pres (registryReset H).
Proof. intros st HI. by apply I_registry. Qed.

Lemma preserves_twigAsync o : pres (twigAsync H o).
Proof.
  destruct o; unfold twigAsync; apply preserves_if;
    auto using preserves_Twig_twig, preserves_reject.
Qed.

Lemma preserves_twigAsync_ref ref : pres (twigAsync_ref H ref).
Proof.
  unfold twigAsync_ref. apply preserves_if; [by intros st | apply preserves_reject].
Qed.

Lemma preserves_render t data : pres (render H t data).
Proof. intros st HI. unfold render. repeat case_match; simpl; auto. Qed.

Lemma preserves_writeFile path data : pres (writeFile H path data).
Proof.
  unfold writeFile. apply preserves_if; [| apply preserves_reject].
  intros st HI. by apply I_written.
Qed.

Lemma preserves_set_index t : pres (set_index H t).
Proof. intros st HI. by apply I_templates. Qed.

Lemma preserves_set_section t : pres (set_section H t).
Proof. intros st HI. by apply I_templates. Qed.

Lemma preserves_set_item t : pres (set_item H t).
Proof. intros st HI. by apply I_templates. Qed.

Lemma preserves_builder_path file : pres (builder_path H file).
Proof. by intros st. Qed.

Lemma preserves_unless_verbose line :
  is_warning line = true ->
  pres (if negb (o_verbose opts) then log H line else ret H tt).
Proof.
  intros Hw. generalize (preserves_log_warning line Hw).
  destruct (negb (o_verbose opts)); intros Hl; [exact Hl | apply preserves_ret].
Qed.

Lemma preserves_verbose_else_warning line warning :
  is_warning warning = true ->
  pres (if o_verbose opts then log H line else log H warning).
Proof.
  intros Hw.
  generalize (preserves_log_verbose line) (preserves_log_warning warning Hw).
  destruct (o_verbose opts); intros Hl Hl'; [by apply Hl | exact Hl'].
Qed.

Lemma preserves_files_line (files : option (list string)) line :
  pres (match o_verbose opts, files with
        | true, Some files => log H (line files)
        | _, _ => ret H tt
        end).
Proof.
  generalize (fun l => preserves_log_verbose l).
  destruct (o_verbose opts), files; intros Hl;
    try apply preserves_ret. by apply Hl.
Qed.

Ltac pres_step :=
  first
    [ match goal with
      | |- preserves _ _ (bind _ (get _) _) =>
          apply preserves_get_bind;
          let st := fresh "st" in let HI := fresh "HI" in
          intros st HI; cbv zeta; try rewrite (I_opts st HI)
      | |- preserves _ _ (bind _ _ _) => apply preserves_bind; [| intros ?]
      | |- preserves _ _ (catch _ _ _) => apply preserves_catch
      end
    | apply preserves_when_verbose
    | apply preserves_verbose_else_warning; reflexivity
    | apply preserves_unless_verbose; reflexivity
    | apply preserves_forEachM; intros ?
    | solve [auto using preserves_ret, preserves_reject, preserves_get,
               preserves_new_object, preserves_JSON_copy, preserves_require_json,
               preserves_get_prop, preserves_set_prop, preserves_Twig_twig,
               preserves_registryReset, preserves_twigAsync,
               preserves_twigAsync_ref, preserves_render, preserves_writeFile,
               preserves_set_index, preserves_set_section, preserves_set_item,
               preserves_builder_path]
    | match goal with
      | |- preserves _ _ (match (if ?b then _ else _) with _ => _ end) =>
          destruct b
      | |- preserves _ _ (if ?b then _ else _) => apply preserves_if
      | |- preserves _ _ (match ?x with _ => _ end) => destruct x
      | |- preserves _ _ (let '(_, _) := ?x in _) => destruct x
      end ].

Ltac solve_pres := repeat pres_step.

Lemma preserves_placeholder_data ctx section : pres (placeholder_data H ctx section).
Proof. unfold placeholder_data. solve_pres. Qed.

Lemma preserves_modifier_data ctx m : pres (modifier_data H ctx m).
Proof. unfold modifier_data. solve_pres. Qed.

Lemma preserves_render_modifier t ctx m : pres (render_modifier H t ctx m).
Proof.
  unfold render_modifier. solve_pres. apply preserves_modifier_data.
Qed.

Lemma preserves_render_section section : pres (render_section H section).
Proof.
  unfold render_section. solve_pres;
    auto using preserves_placeholder_data, preserves_render_modifier.
Qed.

Lemma preserves_homepage_text : pres (homepage_text H).
Proof.
  unfold homepage_text. solve_pres.
Qed.

Lemma preserves_compileInline t : pres (compileInline H t).
Proof. unfold compileInline. solve_pres. Qed.

Lemma preserves_run_job t j : pres (run_job H t j).
Proof. destruct j; unfold run_job; solve_pres; apply preserves_compileInline. Qed.

Lemma preserves_resolve_file t globMatches : pres (resolve_file H t globMatches).
Proof.
  unfold resolve_file. solve_pres.
  apply preserves_promise_all, preserves_map, preserves_run_job.
Qed.

Lemma preserves_loadTask now : pres (loadTask H now).
Proof. unfold loadTask. solve_pres. Qed.

Lemma preserves_buildPage sg name ref sections :
  pres (buildPage H sg name ref sections).
Proof.
  unfold buildPage. apply preserves_bind.
  - apply preserves_promise_all, preserves_map, preserves_render_section.
  - intros rendered. solve_pres. apply preserves_homepage_text.
Qed.

Lemma preserves_then {A B} (m : M H A) (k : A -> M H B) (P : A -> Prop) :
  pres m -> fulfils H m P -> (forall a, P a -> pres (k a)) -> pres (bind H m k).
Proof.
  intros Hm HP Hk st HI. unfold bind. specialize (Hm st HI).
  destruct (m st) as [[a | e] st1] eqn:Em; simpl in *; [| done].
  apply Hk; [exact (HP st a st1 Em) | done].
Qed.

Lemma preserves_saveTemplate (t : SectionTemplate (num H)) :
  ok_ref (t_reference t) -> pres (saveTemplate H t).
Proof. intros Hok st HI. by apply I_save. Qed.

Lemma preserves_custom (f : Builder H -> list (string * string)) :
  pres (modify H (fun st => set_customs H (f st) st)).
Proof. intros st HI. by apply I_customs. Qed.

Lemma preserves_start_section roots section :
  pres (start_section H roots section).
Proof.
  unfold start_section. solve_pres. apply preserves_custom.
Qed.

Lemma start_section_tasks roots section :
  (has_markup section = true -> ok_ref (s_reference section)) ->
  fulfils H (start_section H roots section) (fun r => Forall pres (snd r)).
Proof.
  intros Hok. unfold start_section, has_markup in *.
  destruct (str_truthy (s_markup section)); simpl negb; cbv iota.
  - specialize (Hok eq_refl).
    apply fulfils_bind. intros context. apply fulfils_bind. intros exampleContext.
    apply fulfils_bind. intros st.
    destruct (markup_is_file (s_markup section)); simpl negb; cbv iota.
    + apply fulfils_bind. intros _. apply fulfils_ret. simpl.
      constructor; [| constructor].
      eapply preserves_then;
        [apply preserves_resolve_file | apply resolve_file_reference |].
      intros t' (Href & _). apply preserves_saveTemplate. by rewrite Href.
    + apply fulfils_bind. intros _. apply fulfils_ret. simpl.
      constructor; [| constructor].
      eapply preserves_then with (P := fun t => t_reference t = s_reference section).
      * apply preserves_compileInline.
      * unfold compileInline. apply fulfils_bind. intros _. by apply fulfils_ret.
      * intros t Ht. apply preserves_saveTemplate. by rewrite Ht.
  - apply fulfils_ret. constructor.
Qed.

Lemma preserves_start_sections sections : forall roots,
  pres (start_sections H roots sections).
Proof.
  induction sections as [| s rest IH]; intros roots; simpl; [apply preserves_ret |].
  apply preserves_bind; [apply preserves_start_section |]. intros r.
  apply preserves_bind; [apply IH |]. intros r'. apply preserves_ret.
Qed.

Lemma start_sections_tasks sections : forall roots,
  (forall s, s ∈ sections -> has_markup s = true -> ok_ref (s_reference s)) ->
  fulfils H (start_sections H roots sections) (fun r => Forall pres (snd r)).
Proof.
  induction sections as [| s rest IH]; intros roots Hok; simpl.
  - apply fulfils_ret. constructor.
  - intros st r st' Hrun.
    apply bind_inv in Hrun as (r1 & st1 & H1 & Hrun).
    apply bind_inv in Hrun as (r2 & st2 & H2 & Hrun).
    unfold ret in Hrun. simplify_eq. simpl.
    apply preserves_app.
    + eapply (start_section_tasks roots s); [| exact H1].
      apply Hok. by left.
    + eapply (IH (fst r1)); [| exact H2].
      intros x Hx. apply Hok. by right.
Qed.

(** The invariant also survives [this.userTemplates = {}]. *)
Hypothesis I_reset : forall st, I st -> I (set_userTemplates H ∅ st).

Lemma preserves_pages sg plan :
  pres (promise_all H
          (map (fun page : string * option string * list KssSection =>
                  buildPage H sg (fst (fst page)) (snd (fst page)) (snd page))
             plan)).
Proof.
  apply preserves_promise_all, preserves_map. intros page.
  apply preserves_buildPage.
Qed.

Lemma preserves_build sg :
  (forall s, s ∈ sg_sections sg -> has_markup s = true -> ok_ref (s_reference s)) ->
  pres (build H sg).
Proof.
  intros Hok. unfold build.
  apply preserves_bind; [intros st HI; by apply I_reset |]. intros _.
  apply preserves_bind.
  { intros st HI. unfold modify. simpl. destruct (templates H st); auto. }
  intros _.
  apply preserves_bind; [apply preserves_registryReset |]. intros _.
  apply preserves_get_bind. intros st HI. cbv zeta. rewrite (I_opts st HI).
  apply preserves_bind.
  { apply (preserves_files_line (sg_files sg)
             (fun files => join nl (map (fun file => " - " +:+ file) files))). }
  intros _.
  apply preserves_bind; [apply preserves_when_verbose |]. intros _.
  eapply preserves_then;
    [apply preserves_start_sections | by apply start_sections_tasks |].
  intros [roots tasks] Htasks. simpl in Htasks.
  apply preserves_bind.
  { apply preserves_promise_all. constructor; [apply preserves_loadTask | done]. }
  intros _.
  apply preserves_bind; [apply preserves_when_verbose |]. intros _.
  apply preserves_get_bind. intros st' HI'. cbv zeta.
  apply preserves_bind; [apply preserves_pages | intros _; apply preserves_ret].
Qed.

End Invariant.

(** ** The pages a build writes *)

Section Written.
Context (H : Host) (st0 : Builder H).

Abbreviation unwritten := (unwritten H st0).
Abbreviation one_file := (one_file H st0).

Lemma unwritten_refl : unwritten st0.
Proof. by split. Qed.

Lemma unwritten_opts st : unwritten st -> options H st = options H st0.
Proof. by intros []. Qed.

Lemma unwritten_heap h st : unwritten st -> unwritten (set_heap H h st).
Proof. intros [Ho Hw]. by split. Qed.

Lemma unwritten_modules m st : unwritten st -> unwritten (set_modules H m st).
Proof. intros [Ho Hw]. by split. Qed.

Lemma unwritten_registry r c st : unwritten st -> unwritten (set_registry H r c st).
Proof. intros [Ho Hw]. by split. Qed.

Lemma unwritten_customs c st : unwritten st -> unwritten (set_customs H c st).
Proof. intros [Ho Hw]. by split. Qed.

Lemma unwritten_templates t st : unwritten st -> unwritten (set_templates H t st).
Proof. intros [Ho Hw]. by split. Qed.

Lemma unwritten_log line st :
  unwritten st ->
  o_verbose (options H st0) = true \/ is_warning line = true ->
  unwritten (set_logged H (logged H st ++ [line]) st).
Proof. intros [Ho Hw] _. by split. Qed.

Lemma unwritten_save (t : SectionTemplate (num H)) st :
  unwritten st -> True -> unwritten (snd (saveTemplate H t st)).
Proof. intros [Ho Hw] _. by split. Qed.

Lemma unwritten_reset st : unwritten st -> unwritten (set_userTemplates H ∅ st).
Proof. intros [Ho Hw]. by split. Qed.

Ltac closed_unwritten :=
  first [ exact unwritten_opts | exact unwritten_heap | exact unwritten_modules
        | exact unwritten_registry | exact unwritten_customs
        | exact unwritten_templates | exact unwritten_log
        | exact unwritten_save | exact unwritten_reset ].

Lemma unwritten_render_sections sections :
  preserves H unwritten (promise_all H (map (render_section H) sections)).
Proof.
  apply preserves_promise_all, preserves_map. intros section.
  eapply preserves_render_section; closed_unwritten.
Qed.

Lemma unwritten_homepage_text : preserves H unwritten (homepage_text H).
Proof. eapply preserves_homepage_text; closed_unwritten. Qed.

Lemma unwritten_loadTask now : preserves H unwritten (loadTask H now).
Proof. eapply preserves_loadTask; closed_unwritten. Qed.

Lemma unwritten_start_sections roots sections :
  preserves H unwritten (start_sections H roots sections).
Proof. eapply preserves_start_sections; closed_unwritten. Qed.

Lemma unwritten_tasks roots sections :
  fulfils H (start_sections H roots sections)
    (fun r => Forall (preserves H unwritten) (snd r)).
Proof.
  eapply (start_sections_tasks H (options H st0) unwritten (fun _ => True));
    try closed_unwritten. done.
Qed.

Lemma unwritten_when_verbose line :
  preserves H unwritten
    (if o_verbose (options H st0) then log H line else ret H tt).
Proof. eapply preserves_when_verbose; closed_unwritten. Qed.

Lemma one_file_bind {A} path (m : M H A) (k : A -> M H unit) (P : A -> Prop) :
  preserves H unwritten m -> fulfils H m P ->
  (forall a st, P a -> unwritten st -> one_file path (k a st)) ->
  forall st, unwritten st -> one_file path (bind H m k st).
Proof.
  intros Hm HP Hk st Hst. unfold bind. specialize (Hm st Hst).
  destruct (m st) as [[a | e] st1] eqn:Em; simpl in *.
  - apply Hk; [exact (HP st a st1 Em) | done].
  - destruct Hm as [Ho Hw]. by split.
Qed.

Lemma one_file_reject path e st :
  unwritten st -> one_file path (reject H e st).
Proof. intros [Ho Hw]. by split. Qed.

Lemma fulfils_any {A} (m : M H A) : fulfils H m (fun _ => True).
Proof. by intros st a st' _. Qed.

Lemma one_file_writeFile path body st :
  unwritten st -> one_file path (writeFile H path body st).
Proof.
  intros [Ho Hw]. unfold writeFile. destruct (fs_write_ok H path body).
  - split; [done |]. exists body. simpl. by rewrite Hw.
  - by split.
Qed.

Lemma page_uri_fulfils sg templateName pageReference opts :
  fulfils H
    (if opt_truthy pageReference then
       match sg_find sg (default "" pageReference) with
       | None => reject H "TypeError: rootSection.header is not a function"
       | Some rootSection =>
           bind H
             (if o_verbose opts
              then log H (" - " +:+ templateName +:+ " "
                          +:+ default "" pageReference +:+ " ["
                          +:+ (if str_truthy (s_header rootSection)
                               then s_header rootSection else "Unnamed")
                          +:+ "]")
              else ret H tt)
             (fun _ => ret H (Some (s_referenceURI rootSection)))
       end
     else
       bind H (if o_verbose opts then log H " - homepage" else ret H tt)
         (fun _ => ret H pageReference))
    (fun uri =>
       uri = if opt_truthy pageReference
             then s_referenceURI <$> sg_find sg (default "" pageReference)
             else pageReference).
Proof.
  destruct (opt_truthy pageReference).
  - destruct (sg_find sg (default "" pageReference)) as [rootSection |].
    + apply fulfils_bind. intros _. by apply fulfils_ret.
    + by intros st a st' Hr.
  - apply fulfils_bind. intros _. by apply fulfils_ret.
Qed.

Lemma buildPage_from sg templateName pageReference sections st :
  unwritten st ->
  one_file (page_path H st0 sg (templateName, pageReference, sections))
    (buildPage H sg templateName pageReference sections st).
Proof.
  unfold buildPage. revert st.
  apply (one_file_bind _ _ _ (fun _ => True));
    [apply unwritten_render_sections | apply fulfils_any |].
  intros rendered st _ Hst.
  change (bind H (get H) ?k st) with (k st st). cbv beta zeta.
  rewrite (unwritten_opts st Hst).
  revert st Hst.
  eapply one_file_bind; [| apply page_uri_fulfils |].
  { destruct (opt_truthy pageReference);
      [destruct (sg_find sg (default "" pageReference)) |];
      repeat first [ apply preserves_bind; [| intros ?]
                   | apply unwritten_when_verbose
                   | by intros ? ? ]. }
  intros uri st -> Hst. revert st Hst.
  apply (one_file_bind _ _ _ (fun _ => True)); [| apply fulfils_any |].
  { destruct (negb (templateName =? "index")); [by intros ? ? |].
    apply preserves_bind; [apply unwritten_homepage_text | by intros ? ? ?]. }
  intros homepage st _ Hst.
  change (bind H (get H) ?k st) with (k st st). cbv beta.
  destruct (page_template templateName (the_templates H st)) as [template |];
    [| by apply one_file_reject].
  match goal with
  | |- context [render_page H template ?c] =>
      destruct (render_page H template c) as [body |]
  end; [| by apply one_file_reject].
  by apply one_file_writeFile.
Qed.

End Written.

(** ** Section roots *)

Lemma not_in_array_spec x l : not_in_array x l = true <-> x ∉ l.
Proof.
  unfold not_in_array. rewrite forallb_forall. split.
  - intros Hall Hin. apply list_elem_of_In, Hall in Hin.
    by rewrite String.eqb_refl in Hin.
  - intros Hnot y Hy. apply list_elem_of_In in Hy.
    destruct (String.eqb_spec y x) as [-> | ?]; [done | done].
Qed.

Lemma add_root_elem roots section r :
  r ∈ add_root roots section <->
  r ∈ roots \/ r = first_token (s_reference section).
Proof.
  unfold add_root.
  destruct (not_in_array (first_token (s_reference section)) roots) eqn:E.
  - rewrite elem_of_app, list_elem_of_singleton. done.
  - assert (first_token (s_reference section) ∈ roots) as Hin.
    { destruct (decide (first_token (s_reference section) ∈ roots)); [done |].
      apply not_in_array_spec in n. congruence. }
    split; [by left | by intros [? | ->]].
Qed.

Lemma add_root_NoDup roots section :
  NoDup roots -> NoDup (add_root roots section).
Proof.
  intros Hnd. unfold add_root.
  destruct (not_in_array (first_token (s_reference section)) roots) eqn:E; [| done].
  apply not_in_array_spec in E. apply NoDup_app. split; [done |].
  split; [| apply NoDup_singleton].
  intros x Hx Hx'. apply list_elem_of_singleton in Hx'. by subst.
Qed.

Lemma add_root_prefix roots section : roots `prefix_of` add_root roots section.
Proof.
  unfold add_root. case_match; [by apply prefix_app_r | done].
Qed.

Lemma add_roots_spec sections : forall roots,
  NoDup roots ->
  let roots' := foldl add_root roots sections in
  NoDup roots' /\ roots `prefix_of` roots' /\
  forall r, r ∈ roots' <->
    r ∈ roots \/ exists s, s ∈ sections /\ first_token (s_reference s) = r.
Proof.
  induction sections as [| s rest IH]; intros roots Hnd; simpl.
  - split; [done |]. split; [done |]. intros r. split; [by left |].
    intros [? | (s & Hs & _)]; [done | by apply elem_of_nil in Hs].
  - destruct (IH (add_root roots s) (add_root_NoDup roots s Hnd))
      as (Hnd' & Hpre & Hin).
    split; [done |]. split; [by etrans; [apply add_root_prefix |] |].
    intros r. rewrite Hin, add_root_elem. split.
    + intros [[? | ->] | (x & Hx & <-)]; [by left | |].
      * right. exists s. split; [by left | done].
      * right. exists x. split; [by right | done].
    + intros [? | (x & Hx & <-)]; [by left; left |].
      apply elem_of_cons in Hx as [-> | Hx]; [by left; right |].
      right. by exists x.
Qed.

Section StartSections.
Context (H : Host).

(** The sections whose markup names a file. *)
Abbreviation names_file :=
  (fun section : KssSection =>
     has_markup section && markup_is_file (s_markup section)).

Lemma start_section_spec roots section (st : Builder H) :
  exists tasks st',
    start_section H roots section st = (Ok (add_root roots section, tasks), st') /\
    length tasks = (if has_markup section then 1 else 0) /\
    customs H st' = customs H st ++
      (if names_file section then [(s_reference section, s_markup section)]
       else []) /\
    heap H st' = heap H st ++
      (if has_markup section then [OObj []; OObj []] else []).
Proof.
  unfold start_section, has_markup, add_root, bind, new_object, get.
  cbn [t_markup t_reference t_name heap set_heap options].
  destruct (str_truthy (s_markup section)); cbn [negb andb].
  - destruct (markup_is_file (s_markup section)); cbn [negb].
    + unfold modify, ret. eexists _, _. split; [reflexivity |]. simpl.
      rewrite <- app_assoc. done.
    + destruct (o_verbose (options H st)); unfold log, modify, ret;
        eexists _, _; (split; [reflexivity |]); simpl;
        rewrite <- app_assoc, app_nil_r; done.
  - unfold ret. eexists _, _. split; [reflexivity |]. simpl.
    by rewrite !app_nil_r.
Qed.

Lemma start_sections_spec sections : forall roots (st : Builder H),
  exists tasks st',
    start_sections H roots sections st
    = (Ok (foldl add_root roots sections, tasks), st') /\
    length tasks = length (filter (fun s => has_markup s = true) sections) /\
    customs H st' = customs H st ++
      map (fun s => (s_reference s, s_markup s))
        (filter (fun s => names_file s = true) sections) /\
    length (heap H st') =
      length (heap H st) + 2 * length (filter (fun s => has_markup s = true) sections).
Proof.
  induction sections as [| s rest IH]; intros roots st.
  - exists [], st. simpl. rewrite app_nil_r. repeat split; lia.
  - destruct (start_section_spec roots s st) as (t1 & st1 & E1 & L1 & C1 & H1).
    destruct (IH (add_root roots s) st1) as (t2 & st2 & E2 & L2 & C2 & H2).
    exists (t1 ++ t2), st2. simpl start_sections. unfold bind.
    rewrite E1. cbn [fst snd]. rewrite E2. cbn [fst snd]. unfold ret.
    split; [done |].
    rewrite length_app, L1, L2, C2, C1, H2, H1, length_app, <- app_assoc.
    rewrite !filter_cons.
    destruct (has_markup s) eqn:Em, (markup_is_file (s_markup s)) eqn:Ef;
      cbn [andb]; repeat case_decide; try done; simpl;
      rewrite ?app_nil_r; repeat split; lia.
Qed.

End StartSections.

(** ** Whole builds *)

Section BuildPages.
Context (H : Host).

Lemma preserves_run {A} (I : Builder H -> Prop) (m : M H A) st r st' :
  preserves H I m -> I st -> m st = (r, st') -> I st'.
Proof. intros Hm HI Hr. specialize (Hm st HI). by rewrite Hr in Hm. Qed.

Lemma page_path_options (st st' : Builder H) sg page :
  options H st' = options H st -> page_path H st' sg page = page_path H st sg page.
Proof. unfold page_path. by intros ->. Qed.

Lemma unwritten_trans (st0 st1 st2 : Builder H) :
  unwritten H st0 st1 -> unwritten H st1 st2 -> unwritten H st0 st2.
Proof. intros [Ho Hw] [Ho' Hw']. split; congruence. Qed.

Lemma pages_written sg plan : forall (st : Builder H) l st',
  promise_all H
    (map (fun page : string * option string * list KssSection =>
            buildPage H sg (fst (fst page)) (snd (fst page)) (snd page))
       plan) st = (Ok l, st') ->
  options H st' = options H st /\
  exists pages, written H st' = written H st ++ pages /\
    map fst pages = map (page_path H st sg) plan.
Proof.
  induction plan as [| [[name ref] sections] rest IH]; intros st l st' Hall.
  - simpl in Hall. unfold ret in Hall. injection Hall as _ <-.
    split; [done |]. exists []. by rewrite app_nil_r.
  - cbn [map] in Hall.
    apply promise_all_cons_inv in Hall as (a & st1 & l' & Hpage & Hrest).
    cbn [fst snd] in Hpage.
    pose proof (buildPage_from H st sg name ref sections st (unwritten_refl H st))
      as [Ho Hw].
    rewrite Hpage in Ho, Hw. cbn [fst snd] in Ho, Hw. destruct Hw as [body Hw].
    destruct (IH st1 l' st' Hrest) as (Ho' & pages & Hw' & Hpaths).
    split; [congruence |].
    exists ((page_path H st sg (name, ref, sections), body) :: pages).
    split.
    + rewrite Hw', Hw, <- app_assoc. done.
    + cbn [map fst]. f_equal. rewrite Hpaths.
      apply map_ext. intros page. by apply page_path_options.
Qed.

Lemma files_line_ok (st : Builder H) sg :
  exists st',
    (match o_verbose (options H st), sg_files sg with
     | true, Some files =>
         log H (join nl (map (fun file => " - " +:+ file) files))
     | _, _ => ret H tt
     end) st = (Ok tt, st') /\
    unwritten H st st' /\ templates H st' = templates H st.
Proof.
  destruct (o_verbose (options H st)), (sg_files sg);
    eexists; (split; [reflexivity |]); by split.
Qed.

Lemma verbose_line_ok (st st0 : Builder H) line :
  exists st',
    (if o_verbose (options H st0) then log H line else ret H tt) st = (Ok tt, st') /\
    unwritten H st st' /\ templates H st' = templates H st.
Proof.
  destruct (o_verbose (options H st0));
    eexists; (split; [reflexivity |]); by split.
Qed.

(** The state a build starts its tasks in. *)
Abbreviation fresh_templates st :=
  (match templates H st with
   | Some _ => set_userTemplates H ∅ st
   | None => set_templates H (Some no_templates) (set_userTemplates H ∅ st)
   end).

Abbreviation started st :=
  (set_registry H ∅ (compiled H (fresh_templates st)) (fresh_templates st)).

Lemma build_unfold sg (st : Builder H) :
  build H sg st =
  let st_a := started st in
  let opts := options H st_a in
   bind H
     (match o_verbose opts, sg_files sg with
      | true, Some files =>
          log H (join nl (map (fun file => " - " +:+ file) files))
      | _, _ => ret H tt
      end)
     (fun _ =>
        bind H
          (if o_verbose opts then log H "...Determining section markup:"
           else ret H tt)
          (fun _ =>
             bind H (start_sections H [] (sg_sections sg))
               (fun started =>
                  let '(sectionRoots, tasks) := started in
                  bind H (promise_all H (loadTask H (the_templates H st_a) :: tasks))
                    (fun _ =>
                       bind H
                         (if o_verbose opts
                          then log H "...Building style guide pages:"
                          else ret H tt)
                         (fun _ =>
                            bind H (get H)
                              (fun st =>
                                 bind H
                                   (promise_all H
                                      (map (fun page =>
                                              buildPage H sg (fst (fst page))
                                                (snd (fst page)) (snd page))
                                         (page_plan sg sectionRoots
                                            (the_templates H st))))
                                   (fun _ => ret H sg))))))) st_a.
Proof.
  unfold build.
  unfold bind at 1, modify at 1. unfold bind at 1, modify at 1.
  unfold bind at 1, registryReset, modify at 1.
  unfold bind at 1, get at 1.
  cbn [templates set_userTemplates]. reflexivity.
Qed.

Lemma started_unwritten (st : Builder H) : unwritten H st (started st).
Proof. split; destruct (templates H st) eqn:E; simpl; by rewrite ?E. Qed.

Lemma started_index (st : Builder H) :
  pt_index (the_templates H (started st)) = pt_index (the_templates H st).
Proof.
  unfold the_templates. destruct (templates H st) eqn:E; simpl; by rewrite ?E.
Qed.


Lemma loadTask_no_index now (st : Builder H) :
  pt_index now = None ->
  fs_is_file H (path_resolve H (o_builder (options H st)) "index.twig") = false ->
  loadTask H now st =
  (Err ("Unable to find template file "
        +:+ path_resolve H (o_builder (options H st)) "index.twig"), st).
Proof.
  intros Hi Hf. unfold loadTask. rewrite Hi.
  assert (E : bind H (builder_path H "index.twig")
                (fun path =>
                   bind H (twigAsync H (TwigPath "@builderTwig/index.twig" path))
                     (fun template => set_index H (Some template))) st
              = (Err ("Unable to find template file "
                      +:+ path_resolve H (o_builder (options H st)) "index.twig"),
                 st)).
  { unfold bind, builder_path, twigAsync. by rewrite Hf. }
  destruct (pt_section now), (pt_item now).
  - exact E.
  - erewrite bind_err; [reflexivity | exact E].
  - erewrite bind_err; [reflexivity | exact E].
  - erewrite bind_err; [reflexivity |]. erewrite bind_err; [reflexivity | exact E].
Qed.

(** X11. While no index template is loaded and the builder has no
    [index.twig], a build rejects with the error of the missing file,
    writes nothing, and leaves the index template unset. *)
Theorem build_without_index sg (st : Builder H) :
  pt_index (the_templates H st) = None ->
  let path := path_resolve H (o_builder (options H st)) "index.twig" in
  fs_is_file H path = false ->
  exists e st1,
    build H sg st = (Err e, st1) /\
    written H st1 = written H st /\
    pt_index (the_templates H st1) = None.
Proof.
  intros Hi path Hf. rewrite build_unfold. cbv zeta.
  pose proof (started_unwritten st) as Ua.
  pose proof (started_index st) as Ia.
  set (st_a := started st) in *.
  destruct (files_line_ok st_a sg) as (st_l1 & E1 & U1 & T1).
  destruct (verbose_line_ok st_l1 st_a "...Determining section markup:")
    as (st_l2 & E2 & U2 & T2).
  destruct (start_sections_spec H (sg_sections sg) [] st_l2)
    as (tasks & st_b & E3 & _).
  erewrite bind_ok by exact E1. erewrite bind_ok by exact E2.
  erewrite bind_ok by exact E3. cbv iota beta.
  assert (U3 : unwritten H st_l2 st_b).
  { eapply preserves_run; [apply unwritten_start_sections | | exact E3].
    apply unwritten_refl. }
  pose proof (start_sections_keeps H (sg_sections sg) [] st_l2) as [T3 K3].
  rewrite E3 in T3, K3. cbn [fst snd] in T3, K3.
  assert (Ob : options H st_b = options H st).
  { destruct Ua, U1, U2, U3. congruence. }
  assert (El : loadTask H (the_templates H st_a) st_b
               = (Err ("Unable to find template file " +:+ path), st_b)).
  { rewrite loadTask_no_index; [by rewrite Ob | by rewrite Ia | by rewrite Ob]. }
  eexists _, _. split.
  { erewrite bind_err; [reflexivity |]. cbn [promise_all]. rewrite El.
    reflexivity. }
  split.
  - assert (U4 : unwritten H st_l2 (snd (promise_all H tasks st_b))).
    { apply (preserves_promise_all H (unwritten H st_l2)); [| exact U3].
      exact (unwritten_tasks H st_l2 [] (sg_sections sg) st_l2 _ st_b E3). }
    destruct Ua, U1, U2, U4. congruence.
  - unfold the_templates in *.
    rewrite (keeps_promise_all H tasks K3 st_b), T3, T2, T1. exact (eq_trans Ia Hi).
Qed.

End BuildPages.

(** ** The template records of a build *)

Section Records.
Context (H : Host).

Lemma build_reset sg (st : Builder H) :
  build H sg st = build H sg (set_userTemplates H ∅ st).
Proof. reflexivity. Qed.

(** A section with markup whose reference is [k]. *)
Abbreviation section_of sg k :=
  (exists s, s ∈ sg_sections sg /\ has_markup s = true /\ s_reference s = k).

(** Only sections with markup have a record. *)
Lemma build_records_only sg (st : Builder H) k :
  is_Some (userTemplates H (snd (build H sg st)) !! k) -> section_of sg k.
Proof.
  rewrite build_reset.
  pose proof (preserves_build H (options H st)
    (fun st1 => options H st1 = options H st /\
       forall k, is_Some (userTemplates H st1 !! k) -> section_of sg k)
    (fun k => section_of sg k)) as Hb.
  intros Hk. eapply Hb; try exact Hk.
  - by intros st1 [Ho _].
  - by intros h st1 HI.
  - by intros m st1 HI.
  - by intros r c st1 HI.
  - by intros c st1 HI.
  - by intros t st1 HI.
  - by intros line st1 HI _.
  - intros t st1 [Ho HI] Hok. split; [done |]. intros k'. simpl.
    rewrite lookup_insert_is_Some. intros [<- | [_ Hin]]; [done | by apply HI].
  - by intros w st1 HI.
  - intros st1 [Ho HI]. split; [done |]. intros k' Hin. simpl in Hin.
    rewrite lookup_empty in Hin. by destruct Hin.
  - intros s Hs Hm. by exists s.
  - split; [done |]. intros k' Hin. simpl in Hin.
    rewrite lookup_empty in Hin. by destruct Hin.
Qed.

Lemma promise_all_app_inv {A} (l1 l2 : list (M H A)) : forall st l st',
  promise_all H (l1 ++ l2) st = (Ok l, st') ->
  exists a st1 b,
    promise_all H l1 st = (Ok a, st1) /\ promise_all H l2 st1 = (Ok b, st').
Proof.
  induction l1 as [| t l1 IH]; intros st l st' Hall.
  - exists [], st, l. by split.
  - simpl in Hall. destruct (t st) as [[x | e] st1] eqn:Et; [| done].
    destruct (promise_all H (l1 ++ l2) st1) as [[l' | e] st2] eqn:Er; [| done].
    injection Hall as <- <-.
    destruct (IH st1 l' st2 Er) as (a & st1' & b & Ha & Hb).
    exists (x :: a), st1', b. simpl. rewrite Et, Ha. by split.
Qed.

(** The record of [k] is there, under the options [opts]. *)
Abbreviation recorded opts k :=
  (fun st : Builder H =>
     options H st = opts /\ is_Some (userTemplates H st !! k)).

Lemma recorded_tasks opts k roots sections :
  fulfils H (start_sections H roots sections)
    (fun r => Forall (preserves H (recorded opts k)) (snd r)).
Proof.
  eapply (start_sections_tasks H opts (recorded opts k) (fun _ => True));
    try (by intros st1 [Ho _]); try (by intros h st1 HI);
    try (by intros r c st1 HI); try (by intros line st1 HI _).
  intros t st1 [Ho HI] _. split; [done |]. simpl.
  rewrite lookup_insert_is_Some'. by right.
Qed.

Lemma recorded_pages opts k sg plan :
  preserves H (recorded opts k)
    (promise_all H
       (map (fun page : string * option string * list KssSection =>
               buildPage H sg (fst (fst page)) (snd (fst page)) (snd page))
          plan)).
Proof.
  apply preserves_promise_all, preserves_map. intros page.
  eapply (preserves_buildPage H opts (recorded opts k));
    try (by intros st1 [Ho _]); try (by intros h st1 HI);
    try (by intros r c st1 HI); try (by intros line st1 HI _).
Qed.

Lemma start_section_saves roots section (st : Builder H) r st' :
  start_section H roots section st = (Ok r, st') ->
  has_markup section = true ->
  exists task, snd r = [task] /\
    forall st2 a st3, task st2 = (Ok a, st3) ->
      is_Some (userTemplates H st3 !! s_reference section).
Proof.
  unfold start_section, has_markup. intros Hrun Hm. rewrite Hm in Hrun.
  cbn [negb] in Hrun.
  apply bind_inv in Hrun as (context & st_1 & _ & Hrun).
  apply bind_inv in Hrun as (exampleContext & st_2 & _ & Hrun).
  unfold bind at 1, get at 1 in Hrun.
  destruct (negb (markup_is_file _)) in Hrun.
  - apply bind_inv in Hrun as (? & ? & _ & Hrun). unfold ret in Hrun.
    injection Hrun as <- <-. eexists. split; [reflexivity |].
    intros st2 a st3 Htask.
    apply bind_inv in Htask as (t' & st_m & Hc & Hs).
    unfold compileInline in Hc.
    apply bind_inv in Hc as (? & ? & _ & Hc). unfold ret in Hc.
    injection Hc as <- <-. unfold saveTemplate, modify in Hs.
    injection Hs as _ <-. simpl. rewrite lookup_insert_is_Some'. by left.
  - apply bind_inv in Hrun as (? & ? & _ & Hrun). unfold ret in Hrun.
    injection Hrun as <- <-. eexists. split; [reflexivity |].
    intros st2 a st3 Htask.
    apply bind_inv in Htask as (t' & st_m & Hc & Hs).
    apply resolve_file_reference in Hc as (Href & _).
    unfold saveTemplate, modify in Hs.
    injection Hs as _ <-. simpl. rewrite Href. simpl.
    rewrite lookup_insert_is_Some'. by left.
Qed.

Lemma sections_recorded sections : forall roots (st : Builder H) r st1 st2 l st3,
  start_sections H roots sections st = (Ok r, st1) ->
  promise_all H (snd r) st2 = (Ok l, st3) ->
  forall s, s ∈ sections -> has_markup s = true ->
    is_Some (userTemplates H st3 !! s_reference s).
Proof.
  induction sections as [| x rest IH]; intros roots st r st1 st2 l st3 Hs Hall s Hin Hm.
  - by apply elem_of_nil in Hin.
  - simpl in Hs.
    apply bind_inv in Hs as (r1 & st_1 & H1 & Hs).
    apply bind_inv in Hs as (r2 & st_2 & H2 & Hs).
    unfold ret in Hs. injection Hs as <- <-. cbn [snd] in Hall.
    apply promise_all_app_inv in Hall as (a & st_m & b & Ha & Hb).
    apply elem_of_cons in Hin as [-> | Hin].
    + destruct (start_section_saves roots x st r1 st_1 H1 Hm) as (task & Et & Hsave).
      rewrite Et in Ha. simpl in Ha.
      destruct (task st2) as [[u | e] st_t] eqn:Etask; [| done].
      unfold ret in Ha. injection Ha as _ <-.
      pose proof (Hsave st2 u st_t Etask) as Hrec.
      pose proof (recorded_tasks (options H st_t) (s_reference x) (fst r1) rest
                    st_1 r2 st_2 H2) as Hpres.
      eapply (preserves_run H (recorded (options H st_t) (s_reference x)))
        in Hb; [by destruct Hb | by apply preserves_promise_all | by split].
    + by eapply (IH (fst r1) st_1 r2 st_2 st_m b st3).
Qed.


End Records.

(** ** [safeMarkup] on parsed data *)

Section SafeMarkup.
Context (H : Host).


End SafeMarkup.

(** ** The root of a reference *)

Lemma first_token_cons c r :
  first_token (String c r) =
  if Ascii.eqb c "."%char then ""
  else if String.prefix " - " (String c r) then ""
  else String c (first_token r).
Proof. reflexivity. Qed.

Lemma first_token_prefix s :
  exists rest, s = first_token s +:+ rest /\
    (rest = "" \/ String.prefix "." rest = true \/ String.prefix " - " rest = true).
Proof.
  induction s as [| c r (rest & Hr & Hrest)].
  - exists "". by split; [| left].
  - rewrite first_token_cons.
    destruct (Ascii.eqb_spec c "."%char) as [-> | Hc].
    + exists (String "." r). split; [done |]. right. left. simpl.
      by destruct r.
    + destruct (String.prefix " - " (String c r)) eqn:Hp.
      * exists (String c r). split; [done |]. by right; right.
      * exists rest. split; [| done]. rewrite append_cons. by f_equal.
Qed.

Lemma first_token_no_dot s pre post :
  first_token s <> pre +:+ "." +:+ post.
Proof.
  revert pre. induction s as [| c r IH]; intros pre.
  - by destruct pre.
  - rewrite first_token_cons.
    destruct (Ascii.eqb_spec c "."%char) as [-> | Hc]; [by destruct pre |].
    destruct (String.prefix " - " (String c r)); [by destruct pre |].
    destruct pre as [| p pre]; simpl.
    + intros [= -> _]. done.
    + intros [= _ Heq]. by apply IH in Heq.
Qed.

Lemma prefix_first_token x s :
  String.prefix x (first_token s) = true -> String.prefix x s = true.
Proof.
  revert x. induction s as [| c r IH]; intros x; [done |].
  rewrite first_token_cons.
  destruct (Ascii.eqb c "."%char); [by destruct x |].
  destruct (String.prefix " - " (String c r)); [by destruct x |].
  destruct x as [| a x]; [done |]. simpl.
  destruct (Ascii.ascii_dec a c); [apply IH | done].
Qed.

Lemma first_token_no_dash s pre post :
  first_token s <> pre +:+ " - " +:+ post.
Proof.
  revert pre. induction s as [| c r IH]; intros pre.
  - by destruct pre.
  - rewrite first_token_cons.
    destruct (Ascii.eqb_spec c "."%char) as [-> | Hc]; [by destruct pre |].
    destruct (String.prefix " - " (String c r)) eqn:Hp; [by destruct pre |].
    destruct pre as [| p pre].
    + intros Heq.
      assert (String.prefix " - " (first_token (String c r)) = true) as Hpre.
      { rewrite first_token_cons.
        destruct (Ascii.eqb_spec c "."%char); [done |]. rewrite Hp, Heq.
        simpl. by destruct post. }
      apply prefix_first_token in Hpre. congruence.
    + simpl. intros [= _ Heq]. by apply IH in Heq.
Qed.

(** X1. The root of a reference is the text before its first ["."] or
    [" - "]: the reference is the root followed by nothing or by one of
    the two separators, and the root holds neither. *)
Theorem first_token_spec s :
  (exists rest, s = first_token s +:+ rest /\
     (rest = "" \/ String.prefix "." rest = true \/
      String.prefix " - " rest = true)) /\
  (forall pre post, first_token s <> pre +:+ "." +:+ post) /\
  (forall pre post, first_token s <> pre +:+ " - " +:+ post).
Proof.
  split; [apply first_token_prefix |].
  split; [apply first_token_no_dot | apply first_token_no_dash].
Qed.

(** ** Twig namespaces *)

Lemma before_colon_free name rest :
  (forall pre post, name <> pre +:+ ":" +:+ post) ->
  before_colon (name +:+ ":" +:+ rest) = name /\
  after_colon (name +:+ ":" +:+ rest) = Some rest.
Proof.
  induction name as [| c name IH]; intros Hfree; [done |].
  simpl. destruct (Ascii.eqb_spec c ":"%char) as [-> | Hc].
  - by destruct (Hfree "" name).
  - destruct IH as [-> ->]; [| done].
    intros pre post ->. by apply (Hfree (String c pre) post).
Qed.

Lemma before_colon_none s :
  (forall pre post, s <> pre +:+ ":" +:+ post) ->
  before_colon s = s /\ after_colon s = None.
Proof.
  induction s as [| c s IH]; intros Hfree; [done |].
  simpl. destruct (Ascii.eqb_spec c ":"%char) as [-> | Hc].
  - by destruct (Hfree "" s).
  - destruct IH as [-> ->]; [| done].
    intros pre post ->. by apply (Hfree (String c pre) post).
Qed.

Lemma namespaces_snoc resolve builder l s :
  namespaces resolve builder (l ++ [s]) =
  match split_colon_2 s !! 1 with
  | Some path =>
      if str_truthy path
      then <[default "" (split_colon_2 s !! 0) := resolve path]>
             (namespaces resolve builder l)
      else namespaces resolve builder l
  | None => namespaces resolve builder l
  end.
Proof. unfold namespaces. by rewrite foldl_app. Qed.


(** ** The homepage text *)

Lemma first_match_found {A} (f : A -> list string) pre x post file rest :
  Forall (fun y => f y = []) pre -> f x = file :: rest ->
  first_match (map f (pre ++ x :: post)) = Some file.
Proof.
  intros Hpre Hx. induction Hpre as [| y pre Hy _ IH]; simpl.
  - by rewrite Hx.
  - by rewrite Hy.
Qed.

Lemma first_match_none {A} (f : A -> list string) l :
  Forall (fun y => f y = []) l -> first_match (map f l) = None.
Proof. induction 1 as [| y l Hy _ IH]; simpl; [done | by rewrite Hy]. Qed.

Section Homepage.
Context (H : Host).

(** X8. The homepage text is the Markdown rendering of the first file
    found under the first source root that has a homepage file, read
    whole; an empty file gives the empty string without rendering; when
    no root has one, the text is empty, nothing fails, and one line is
    logged, a warning unless [verbose] is set. *)
Theorem homepage_text_spec (st : Builder H) :
  let opts := options H st in
  let found source := glob H (source +:+ "/**/" +:+ o_homepage opts) in
  (forall pre source post file rest text,
     o_source opts = pre ++ source :: post ->
     Forall (fun s => found s = []) pre ->
     found source = file :: rest ->
     fs_read H file = Some text ->
     homepage_text H st
     = (Ok (if str_truthy text then marked H text else ""), st)) /\
  (Forall (fun s => found s = []) (o_source opts) ->
   homepage_text H st
   = (Ok "",
      set_logged H
        (logged H st ++
         [(if o_verbose opts then "   ...no homepage content found in "
           else "WARNING: no homepage content found in ")
          +:+ o_homepage opts +:+ "."]) st)).
Proof.
  intros opts found. subst opts found. split.
  - intros pre source post file rest text Hsrc Hpre Hfound Hread.
    unfold homepage_text, bind, get. cbv zeta. rewrite Hsrc.
    erewrite first_match_found; [| exact Hpre | exact Hfound].
    by rewrite Hread.
  - intros Hnone. unfold homepage_text, bind, get. cbv zeta.
    rewrite first_match_none by exact Hnone.
    by destruct (o_verbose (options H st)).
Qed.

End Homepage.

(** ** What the search pushes to [compileTemplates] *)

(** A load of a file, as the loops push it. *)
Abbreviation is_load :=
  (fun j : job => match j with LoadTemplate _ | LoadExample _ => True | _ => False end).

Lemma visit_file_loads name exampleName s file :
  Forall is_load (compileTemplates s) ->
  Forall is_load (compileTemplates (visit_file name exampleName s file)).
Proof.
  intros Hs. unfold visit_file. repeat case_match; simpl; try done;
    apply Forall_app; split; try done; by constructor.
Qed.

Lemma search_loads name exampleName file globMatches :
  Forall is_load (compileTemplates (search name exampleName file globMatches)).
Proof.
  rewrite search_concat.
  generalize (concat globMatches). intros files.
  assert (Forall is_load
            (compileTemplates (Build_Search false false file "" []))) as Hs
    by constructor.
  revert Hs. generalize (Build_Search false false file "" []).
  induction files as [| f files IH]; intros s Hs; simpl; [done |].
  apply IH. by apply visit_file_loads.
Qed.

Lemma loads_nil jobs :
  Forall is_load jobs -> loads_of jobs = [] -> examples_of jobs = [] -> jobs = [].
Proof. by destruct 1 as [| [] ]. Qed.

Lemma loads_only_template jobs f :
  Forall is_load jobs -> loads_of jobs = [f] -> examples_of jobs = [] ->
  jobs = [LoadTemplate f].
Proof.
  destruct 1 as [| [] jobs' Hj Hrest]; try done; simpl.
  intros [= -> Hl] He. by rewrite (loads_nil jobs' Hrest Hl He).
Qed.

Lemma loads_only_example jobs e :
  Forall is_load jobs -> loads_of jobs = [] -> examples_of jobs = [e] ->
  jobs = [LoadExample e].
Proof.
  destruct 1 as [| [] jobs' Hj Hrest]; try done; simpl.
  intros Hl [= -> He]. by rewrite (loads_nil jobs' Hrest Hl He).
Qed.

Section Found.
Context (H : Host).

Lemma search_template_only file sources r f :
  let name := basename file in
  let exampleName := "kss-example-" +:+ name in
  first_root H name file name sources = Some (r, f) ->
  first_root H exampleName file name sources = None ->
  search name exampleName file (findTemplates H sources file name) =
  {| foundTemplate := true; foundExample := false; found_file := f;
     found_exampleFile := ""; compileTemplates := [LoadTemplate f] |}.
Proof.
  intros name exampleName Hn He.
  pose proof (search_template H file sources) as Ht.
  pose proof (search_example H file sources) as Hx.
  pose proof (search_loads name exampleName file
                (findTemplates H sources file name)) as Hl.
  cbv zeta in Ht, Hx. fold name exampleName in Ht, Hx.
  rewrite Hn in Ht. rewrite He in Hx.
  destruct (search name exampleName file _) as [ft fe ff fx jobs]; simpl in *.
  destruct Ht as (-> & -> & Hloads), Hx as (-> & -> & Hexamples).
  by rewrite (loads_only_template jobs f Hl Hloads Hexamples).
Qed.

Lemma search_example_only file sources r e :
  let name := basename file in
  let exampleName := "kss-example-" +:+ name in
  first_root H name file name sources = None ->
  first_root H exampleName file name sources = Some (r, e) ->
  search name exampleName file (findTemplates H sources file name) =
  {| foundTemplate := false; foundExample := true; found_file := file;
     found_exampleFile := e; compileTemplates := [LoadExample e] |}.
Proof.
  intros name exampleName Hn He.
  pose proof (search_template H file sources) as Ht.
  pose proof (search_example H file sources) as Hx.
  pose proof (search_loads name exampleName file
                (findTemplates H sources file name)) as Hl.
  cbv zeta in Ht, Hx. fold name exampleName in Ht, Hx.
  rewrite Hn in Ht. rewrite He in Hx.
  destruct (search name exampleName file _) as [ft fe ff fx jobs]; simpl in *.
  destruct Ht as (-> & -> & Hloads), Hx as (-> & -> & Hexamples).
  by rewrite (loads_only_example jobs e Hl Hloads Hexamples).
Qed.

Lemma twigAsync_path_ok id path (st : Builder H) :
  registry H st !! id = None -> loadable H path = true ->
  twigAsync H (TwigPath id path) st =
  (Ok (Template id (FromPath path)),
   set_registry H (<[id := Template id (FromPath path)]> (registry H st))
     (compiled H st ++ [Template id (FromPath path)]) st).
Proof. intros Hr Hl. rewrite twigAsync_path_free by done. by rewrite Hl. Qed.

(** [require] of the sample file, or [{}]: never an error; nothing but
    the store and the module cache change. *)
Lemma sample_context_ok path (st : Builder H) :
  exists v st',
    catch H (require_json H path) (new_object H) st = (Ok v, st') /\
    registry H st' = registry H st /\ compiled H st' = compiled H st /\
    logged H st' = logged H st /\ options H st' = options H st /\
    userTemplates H st' = userTemplates H st /\
    (modules H st !! path = None ->
     JSON_stringify H (heap H st') v
     = Some (match json_file H path with
             | Some data => unmark H data
             | None => TObj []
             end)).
Proof.
  unfold catch, require_json, new_object.
  destruct (modules H st !! path) as [v |] eqn:Em.
  { eexists _, _. split; [reflexivity |]. by repeat split. }
  destruct (json_file H path) as [data |].
  - destruct (JSON_parse H data (heap H st)) as [h v] eqn:Ep.
    eexists _, _. split; [reflexivity |]. repeat (split; [done |]).
    intros _. cbn [heap set_modules set_heap].
    destruct (JSON_parse_shape H data (heap H st) h v Ep) as [_ Hshape].
    unfold JSON_stringify.
    erewrite sees_reify; [| eapply shape_sees; exact Hshape |].
    + simpl. by rewrite unmark_idem.
    + pose proof (shape_depth H _ _ _ _ _ Hshape). lia.
  - eexists _, _. split; [reflexivity |]. repeat (split; [done |]).
    intros _. cbn [heap set_heap]. unfold JSON_stringify.
    rewrite reify_S, lookup_app_r, Nat.sub_diag by lia. done.
Qed.

Lemma run_load_template (template : SectionTemplate (num H)) f (st : Builder H) :
  registry H st !! t_name template = None -> loadable H f = true ->
  exists v st',
    promise_all H (map (run_job H template) [LoadTemplate f]) st
    = (Ok [set_context H v], st') /\
    registry H st' = <[t_name template := Template (t_name template) (FromPath f)]>
                       (registry H st) /\
    logged H st' = logged H st /\
    (modules H st !! json_path H f (t_name template) = None ->
     JSON_stringify H (heap H st') v
     = Some (match json_file H (json_path H f (t_name template)) with
             | Some data => unmark H data
             | None => TObj []
             end)).
Proof.
  intros Hreg Hload. cbn [map promise_all run_job].
  unfold bind at 1. rewrite twigAsync_path_ok by done.
  set (st1 := set_registry H _ _ st).
  destruct (sample_context_ok (json_path H f (t_name template)) st1)
    as (v & st' & Ec & Hr & _ & Hl & _ & _ & Hdata).
  unfold bind. rewrite Ec. unfold ret. exists v, st'.
  split; [done |]. split; [by rewrite Hr |]. split; [by rewrite Hl | exact Hdata].
Qed.

(** X4. When the template file of a section is found and no example
    file is, the file is compiled under its base name, the markup gets
    no marker, and the sample context is what the [.json] file beside the
    template holds, or an empty object when there is no such file or it
    cannot be read: this is no error and logs nothing. *)
Theorem template_with_sample_context (template : SectionTemplate (num H))
    sources (st : Builder H) r f :
  let name := t_name template in
  let file := t_file template in
  let path := json_path H f name in
  name = basename file ->
  t_exampleName template = Some ("kss-example-" +:+ name) ->
  first_root H name file name sources = Some (r, f) ->
  first_root H ("kss-example-" +:+ name) file name sources = None ->
  registry H st !! name = None ->
  loadable H f = true ->
  modules H st !! path = None ->
  exists t' st',
    resolve_file H template (findTemplates H sources file name) st = (Ok t', st') /\
    t_file t' = f /\ t_exampleFile t' = "" /\ t_markup t' = t_markup template /\
    registry H st' = <[name := Template name (FromPath f)]> (registry H st) /\
    JSON_stringify H (heap H st') (t_context t')
    = Some (match json_file H path with
            | Some data => unmark H data
            | None => TObj []
            end) /\
    logged H st' = logged H st ++
      (if o_verbose (options H st)
       then [" - " +:+ t_reference template +:+ ": " +:+ t_markup template]
       else []).
Proof.
  intros name file path Hname Hex Hn He Hreg Hload Hmod.
  assert (Hs : search name ("kss-example-" +:+ name) file
                 (findTemplates H sources file name) =
               Build_Search true false f "" [LoadTemplate f]).
  { rewrite Hname in *. by eapply search_template_only. }
  unfold resolve_file. rewrite Hex. cbn [default]. unfold id. fold name file.
  rewrite Hs.
  cbn [foundTemplate foundExample found_file found_exampleFile compileTemplates
       negb andb app].
  unfold bind at 1, get at 1. unfold bind at 1, ret at 1.
  set (t1 := set_files H f "" template).
  destruct (o_verbose (options H st)) eqn:Ev.
  - unfold bind at 1, log at 1, modify at 1.
    set (st1 := set_logged H _ st).
    destruct (run_load_template t1 f st1) as (v & st' & Erun & Hr & Hl & Hd);
      [done | done |].
    unfold bind. rewrite Erun. unfold ret. eexists _, _.
    split; [reflexivity |]. cbn [foldl]. repeat split; try done.
    + by apply Hd.
  - unfold bind at 1, ret at 1.
    destruct (run_load_template t1 f st) as (v & st' & Erun & Hr & Hl & Hd);
      [done | done |].
    unfold bind. rewrite Erun. unfold ret. eexists _, _.
    split; [reflexivity |]. cbn [foldl]. repeat split; try done.
    + by apply Hd.
    + by rewrite Hl, app_nil_r.
Qed.

Lemma first_root_basename n file name sources r f :
  first_root H n file name sources = Some (r, f) -> basename f = n.
Proof.
  intros Hf. apply first_root_rank in Hf as (pre & post & _ & _ & Hr).
  unfold root_first, first_named in Hr. apply find_some in Hr as [_ Hr].
  by apply String.eqb_eq.
Qed.

Lemma run_example_only (template : SectionTemplate (num H)) exampleName e
    (st : Builder H) :
  let name := t_name template in
  let standin := "{# Cannot be an empty string. #}" in
  t_exampleName template = Some exampleName ->
  name <> exampleName ->
  registry H st !! name = None ->
  registry H st !! exampleName = None ->
  loadable H e = true ->
  twig_parses H (FromData standin) = true ->
  exists v st',
    promise_all H (map (run_job H template) [LoadExample e; EmptyTemplate]) st
    = (Ok [set_exampleContext H v; id], st') /\
    registry H st' =
      <[name := Template name (FromData standin)]>
        (<[exampleName := Template exampleName (FromPath e)]> (registry H st)) /\
    logged H st' = logged H st.
Proof.
  intros name standin Hex Hneq Hreg Hreg' Hload Hparse.
  cbn [map promise_all run_job]. rewrite Hex. cbn [default].
  change (id exampleName) with exampleName.
  unfold bind at 1. rewrite twigAsync_path_ok by done.
  set (st1 := set_registry H _ _ st).
  destruct (sample_context_ok (json_path H e exampleName) st1)
    as (v & st2 & Ec & Hr & _ & Hl & _ & _ & _).
  unfold bind. rewrite Ec. unfold ret at 1.
  fold name.
  rewrite twigAsync_data; [| done | | done].
  - unfold ret. eexists _, _. split; [reflexivity |]. simpl.
    split; [by rewrite Hr | by rewrite Hl].
  - rewrite Hr. unfold st1. simpl. by rewrite lookup_insert_ne.
Qed.

(** X5. When only the example file of a section is found, the example
    is compiled from it under the example name and the template itself
    from a stand-in comment under the template name; the markup gets no
    marker and no warning is logged; the record then saved names the
    example. *)
Theorem example_without_template (template : SectionTemplate (num H))
    sources (st : Builder H) r e :
  let name := t_name template in
  let file := t_file template in
  let exampleName := "kss-example-" +:+ name in
  let standin := "{# Cannot be an empty string. #}" in
  name = basename file ->
  t_exampleName template = Some exampleName ->
  first_root H name file name sources = None ->
  first_root H exampleName file name sources = Some (r, e) ->
  registry H st !! name = None ->
  registry H st !! exampleName = None ->
  loadable H e = true ->
  twig_parses H (FromData standin) = true ->
  exists t' st',
    resolve_file H template (findTemplates H sources file name) st = (Ok t', st') /\
    t_exampleFile t' = e /\ t_markup t' = t_markup template /\
    registry H st' =
      <[name := Template name (FromData standin)]>
        (<[exampleName := Template exampleName (FromPath e)]> (registry H st)) /\
    logged H st' = logged H st ++
      (if o_verbose (options H st)
       then [" - " +:+ t_reference template +:+ ": " +:+ t_markup template]
       else []) /\
    userTemplates H (snd (saveTemplate H t' st')) !! t_reference template
    = Some {| ti_ref := name; ti_context := t_context t';
              ti_exampleRef := Some exampleName;
              ti_exampleContext := t_exampleContext t' |}.
Proof.
  intros name file exampleName standin Hname Hex Hn He Hreg Hreg' Hload Hparse.
  assert (Hs : search name exampleName file (findTemplates H sources file name) =
               Build_Search false true file e [LoadExample e]).
  { subst exampleName. rewrite Hname in *. by eapply search_example_only. }
  assert (Htruthy : str_truthy e = true).
  { apply first_root_basename in He. unfold exampleName in He.
    destruct e; [| done]. by vm_compute in He. }
  unfold resolve_file. rewrite Hex. cbn [default]. unfold id. fold name file.
  rewrite Hs.
  cbn [foundTemplate foundExample found_file found_exampleFile compileTemplates
       negb andb app].
  unfold bind at 1, get at 1. unfold bind at 1, ret at 1.
  set (t1 := set_files H file e template).
  assert (Hex1 : t_exampleName t1 = Some exampleName) by done.
  assert (Hneq : t_name t1 <> exampleName) by apply kss_example_neq.
  destruct (o_verbose (options H st)) eqn:Ev.
  - unfold bind at 1, log at 1, modify at 1.
    set (st1 := set_logged H _ st).
    destruct (run_example_only t1 exampleName e st1 Hex1 Hneq)
      as (v & st' & Erun & Hr & Hl); try done.
    unfold bind. rewrite Erun. unfold ret. eexists _, _.
    split; [reflexivity |]. cbn [foldl]. unfold id.
    repeat (split; [done |]). simpl. rewrite Htruthy, lookup_insert_eq, Hex. done.
  - unfold bind at 1, ret at 1.
    destruct (run_example_only t1 exampleName e st Hex1 Hneq)
      as (v & st' & Erun & Hr & Hl); try done.
    unfold bind. rewrite Erun. unfold ret. eexists _, _.
    split; [reflexivity |]. cbn [foldl]. unfold id.
    repeat (split; [done |]). split; [by rewrite Hl, app_nil_r |].
    simpl. rewrite Htruthy, lookup_insert_eq, Hex. done.
Qed.

End Found.

(** ** The log of a quiet build *)

Section Logging.
Context (H : Host).

(** X12. Without [verbose], a build changes no option and logs warnings
    only, whether it fulfils or rejects. *)
Theorem quiet_build_logs_warnings sg (st : Builder H) :
  o_verbose (options H st) = false ->
  let st1 := snd (build H sg st) in
  options H st1 = options H st /\
  exists lines, logged H st1 = logged H st ++ lines /\
    Forall (fun line => is_warning line = true) lines.
Proof.
  intros Hquiet.
  apply (preserves_build H (options H st)
           (fun st1 => options H st1 = options H st /\
              exists lines, logged H st1 = logged H st ++ lines /\
                Forall (fun line => is_warning line = true) lines)
           (fun _ => True)).
  - by intros st1 [Ho _].
  - by intros h st1 HI.
  - by intros m st1 HI.
  - by intros r c st1 HI.
  - by intros c st1 HI.
  - by intros t st1 HI.
  - intros line st1 (Ho & lines & Hl & Hw) [Hv | Hline]; [congruence |].
    split; [done |]. exists (lines ++ [line]). simpl. rewrite Hl, <- app_assoc.
    split; [done |]. apply Forall_app. split; [done | by constructor].
  - by intros t st1 HI _.
  - by intros w st1 HI.
  - by intros st1 HI.
  - done.
  - split; [done |]. exists []. by rewrite app_nil_r.
Qed.

End Logging.

(** X2. The section roots are pairwise distinct, and a root is among
    them exactly when it is the root of the reference of some section,
    with or without markup. *)
Theorem section_roots_distinct sections :
  NoDup (section_roots sections) /\
  forall r, r ∈ section_roots sections <->
            exists s, s ∈ sections /\ first_token (s_reference s) = r.
Proof.
  destruct (add_roots_spec sections [] (NoDup_nil_2)) as (Hnd & _ & Hin).
  split; [exact Hnd |]. intros r. rewrite (Hin r). split.
  - intros [Hr | Hs]; [by apply elem_of_nil in Hr | exact Hs].
  - by right.
Qed.

(** ** Sections and pages *)

Section Pages.
Context (H : Host).

(** X3. The loop over the sections never fails; it records the section
    roots, makes one task for each section with markup and none for the
    others, sets the custom property [markupFile] to the markup of each
    section whose markup names a file, and allocates the two contexts of
    each section with markup. *)
Theorem sections_start roots sections (st : Builder H) :
  exists tasks st',
    start_sections H roots sections st
    = (Ok (foldl add_root roots sections, tasks), st') /\
    length tasks = length (filter (fun s => has_markup s = true) sections) /\
    customs H st' = customs H st ++
      map (fun s => (s_reference s, s_markup s))
        (filter (fun s => has_markup s && markup_is_file (s_markup s) = true)
           sections) /\
    length (heap H st') =
      length (heap H st)
      + 2 * length (filter (fun s => has_markup s = true) sections).
Proof. apply start_sections_spec. Qed.

(** X9. A page task writes one file when it fulfils, the file of the
    page under the destination, and none when it rejects; it changes no
    option. *)
Theorem buildPage_writes_one_file sg templateName pageReference sections
    (st : Builder H) :
  let r := buildPage H sg templateName pageReference sections st in
  options H (snd r) = options H st /\
  match fst r with
  | Ok _ =>
      exists body,
        written H (snd r) =
        written H st ++
        [(path_join H (o_destination (options H st))
            (page_fileName sg templateName pageReference), body)]
  | Err _ => written H (snd r) = written H st
  end.
Proof.
  exact (buildPage_from H st sg templateName pageReference sections st
           (unwritten_refl H st)).
Qed.

End Pages.

(** ** No identity is compiled twice *)

Lemma loads_length jobs :
  Forall is_load jobs ->
  length jobs = length (loads_of jobs) + length (examples_of jobs).
Proof.
  induction 1 as [| [] jobs Hj _ IH]; simpl in *; try done; lia.
Qed.

(** X14. Whatever the searches return, the loops push at most one load
    of a template file and at most one load of an example file, and
    nothing else: the first returned file with the template name and the
    first with the example name, so no identity is compiled twice for
    one section. *)
Theorem search_loads_each_once name file globMatches :
  let exampleName := "kss-example-" +:+ name in
  let jobs := compileTemplates (search name exampleName file globMatches) in
  loads_of jobs = option_list (first_named name (concat globMatches)) /\
  examples_of jobs = option_list (first_named exampleName (concat globMatches)) /\
  length jobs = length (loads_of jobs) + length (examples_of jobs) /\
  length jobs <= 2.
Proof.
  intros exampleName jobs.
  pose proof (search_loads name exampleName file globMatches) as Hloads.
  fold jobs in Hloads. pose proof (loads_length jobs Hloads) as Hlen.
  assert (Ht : loads_of jobs = option_list (first_named name (concat globMatches))).
  { subst jobs. rewrite search_concat.
    pose proof (visit_template name exampleName (concat globMatches)
                  (Build_Search false false file "" [])) as Hv.
    cbv zeta in Hv. cbn [foundTemplate] in Hv.
    destruct (first_named name (concat globMatches));
      by destruct Hv as (_ & _ & ->). }
  assert (He : examples_of jobs
               = option_list (first_named exampleName (concat globMatches))).
  { subst jobs. rewrite search_concat.
    pose proof (visit_example name exampleName (concat globMatches)
                  (Build_Search false false file "" [])
                  (kss_example_neq name)) as Hv.
    cbv zeta in Hv. cbn [foundExample] in Hv.
    destruct (first_named exampleName (concat globMatches));
      by destruct Hv as (_ & _ & ->). }
  split; [exact Ht |]. split; [exact He |]. split; [exact Hlen |].
  rewrite Hlen, Ht, He.
  destruct (first_named name _), (first_named exampleName _); simpl; lia.
Qed.

(** ** At the sample style guide *)

Lemma sample_build_ok :
  build Sample.host Sample.styleGuide Sample.builder0
  = (Ok Sample.styleGuide, Sample.built).
Proof.
  assert (Hfst : fst (build Sample.host Sample.styleGuide Sample.builder0)
                 = Ok Sample.styleGuide) by reflexivity.
  unfold Sample.built.
  destruct (build Sample.host Sample.styleGuide Sample.builder0) as [r st].
  simpl in Hfst. simpl. by rewrite Hfst.
Qed.

Lemma quiet_build_logs_warnings_witness :
  o_verbose (options Sample.host Sample.builder0) = false /\
  length (logged Sample.host Sample.built) = 2 /\
  Forall (fun line => is_warning line = true) (logged Sample.host Sample.built).
Proof.
  split; [reflexivity |]. split; [vm_compute; reflexivity |].
  pose proof (quiet_build_logs_warnings Sample.host Sample.styleGuide
                Sample.builder0 eq_refl) as Hquiet.
  cbv zeta in Hquiet. destruct Hquiet as [_ (lines & Hl & Hw)].
  unfold Sample.built. rewrite Hl. exact Hw.
Defined.


Lemma build_without_index_witness :
  pt_index (the_templates Sample.host Sample.builder_without_index) = None /\
  fs_is_file Sample.host "/nowhere/index.twig" = false /\
  exists e st1,
    build Sample.host Sample.styleGuide Sample.builder_without_index
    = (Err e, st1) /\
    written Sample.host st1 = [].
Proof.
  split; [reflexivity |]. split; [vm_compute; reflexivity |].
  pose proof (build_without_index Sample.host Sample.styleGuide
                Sample.builder_without_index eq_refl) as Hb.
  cbv zeta in Hb. destruct Hb as (e & st1 & Hrun & Hw & _).
  - vm_compute. reflexivity.
  - exists e, st1. split; [exact Hrun | exact Hw].
Defined.


Lemma homepage_text_spec_witness :
  Forall (fun s => glob Sample.host (s +:+ "/**/" +:+ "homepage.md") = [])
    ["/a"; "/b"] /\
  homepage_text Sample.host Sample.builder0
  = (Ok "",
     set_logged Sample.host
       ["WARNING: no homepage content found in homepage.md."] Sample.builder0).
Proof.
  assert (Hnone : Forall (fun s => glob Sample.host (s +:+ "/**/" +:+ "homepage.md")
                                   = []) ["/a"; "/b"]).
  { constructor; [reflexivity |]. constructor; [reflexivity |]. constructor. }
  split; [exact Hnone |].
  pose proof (homepage_text_spec Sample.host Sample.builder0) as Hspec.
  cbv zeta in Hspec. destruct Hspec as [_ Hmissing].
  exact (Hmissing Hnone).
Defined.

Lemma template_with_sample_context_witness :
  first_root Sample.host "card.twig" "card.twig" "card.twig" ["/a"; "/b"]
    = Some ("/a", "/a/ui/card.twig") /\
  first_root Sample.host "kss-example-card.twig" "card.twig" "card.twig"
    ["/a"; "/b"] = None /\
  loadable Sample.host "/a/ui/card.twig" = true /\
  exists t' st',
    resolve_file Sample.host Sample.card_template
      (findTemplates Sample.host ["/a"; "/b"] "card.twig" "card.twig")
      Sample.builder0 = (Ok t', st') /\
    t_file t' = "/a/ui/card.twig" /\
    JSON_stringify Sample.host (heap Sample.host st') (t_context t')
    = Some (TObj Sample.card_fields).
Proof.
  assert (Hn : first_root Sample.host "card.twig" "card.twig" "card.twig"
                 ["/a"; "/b"] = Some ("/a", "/a/ui/card.twig"))
    by (vm_compute; reflexivity).
  assert (He : first_root Sample.host "kss-example-card.twig" "card.twig"
                 "card.twig" ["/a"; "/b"] = None) by (vm_compute; reflexivity).
  assert (Hl : loadable Sample.host "/a/ui/card.twig" = true)
    by (vm_compute; reflexivity).
  do 3 (split; [assumption |]).
  pose proof (template_with_sample_context Sample.host Sample.card_template
                ["/a"; "/b"] Sample.builder0 "/a" "/a/ui/card.twig"
                eq_refl eq_refl Hn He eq_refl Hl eq_refl) as Hfound.
  destruct Hfound as (t' & st' & Hrun & Hfile & _ & _ & _ & Hctx & _).
  exists t', st'. split; [exact Hrun |]. split; [exact Hfile | exact Hctx].
Defined.

Lemma example_without_template_witness :
  first_root Sample.host "button.twig" "x/button.twig" "button.twig" ["/a"; "/b"]
    = None /\
  first_root Sample.host "kss-example-button.twig" "x/button.twig" "button.twig"
    ["/a"; "/b"] = Some ("/b", "/b/kss-example-button.twig") /\
  exists t' st',
    resolve_file Sample.host Sample.orphan_template
      (findTemplates Sample.host ["/a"; "/b"] "x/button.twig" "button.twig")
      Sample.builder0 = (Ok t', st') /\
    t_exampleFile t' = "/b/kss-example-button.twig" /\
    t_markup t' = "x/button.twig" /\
    registry Sample.host st' !! "button.twig"
    = Some (Template "button.twig" (FromData "{# Cannot be an empty string. #}")) /\
    logged Sample.host st' = [].
Proof.
  assert (Hn : first_root Sample.host "button.twig" "x/button.twig" "button.twig"
                 ["/a"; "/b"] = None) by (vm_compute; reflexivity).
  assert (He : first_root Sample.host "kss-example-button.twig" "x/button.twig"
                 "button.twig" ["/a"; "/b"]
               = Some ("/b", "/b/kss-example-button.twig"))
    by (vm_compute; reflexivity).
  do 2 (split; [assumption |]).
  pose proof (example_without_template Sample.host Sample.orphan_template
                ["/a"; "/b"] Sample.builder0 "/b" "/b/kss-example-button.twig"
                eq_refl eq_refl Hn He eq_refl eq_refl eq_refl eq_refl) as Hfound.
  destruct Hfound as (t' & st' & Hrun & Hfile & Hmarkup & Hreg & Hlog & _).
  exists t', st'. split; [exact Hrun |]. split; [exact Hfile |].
  split; [exact Hmarkup |]. split; [| exact Hlog].
  rewrite Hreg. apply lookup_insert_eq.
Defined.


